(** * mirorim-cli: the [.env] store and its [env.d.ts] mirror

    A shallow embedding of [internal/dotenv/dotenv.go] (the store, the
    mirror, the change of [babel.config.js], the removal of the files), of
    the [env] sub-commands of the command layer and of the functions that
    name a hook, with the properties of the environment store proved over
    it.

    Go strings are byte sequences: they are modelled by [string], whose
    characters are the 256 [ascii] bytes.  A Go [map[string]string] is a
    [gmap string string]; the order in which [range] walks a map is not
    fixed by the language, so every loop over a map takes the order as an
    argument.  The file system is a finite map from paths to contents;
    failures of the operating system (permissions, full disk) are outside
    the model, so the error branches that only they can reach are left
    out. *)

From Stdlib Require Import ZArith NArith Ascii String List Bool Lia SpecFloat.
From stdpp Require Import base option list gmap strings fin_maps.

Local Open Scope Z_scope.

(** ** Bytes and a few named characters *)

Definition byte_val (c : ascii) : Z := Z.of_N (N_of_ascii c).
Definition byte_of (z : Z) : ascii := ascii_of_N (Z.to_N z).

Definition LF : ascii := "010"%char.
Definition CR : ascii := "013"%char.
Definition DQUOTE : ascii := "034"%char.

Definition nl : string := String LF "".

Definition strlen (s : string) : N := N.of_nat (String.length s).

(** [s[i:]] and [s[:i]] of Go, on byte offsets. *)
Fixpoint str_drop (n : nat) (s : string) : string :=
  match n, s with
  | O, _ => s
  | S _, EmptyString => EmptyString
  | S n', String _ s' => str_drop n' s'
  end.

Fixpoint str_take (n : nat) (s : string) : string :=
  match n, s with
  | O, _ => EmptyString
  | S _, EmptyString => EmptyString
  | S n', String c s' => String c (str_take n' s')
  end.

(** The last byte of a string, if any. *)
Fixpoint str_last (s : string) : option ascii :=
  match s with
  | EmptyString => None
  | String c EmptyString => Some c
  | String _ s' => str_last s'
  end.

(** ** Package [strings] *)

(** [strings.HasPrefix(s, prefix)]. *)
Fixpoint HasPrefix (s prefix : string) : bool :=
  match prefix, s with
  | EmptyString, _ => true
  | String _ _, EmptyString => false
  | String a p', String b s' => Ascii.eqb a b && HasPrefix s' p'
  end.

(** [strings.Contains(s, substr)]. *)
Fixpoint Contains (s substr : string) : bool :=
  HasPrefix s substr ||
  match s with
  | EmptyString => false
  | String _ s' => Contains s' substr
  end.

(** The text before and after the first occurrence of the byte [sep]. *)
Fixpoint cut_at (sep : ascii) (s : string) : option (string * string) :=
  match s with
  | EmptyString => None
  | String c s' =>
      if Ascii.eqb c sep then Some (EmptyString, s')
      else match cut_at sep s' with
           | Some (before, after) => Some (String c before, after)
           | None => None
           end
  end.

(** [strings.SplitN(s, sep, 2)] for a one-byte separator: the whole string
    when [sep] does not occur, else the two parts around its first
    occurrence. *)
Definition SplitN2 (s : string) (sep : ascii) : list string :=
  match cut_at sep s with
  | Some (before, after) => [before; after]
  | None => [s]
  end.

(** [strings.Join(elems, sep)]. *)
Fixpoint Join (elems : list string) (sep : string) : string :=
  match elems with
  | [] => EmptyString
  | [x] => x
  | x :: rest => x +:+ sep +:+ Join rest sep
  end.

(** ** Package [unicode/utf8] *)

Definition RuneError : Z := 0xFFFD.
Definition RuneSelf : Z := 0x80.
Definition MaxRune : Z := 0x10FFFF.

(** The table [first] of the decoder together with [acceptRanges]: for a
    leading byte, the length of the sequence and the range allowed for its
    second byte; [None] for a byte that starts no sequence. *)
Definition utf8_first (b : Z) : option (nat * Z * Z) :=
  if b <? 0xC2 then None
  else if b <=? 0xDF then Some (2%nat, 0x80, 0xBF)
  else if b =? 0xE0 then Some (3%nat, 0xA0, 0xBF)
  else if b =? 0xED then Some (3%nat, 0x80, 0x9F)
  else if b <=? 0xEF then Some (3%nat, 0x80, 0xBF)
  else if b =? 0xF0 then Some (4%nat, 0x90, 0xBF)
  else if b <=? 0xF3 then Some (4%nat, 0x80, 0xBF)
  else if b =? 0xF4 then Some (4%nat, 0x80, 0x8F)
  else None.

Definition is_cont (b : Z) : bool := (0x80 <=? b) && (b <=? 0xBF).

(** [utf8.DecodeRuneInString]: the first rune of [s] and its width in bytes;
    [(RuneError, 1)] for an encoding that is invalid or cut short. *)
Definition DecodeRuneInString (s : string) : Z * nat :=
  match s with
  | EmptyString => (RuneError, 0%nat)
  | String c0 t0 =>
      let s0 := byte_val c0 in
      if s0 <? RuneSelf then (s0, 1%nat)
      else match utf8_first s0, t0 with
           | Some (sz, lo, hi), String c1 t1 =>
               let s1 := byte_val c1 in
               if (s1 <? lo) || (hi <? s1) then (RuneError, 1%nat)
               else if (sz <=? 2)%nat then
                 (Z.lor (Z.shiftl (Z.land s0 0x1F) 6) (Z.land s1 0x3F), 2%nat)
               else match t1 with
                    | String c2 t2 =>
                        let s2 := byte_val c2 in
                        if negb (is_cont s2) then (RuneError, 1%nat)
                        else if (sz <=? 3)%nat then
                          (Z.lor (Z.shiftl (Z.land s0 0x0F) 12)
                             (Z.lor (Z.shiftl (Z.land s1 0x3F) 6) (Z.land s2 0x3F)),
                           3%nat)
                        else match t2 with
                             | String c3 _ =>
                                 let s3 := byte_val c3 in
                                 if negb (is_cont s3) then (RuneError, 1%nat)
                                 else
                                   (Z.lor (Z.shiftl (Z.land s0 0x07) 18)
                                      (Z.lor (Z.shiftl (Z.land s1 0x3F) 12)
                                         (Z.lor (Z.shiftl (Z.land s2 0x3F) 6)
                                            (Z.land s3 0x3F))),
                                    4%nat)
                             | EmptyString => (RuneError, 1%nat)
                             end
                    | EmptyString => (RuneError, 1%nat)
                    end
           | _, _ => (RuneError, 1%nat)
           end
  end.

(** [utf8.RuneStart]: the byte is not a continuation byte. *)
Definition RuneStart (b : Z) : bool := negb (Z.land b 0xC0 =? 0x80).

Definition byte_at (s : string) (i : Z) : Z :=
  match String.get (Z.to_nat i) s with
  | Some c => byte_val c
  | None => 0
  end.

(** The backward search of [DecodeLastRuneInString]:
    [for start--; start >= lim; start-- { if RuneStart(s[start]) { break } }],
    entered after the decrement. *)
Fixpoint rune_start_back (fuel : nat) (s : string) (start lim : Z) : Z :=
  match fuel with
  | O => start
  | S fuel' =>
      if start <? lim then start
      else if RuneStart (byte_at s start) then start
      else rune_start_back fuel' s (start - 1) lim
  end.

(** [utf8.DecodeLastRuneInString]: the last rune of [s] and its width. *)
Definition DecodeLastRuneInString (s : string) : Z * nat :=
  match str_last s with
  | None => (RuneError, 0%nat)
  | Some c =>
      let r := byte_val c in
      if r <? RuneSelf then (r, 1%nat)
      else
        let end_ := Z.of_nat (String.length s) in
        let lim := Z.max 0 (end_ - 4) in
        let start := Z.max 0 (rune_start_back 4 s (end_ - 2) lim) in
        let '(r, size) := DecodeRuneInString (str_drop (Z.to_nat start) s) in
        if start + Z.of_nat size =? end_ then (r, size) else (RuneError, 1%nat)
  end.

(** [utf8.AppendRune]: the encoding of a rune; a surrogate or a value past
    [MaxRune] is written as [RuneError]. *)
Definition EncodeRune (r : Z) : string :=
  let b (z : Z) := byte_of (Z.land z 0xFF) in
  let cont (z : Z) := b (Z.lor 0x80 (Z.land z 0x3F)) in
  let three (r : Z) :=
    String (b (Z.lor 0xE0 (Z.shiftr r 12)))
      (String (cont (Z.shiftr r 6)) (String (cont r) "")) in
  if r <? 0 then three RuneError
  else if r <=? 0x7F then String (b r) ""
  else if r <=? 0x7FF then
    String (b (Z.lor 0xC0 (Z.shiftr r 6))) (String (cont r) "")
  else if (MaxRune <? r) || ((0xD800 <=? r) && (r <=? 0xDFFF)) then three RuneError
  else if r <=? 0xFFFF then three r
  else
    String (b (Z.lor 0xF0 (Z.shiftr r 18)))
      (String (cont (Z.shiftr r 12))
         (String (cont (Z.shiftr r 6)) (String (cont r) ""))).

(** ** Package [unicode] *)

(** [unicode.IsSpace]: the Latin-1 cases, then the [White_Space] table. *)
Definition IsSpace (r : Z) : bool :=
  if r <=? 0xFF then
    (r =? 9) || (r =? 10) || (r =? 11) || (r =? 12) || (r =? 13) ||
    (r =? 32) || (r =? 0x85) || (r =? 0xA0)
  else
    (r =? 0x1680) || ((0x2000 <=? r) && (r <=? 0x200A)) ||
    ((0x2028 <=? r) && (r <=? 0x2029)) || (r =? 0x202F) ||
    (r =? 0x205F) || (r =? 0x3000).

(** ** White-space trimming *)

(** [strings.TrimLeftFunc(s, unicode.IsSpace)]: runes are decoded from the
    left while they are white space.  Every step consumes a byte, so the
    length of the string is fuel enough. *)
Fixpoint trim_left (fuel : nat) (s : string) : string :=
  match fuel with
  | O => s
  | S fuel' =>
      match s with
      | EmptyString => EmptyString
      | String _ _ =>
          let '(r, w) := DecodeRuneInString s in
          if IsSpace r then trim_left fuel' (str_drop w s) else s
      end
  end.

(** [strings.TrimRightFunc(s, unicode.IsSpace)]: runes are decoded from the
    right while they are white space. *)
Fixpoint trim_right (fuel : nat) (s : string) : string :=
  match fuel with
  | O => s
  | S fuel' =>
      match s with
      | EmptyString => EmptyString
      | String _ _ =>
          let '(r, w) := DecodeLastRuneInString s in
          if IsSpace r then trim_right fuel' (str_take (String.length s - w) s)
          else s
      end
  end.

(** [strings.TrimSpace(s)].  Go takes a fast path over ASCII bytes and falls
    back to [TrimFunc(s, unicode.IsSpace)], which is
    [TrimRightFunc(TrimLeftFunc(s, f), f)]; the two give the same string,
    and the fallback is what is written here. *)
Definition TrimSpace (s : string) : string :=
  let l := trim_left (String.length s) s in
  trim_right (String.length l) l.

(** ** Upper-casing *)

(** [strings.Map(mapping, s)]: every rune of [s] is decoded (an invalid
    byte as [RuneError]), mapped, and written back in UTF-8; a negative
    result drops the rune. *)
Fixpoint map_runes (fuel : nat) (mapping : Z -> Z) (s : string) : string :=
  match fuel with
  | O => EmptyString
  | S fuel' =>
      match s with
      | EmptyString => EmptyString
      | String _ _ =>
          let '(c, w) := DecodeRuneInString s in
          let r := mapping c in
          (if r <? 0 then EmptyString else EncodeRune r)
            +:+ map_runes fuel' mapping (str_drop w s)
      end
  end.

Definition Map (mapping : Z -> Z) (s : string) : string :=
  map_runes (String.length s) mapping s.

(** Files by path, each with its content. *)
Abbreviation FS := (gmap string string).

(** The order in which a [range] loop walks the entries of a map. *)
Abbreviation MapOrder := (gmap string string -> list (string * string)).

(** A case table that leaves every rune above ASCII as it is.  The examples
    at the end of the file are ASCII and never consult it. *)
Definition ascii_only_table (r : Z) : Z := r.

(** A property table that holds no rune above ASCII, for the same use. *)
Definition no_rune (r : Z) : bool := false.

Section Dotenv.

(** The case table of Go's [unicode] package for the runes above ASCII,
    [unicode.To(unicode.UpperCase, r)].  The table belongs to the Go
    distribution, not to this repository, and no property proved below
    depends on its entries. *)
Variable To_UpperCase : Z -> Z.

(** [unicode.ToUpper]. *)
Definition unicode_ToUpper (r : Z) : Z :=
  if r <=? 0x7F then
    if (0x61 <=? r) && (r <=? 0x7A) then r - 0x20 else r
  else To_UpperCase r.

(** [strings.ToUpper(s)].  Go upper-cases an all-ASCII string byte by byte
    and otherwise returns [Map(unicode.ToUpper, s)]; on an all-ASCII string
    the two agree, and the general form is what is written here. *)
Definition ToUpper (s : string) : string := Map unicode_ToUpper s.

(** ** Package [bufio]: a [Scanner] over lines *)

(** [bufio.MaxScanTokenSize], the size of the largest buffer a scanner
    built by [bufio.NewScanner] allocates. *)
Definition MaxScanTokenSize : N := 65536.

(** [dropCR] of [bufio]: one trailing carriage return is dropped. *)
Definition dropCR (s : string) : string :=
  match str_last s with
  | Some c => if Ascii.eqb c CR then str_take (String.length s - 1) s else s
  | None => s
  end.

(** The tokens that [for scanner.Scan() { ... scanner.Text() ... }] walks
    through with the default split function [bufio.ScanLines].  [cur] is
    the part of the current line read so far.  A line ends at a line feed
    or at the end of the input; the last line is delivered when it is not
    empty.  A line that fills the buffer before its line feed is seen makes
    [Scan] return false ([bufio.ErrTooLong]): the loop ends there, and the
    callers below never look at [scanner.Err()]. *)
Fixpoint scan_from (data cur : string) : list string :=
  match data with
  | EmptyString =>
      match cur with
      | EmptyString => []
      | String _ _ => [dropCR cur]
      end
  | String c rest =>
      if Ascii.eqb c LF then dropCR cur :: scan_from rest EmptyString
      else if (MaxScanTokenSize <=? strlen cur + 1)%N then []
      else scan_from rest (cur +:+ String c EmptyString)
  end.

Definition scanLines (data : string) : list string := scan_from data EmptyString.

(** ** The file system and [path/filepath] *)

(** [filepath.Join(dir, name)] for a directory as [os.Getwd] returns it and
    a plain file name: the two joined by the separator. *)
Definition filepath_Join (dir name : string) : string := dir +:+ "/" +:+ name.

(** An order is one Go may choose when it lists every entry once. *)
Definition valid_order (order : MapOrder) : Prop :=
  forall m, order m ≡ₚ map_to_list m.

(** ** [internal/dotenv]: the store *)

Record DotenvFile := {
  Path : string;
  Variables : gmap string string
}.

(** [EnsureExpoPrefix]. *)
Definition EnsureExpoPrefix (key : string) : string :=
  if negb (HasPrefix key "EXPO_PUBLIC_") then "EXPO_PUBLIC_" +:+ key else key.

(** The body of the scanning loop of [LoadEnvFile], for one line. *)
Definition load_line (vars : gmap string string) (line : string) : gmap string string :=
  if HasPrefix line "#" || String.eqb line EmptyString then vars
  else match SplitN2 line "="%char with
       | [key; value] => <[TrimSpace key := TrimSpace value]> vars
       | _ => vars
       end.

(** [LoadEnvFile(path)]: the file is created empty when it does not exist,
    then read line by line.  Returns the store and the file system. *)
Definition LoadEnvFile (path : string) (fs : FS) : DotenvFile * FS :=
  let fs1 := match fs !! path with
             | None => <[path := EmptyString]> fs
             | Some _ => fs
             end in
  let content := default EmptyString (fs1 !! path) in
  ({| Path := path; Variables := fold_left load_line (scanLines content) ∅ |}, fs1).

(** What the loop of [SaveEnvFile] writes for the entries in the order of
    the walk: [fmt.Sprintf] of [%s=%s] and a line feed, for each. *)
Fixpoint write_entries (kvs : list (string * string)) : string :=
  match kvs with
  | [] => EmptyString
  | (key, value) :: rest => key +:+ "=" +:+ value +:+ nl +:+ write_entries rest
  end.

(** [DotenvFile.SaveEnvFile()]: [os.Create] truncates the file, then
    every entry is written. *)
Definition SaveEnvFile (order : MapOrder) (e : DotenvFile) (fs : FS) : FS :=
  <[Path e := write_entries (order (Variables e))]> fs.

(** [DotenvFile.AddOrUpdateKey(key, value)]. *)
Definition AddOrUpdateKey (e : DotenvFile) (key value : string) : DotenvFile :=
  let key := ToUpper key in
  {| Path := Path e; Variables := <[key := value]> (Variables e) |}.

(** [DotenvFile.RemoveKey(key)]. *)
Definition RemoveKey (e : DotenvFile) (key : string) : DotenvFile :=
  {| Path := Path e; Variables := delete key (Variables e) |}.

(** [DotenvFile.ListKeys()]. *)
Definition ListKeys (order : MapOrder) (e : DotenvFile) : list string :=
  (order (Variables e)).*1.

(** ** [internal/dotenv]: the declaration mirror [env.d.ts] *)

(** The opening line of the wrapper block. *)
Definition envModuleHeader : string :=
  "declare module " +:+ String DQUOTE ("@env" +:+ String DQUOTE " {").

(** The text [EnsureCorrectEnvDTSStructure] writes: the opening line, the
    closing brace, each followed by a line feed. *)
Definition initialEnvDTS : string := envModuleHeader +:+ nl +:+ "}" +:+ nl.

(** [EnsureCorrectEnvDTSStructure(envPath)]: the file is created with the
    initial text when it does not exist, and rewritten with it when its
    content does not contain the opening line. *)
Definition EnsureCorrectEnvDTSStructure (envPath : string) (fs : FS) : FS :=
  let envDTSPath := filepath_Join envPath "env.d.ts" in
  let fs1 := match fs !! envDTSPath with
             | None => <[envDTSPath := initialEnvDTS]> fs
             | Some _ => fs
             end in
  let content := default EmptyString (fs1 !! envDTSPath) in
  if negb (Contains content envModuleHeader)
  then <[envDTSPath := initialEnvDTS]> fs1
  else fs1.

(** [fmt.Sprintf] of [export const %s], the text both loops search for. *)
Definition exportConst (key : string) : string := "export const " +:+ key.

(** [fmt.Sprintf] of the declaration line, two blanks first. *)
Definition declarationLine (key : string) : string :=
  "  export const " +:+ ToUpper key +:+ ": string;".

(** The index at which [for i, line := range content] meets the first line
    that contains [needle] and breaks. *)
Fixpoint find_line (content : list string) (needle : string) : option nat :=
  match content with
  | [] => None
  | line :: rest =>
      if Contains line needle then Some O
      else S <$> find_line rest needle
  end.

(** The lines [UpdateEnvDTS] writes back for the lines it read; [None] when
    the Go runtime panics, which [content[:len(content)-1]] does on an
    empty slice. *)
Definition update_lines (content : list string) (key : string) (isRemove : bool)
  : option (list string) :=
  if isRemove then
    match find_line content (exportConst key) with
    | Some i => Some (take i content ++ drop (S i) content)
    | None => Some content
    end
  else
    match find_line content (exportConst key) with
    | Some i => Some (<[i := declarationLine key]> content)
    | None =>
        if String.eqb key EmptyString then Some content
        else match content with
             | [] => None
             | _ :: _ =>
                 Some (take (length content - 1) content ++ [declarationLine key; "}"])
             end
    end.

(** [UpdateEnvDTS(envPath, key, value, isRemove)]. *)
Definition UpdateEnvDTS (envPath key value : string) (isRemove : bool) (fs : FS)
  : option FS :=
  let envDTSPath := filepath_Join envPath "env.d.ts" in
  let fs1 := EnsureCorrectEnvDTSStructure envPath fs in
  let content := scanLines (default EmptyString (fs1 !! envDTSPath)) in
  match update_lines content key isRemove with
  | Some content' => Some (<[envDTSPath := Join content' nl]> fs1)
  | None => None
  end.

(** ** [internal/config] *)

(** A value or the message of the error returned in its place. *)
Inductive result (A : Type) : Type :=
  | Ok (a : A)
  | Err (msg : string).
#[global] Arguments Ok {A} a.
#[global] Arguments Err {A} msg.

(** Modelled from the spec: the field [EnvInitialized], which [dotenv.go]
    reads and writes and the struct of [config.go] as shipped does not
    declare ([envInitialized]: boolean flag gating whether store operations
    are permitted).  The other two fields are those of [config.go]. *)
Record ProjectConfig := {
  ProjectType : string;
  CreatedAt : string;
  EnvInitialized : bool
}.

Definition ConfigFileName : string := ".mirorim-cli-config.json".

(** The project directory as the commands see it: its files, and what
    [config.LoadConfig] makes of the configuration file (the decoded value,
    or the error of reading or parsing it). *)
Record World := {
  files : FS;
  config : result ProjectConfig
}.

Definition LoadConfig (projectPath : string) (w : World) : result ProjectConfig :=
  config w.

(** [config.UpdateConfig(projectPath, updateFn)]: what it prints, the error
    if any, and the directory afterwards. *)
Definition UpdateConfig (projectPath : string) (updateFn : ProjectConfig -> ProjectConfig)
    (w : World) : list string * option string * World :=
  match LoadConfig projectPath w with
  | Err msg => ([], Some ("failed to load project config for update: " +:+ msg), w)
  | Ok cfg =>
      (["Project configuration saved to " +:+ filepath_Join projectPath ConfigFileName],
       None,
       {| files := files w; config := Ok (updateFn cfg) |})
  end.

(** [CheckEnvInitialized(projectPath)]. *)
Definition CheckEnvInitialized (projectPath : string) (w : World) : result bool :=
  match LoadConfig projectPath w with
  | Err msg => Err msg
  | Ok cfg => Ok (EnvInitialized cfg)
  end.

(** [MarkEnvInitialized(projectPath)]. *)
Definition MarkEnvInitialized (projectPath : string) (w : World)
  : list string * option string * World :=
  match UpdateConfig projectPath
          (fun cfg => {| ProjectType := ProjectType cfg; CreatedAt := CreatedAt cfg;
                         EnvInitialized := true |}) w with
  | (out, Some msg, w') => (out, Some ("failed to mark env as initialized: " +:+ msg), w')
  | (out, None, w') => (out, None, w')
  end.

(** ** [internal/dotenv]: the Babel configuration *)

(** The class [\s] of Go's [regexp]: tab, line feed, form feed, carriage
    return and blank. *)
Definition regexp_space (c : ascii) : bool :=
  Ascii.eqb c "009" || Ascii.eqb c LF || Ascii.eqb c "012" || Ascii.eqb c CR ||
  Ascii.eqb c " ".

(** The bytes [\s*] takes at the head of [s]: all the white space there. *)
Fixpoint spaces (s : string) : nat :=
  match s with
  | EmptyString => O
  | String c s' => if regexp_space c then S (spaces s') else O
  end.

(** The length of the match, at the head of [s], of the pattern that is the
    literals of [lits] with [\s*] between them.  Both patterns of
    [modifyBabelJSConfig] are of this form, [module\.exports\s*=\s*{] and
    [plugins:\s*\[]; no literal begins with white space, so [\s*] takes all
    the white space there is or the match fails. *)
Fixpoint match_seq (lits : list string) (s : string) : option nat :=
  match lits with
  | [] => Some O
  | lit :: rest =>
      if HasPrefix s lit then
        let s1 := str_drop (String.length lit) s in
        match rest with
        | [] => Some (String.length lit)
        | _ :: _ =>
            let n := spaces s1 in
            (fun m => String.length lit + n + m)%nat <$> match_seq rest (str_drop n s1)
        end
      else None
  end.

(** [Regexp.ReplaceAllString(src, repl)] for such a pattern in one group
    and a template that is [$1] and then [insertion]: the matches are
    looked for from left to right, each is kept and followed by the
    insertion, and the search goes on after the match.  Every step
    consumes a byte, so the length of the string is fuel enough. *)
Fixpoint replace_all (fuel : nat) (lits : list string) (insertion s : string) : string :=
  match fuel with
  | O => s
  | S fuel' =>
      match s with
      | EmptyString => EmptyString
      | String c s' =>
          match match_seq lits s with
          | Some (S n) =>
              str_take (S n) s +:+ insertion
                +:+ replace_all fuel' lits insertion (str_drop (S n) s)
          | _ => String c (replace_all fuel' lits insertion s')
          end
      end
  end.

Definition ReplaceAllString (lits : list string) (insertion src : string) : string :=
  replace_all (String.length src) lits insertion src.

(** The raw string [pluginConfig]. *)
Definition pluginConfig : string :=
  nl +:+ "  ['module:react-native-dotenv', {" +:+ nl +:+
  "    moduleName: '@env'," +:+ nl +:+
  "    blocklist: null," +:+ nl +:+
  "    allowlist: null," +:+ nl +:+
  "    safe: false," +:+ nl +:+
  "    allowUndefined: false," +:+ nl +:+
  "    verbose: false," +:+ nl +:+
  "  }]," +:+ nl.

(** [modifyBabelJSConfig(filePath)]: what is printed, the error if any, and
    the files afterwards.  The error of [os.ReadFile] is that of a file
    that does not exist, with the text it has on Unix. *)
Definition modifyBabelJSConfig (filePath : string) (fs : FS)
  : list string * option string * FS :=
  match fs !! filePath with
  | None =>
      ([], Some ("failed to read " +:+ filePath +:+ ": open " +:+ filePath
                 +:+ ": no such file or directory"), fs)
  | Some content =>
      if Contains content "react-native-dotenv" then
        (["react-native-dotenv plugin already present in " +:+ filePath], None, fs)
      else if negb (Contains content "plugins") then
        ([], None,
         <[filePath := ReplaceAllString ["module.exports"; "="; "{"]
                         (nl +:+ "  plugins: [" +:+ pluginConfig +:+ "],") content]> fs)
      else
        (["Successfully added react-native-dotenv plugin to " +:+ filePath], None,
         <[filePath := ReplaceAllString ["plugins:"; "["] pluginConfig content]> fs)
  end.

(** The values [json.Unmarshal] stores in an [interface{}]: [nil], a
    [bool], a [float64], a [string], a [[]interface{}] or a
    [map[string]interface{}]. *)
#[warnings="-register-all"]
Inductive json : Type :=
  | JNull
  | JBool (b : bool)
  | JNumber (x : spec_float)
  | JString (s : string)
  | JArray (elems : list json)
  | JObject (fields : gmap string json).

(** What lies outside the repository.  [installReactNativeDotenv] runs
    [npm install] and returns its error, if any; what [npm] itself writes,
    [package.json] and [node_modules], is not among the files modelled.
    The other two fields are package [encoding/json] of the Go
    distribution, as [dotenv.go] calls it: [json_Unmarshal content] is
    [json.Unmarshal(content, &m)] for a [map[string]interface{}] that is
    [nil] before the call, the error or the map left in [m], which is still
    [nil] ([None]) when the text is the JSON [null]; [json_MarshalIndent m]
    is [json.MarshalIndent] of [m] with no prefix and an indentation of two
    blanks.  No property proved below depends on what they return. *)
Record External := {
  npm_install : option string;
  json_Unmarshal : string -> result (option (gmap string json));
  json_MarshalIndent : gmap string json -> result string
}.

(** The map literal [dotenvPlugin]. *)
Definition dotenvPlugin : json :=
  JObject (list_to_map
             [("module", JString "react-native-dotenv");
              ("moduleName", JString "@env");
              ("blocklist", JNull);
              ("allowlist", JNull);
              ("safe", JBool false);
              ("allowUndefined", JBool false);
              ("verbose", JBool false)]).

(** [babelConfig["plugins"].([]interface{})], with the empty slice when the
    assertion fails; a [nil] map has no entry. *)
Definition babelrc_plugins (babelConfig : option (gmap string json)) : list json :=
  match babelConfig ≫= (fun m => m !! "plugins") with
  | Some (JArray plugins) => plugins
  | _ => []
  end.

(** The test of the loop over the plugins: the plugin is a string that
    contains [react-native-dotenv]. *)
Definition names_dotenv (plugin : json) : bool :=
  match plugin with
  | JString pluginStr => Contains pluginStr "react-native-dotenv"
  | _ => false
  end.

(** [modifyBabelJSONConfig(filePath)]: what is printed, the error if any,
    and the files afterwards; [None] when the Go runtime panics, which the
    assignment [babelConfig["plugins"] = plugins] does on a [nil] map. *)
Definition modifyBabelJSONConfig (ext : External) (filePath : string) (fs : FS)
  : option (list string * option string * FS) :=
  match fs !! filePath with
  | None =>
      Some ([], Some ("failed to read " +:+ filePath +:+ ": open " +:+ filePath
                      +:+ ": no such file or directory"), fs)
  | Some content =>
      match json_Unmarshal ext content with
      | Err msg =>
          Some ([], Some ("failed to parse JSON in " +:+ filePath +:+ ": " +:+ msg), fs)
      | Ok babelConfig =>
          let plugins := babelrc_plugins babelConfig in
          if existsb names_dotenv plugins then
            Some (["react-native-dotenv plugin already present in " +:+ filePath],
                  None, fs)
          else
            match babelConfig with
            | None => None
            | Some m =>
                match json_MarshalIndent ext
                        (<["plugins" := JArray (plugins ++ [dotenvPlugin])]> m) with
                | Err msg =>
                    Some ([], Some ("failed to serialize updated JSON for " +:+ filePath
                                    +:+ ": " +:+ msg), fs)
                | Ok updatedContent =>
                    Some (["Successfully added react-native-dotenv plugin to "
                             +:+ filePath],
                          None, <[filePath := updatedContent]> fs)
                end
            end
      end
  end.

(** [modifyBabelConfig(projectPath)]: the first of [babel.config.js] and
    [.babelrc] that exists is changed, the one as JavaScript, the other as
    JSON; with neither the function returns its error. *)
Definition modifyBabelConfig (ext : External) (projectPath : string) (fs : FS)
  : option (list string * option string * FS) :=
  match fs !! filepath_Join projectPath "babel.config.js" with
  | Some _ => Some (modifyBabelJSConfig (filepath_Join projectPath "babel.config.js") fs)
  | None =>
      match fs !! filepath_Join projectPath ".babelrc" with
      | Some _ => modifyBabelJSONConfig ext (filepath_Join projectPath ".babelrc") fs
      | None => Some ([], Some "babel config file not found in project root", fs)
      end
  end.

(** [CreateEnvFiles(projectPath, projectType)]: what is printed, the error
    if any, and the directory afterwards; [None] for a panic. *)
Definition CreateEnvFiles (ext : External) (projectPath projectType : string) (w : World)
  : option (list string * option string * World) :=
  let envFilePath := filepath_Join projectPath ".env" in
  let fs1 := match files w !! envFilePath with
             | None => <[envFilePath := EmptyString]> (files w)
             | Some _ => files w
             end in
  let w1 := {| files := fs1; config := config w |} in
  let finish (out : list string) (w2 : World) :=
    match MarkEnvInitialized projectPath w2 with
    | (out', Some msg, w3) => Some (out ++ out', Some msg, w3)
    | (out', None, w3) =>
        Some (out ++ out' ++ ["Environment successfully initialized."], None, w3)
    end in
  if String.eqb projectType "bare" then
    match npm_install ext with
    | Some msg =>
        Some (["Installing react-native-dotenv..."],
              Some ("failed to install react-native-dotenv: " +:+ msg), w1)
    | None =>
        match modifyBabelConfig ext projectPath fs1 with
        | None => None
        | Some (babel_output, Some msg, fs2) =>
            Some ("Installing react-native-dotenv..." :: babel_output, Some msg,
                  {| files := fs2; config := config w |})
        | Some (babel_output, None, fs2) =>
            let out := "Installing react-native-dotenv..." :: babel_output in
            match UpdateEnvDTS projectPath EmptyString EmptyString false fs2 with
            | None => None
            | Some fs3 => finish out {| files := fs3; config := config w |}
            end
        end
    end
  else finish [] w1.


(** ** The command layer: [env init], [env add], [env update], [env remove] *)

(** A command run to its end: the lines it printed and the directory it
    left.  A command returns [None] when the Go runtime panics.  The
    directory is the one [os.Getwd] names; what the user answers to the
    prompts of [internal/ui] is an argument. *)
Abbreviation Run := (option (list string * World)).

Definition notInitialized : string :=
  "Environment is not initialized. Run 'env init' first.".

(** [envInitCmd.Run]. *)
Definition envInitCmd (ext : External) (projectPath : string) (w : World) : Run :=
  match LoadConfig projectPath w with
  | Err msg => Some (["Error loading project config: " +:+ msg], w)
  | Ok projectConfig =>
      match CheckEnvInitialized projectPath w with
      | Err msg => Some (["Error checking env initialization: " +:+ msg], w)
      | Ok true => Some (["Environment has already been initialized."], w)
      | Ok false =>
          match CreateEnvFiles ext projectPath (ProjectType projectConfig) w with
          | None => None
          | Some (out, Some msg, w') =>
              Some (out ++ ["Error initializing environment configuration: " +:+ msg], w')
          | Some (out, None, w') => Some (out, w')
          end
      end
  end.

(** [envAddCmd.Run]; [prompt] is what [ui.PromptEnvKeyValue] returns. *)
Definition envAddCmd (prompt : result (string * string)) (order : MapOrder)
    (projectPath : string) (w : World) : Run :=
  match CheckEnvInitialized projectPath w with
  | Err msg => Some (["Error checking env initialization: " +:+ msg], w)
  | Ok false => Some ([notInitialized], w)
  | Ok true =>
      match LoadConfig projectPath w with
      | Err msg => Some (["Error loading project config: " +:+ msg], w)
      | Ok projectConfig =>
          match prompt with
          | Err msg => Some (["Error: " +:+ msg], w)
          | Ok (key, value) =>
              let key := if String.eqb (ProjectType projectConfig) "expo"
                         then EnsureExpoPrefix key else key in
              let envFilePath := filepath_Join projectPath ".env" in
              let '(envFile, fs1) := LoadEnvFile envFilePath (files w) in
              let envFile := AddOrUpdateKey envFile key value in
              if String.eqb (ProjectType projectConfig) "bare" then
                match UpdateEnvDTS projectPath key value false fs1 with
                | None => None
                | Some fs2 =>
                    Some (["Environment variable added successfully."],
                          {| files := SaveEnvFile order envFile fs2; config := config w |})
                end
              else
                Some (["Environment variable added successfully."],
                      {| files := SaveEnvFile order envFile fs1; config := config w |})
          end
      end
  end.

(** [envUpdateCmd.Run]; [select] is what [ui.PromptSelectKey] returns for
    the keys it is shown, [newValue] what [ui.PromptNewValue] returns, and
    [listOrder] the order in which [ListKeys] walks the store. *)
Definition envUpdateCmd (select : list string -> result string)
    (newValue : result string) (listOrder order : MapOrder)
    (projectPath : string) (w : World) : Run :=
  match CheckEnvInitialized projectPath w with
  | Err msg => Some (["Error checking env initialization: " +:+ msg], w)
  | Ok false => Some ([notInitialized], w)
  | Ok true =>
      match LoadConfig projectPath w with
      | Err msg => Some (["Error loading project config: " +:+ msg], w)
      | Ok projectConfig =>
          let envFilePath := filepath_Join projectPath ".env" in
          let '(envFile, fs1) := LoadEnvFile envFilePath (files w) in
          let w1 := {| files := fs1; config := config w |} in
          let existingKeys := ListKeys listOrder envFile in
          match existingKeys with
          | [] => Some (["No environment variables found to update."], w1)
          | _ :: _ =>
              match select existingKeys with
              | Err msg => Some (["Error: " +:+ msg], w1)
              | Ok key =>
                  match newValue with
                  | Err msg => Some (["Error: " +:+ msg], w1)
                  | Ok value =>
                      let key := if String.eqb (ProjectType projectConfig) "expo"
                                 then EnsureExpoPrefix key else key in
                      let envFile := AddOrUpdateKey envFile key value in
                      if String.eqb (ProjectType projectConfig) "bare" then
                        match UpdateEnvDTS projectPath key value false fs1 with
                        | None => None
                        | Some fs2 =>
                            Some (["Environment variable updated successfully."],
                                  {| files := SaveEnvFile order envFile fs2; config := config w |})
                        end
                      else
                        Some (["Environment variable updated successfully."],
                              {| files := SaveEnvFile order envFile fs1; config := config w |})
                  end
              end
          end
      end
  end.

(** [envRemoveCmd.Run]. *)
Definition envRemoveCmd (select : list string -> result string)
    (listOrder order : MapOrder) (projectPath : string) (w : World) : Run :=
  match CheckEnvInitialized projectPath w with
  | Err msg => Some (["Error checking env initialization: " +:+ msg], w)
  | Ok false => Some ([notInitialized], w)
  | Ok true =>
      match LoadConfig projectPath w with
      | Err msg => Some (["Error loading project config: " +:+ msg], w)
      | Ok projectConfig =>
          let envFilePath := filepath_Join projectPath ".env" in
          let '(envFile, fs1) := LoadEnvFile envFilePath (files w) in
          let w1 := {| files := fs1; config := config w |} in
          let existingKeys := ListKeys listOrder envFile in
          match existingKeys with
          | [] => Some (["No environment variables found to remove."], w1)
          | _ :: _ =>
              match select existingKeys with
              | Err msg => Some (["Error: " +:+ msg], w1)
              | Ok key =>
                  let key := if String.eqb (ProjectType projectConfig) "expo"
                             then EnsureExpoPrefix key else key in
                  let envFile := RemoveKey envFile key in
                  if String.eqb (ProjectType projectConfig) "bare" then
                    match UpdateEnvDTS projectPath key EmptyString true fs1 with
                    | None => None
                    | Some fs2 =>
                        Some (["Environment variable removed successfully."],
                              {| files := SaveEnvFile order envFile fs2; config := config w |})
                    end
                  else
                    Some (["Environment variable removed successfully."],
                          {| files := SaveEnvFile order envFile fs1; config := config w |})
              end
          end
      end
  end.


(** ** [internal/dotenv] and the command layer: [env destroy] *)

(** [DeleteFile(filePath)]: nothing happens when the file does not exist;
    else it is removed and a line is printed.  Returns what is printed and
    the files afterwards. *)
Definition DeleteFile (filePath : string) (fs : FS) : list string * FS :=
  match fs !! filePath with
  | None => ([], fs)
  | Some _ => (["Deleted file: " +:+ filePath], delete filePath fs)
  end.

(** [DestroyEnvFiles(projectPath, projectType)]: what is printed, the error
    if any, and the directory afterwards. *)
Definition DestroyEnvFiles (projectPath projectType : string) (w : World)
  : list string * option string * World :=
  let envFilePath := filepath_Join projectPath ".env" in
  let '(out1, fs1) := DeleteFile envFilePath (files w) in
  let '(out2, fs2) :=
    if String.eqb projectType "bare"
    then DeleteFile (filepath_Join projectPath "env.d.ts") fs1
    else ([], fs1) in
  match UpdateConfig projectPath
          (fun cfg => {| ProjectType := ProjectType cfg; CreatedAt := CreatedAt cfg;
                         EnvInitialized := false |})
          {| files := fs2; config := config w |} with
  | (out3, Some msg, w') =>
      (out1 ++ out2 ++ out3, Some ("failed to update project config: " +:+ msg), w')
  | (out3, None, w') =>
      (out1 ++ out2 ++ out3 ++ ["Environment configuration destroyed successfully."],
       None, w')
  end.

(** [envDestroyCmd.Run]. *)
Definition envDestroyCmd (projectPath : string) (w : World) : Run :=
  match LoadConfig projectPath w with
  | Err msg => Some (["Error loading project config: " +:+ msg], w)
  | Ok projectConfig =>
      if negb (EnvInitialized projectConfig)
      then Some (["Environment has not been initialized."], w)
      else match DestroyEnvFiles projectPath (ProjectType projectConfig) w with
           | (out, Some msg, w') =>
               Some (out ++ ["Error destroying environment configuration: " +:+ msg], w')
           | (out, None, w') => Some (out, w')
           end
  end.

(** ** Package [cmd]: the names of hooks *)

(** [unicode.ToTitle], [unicode.IsLetter] and [unicode.IsDigit] for the
    runes above ASCII: tables of the Go distribution, as the case table
    above. *)
Variable To_TitleCase : Z -> Z.
Variable Is_Letter : Z -> bool.
Variable Is_Digit : Z -> bool.

(** [unicode.ToTitle]. *)
Definition unicode_ToTitle (r : Z) : Z :=
  if r <=? 0x7F then
    if (0x61 <=? r) && (r <=? 0x7A) then r - 0x20 else r
  else To_TitleCase r.

(** [isSeparator] of package [strings]: ASCII letters, digits and the
    underscore are not separators, the other ASCII runes are; above ASCII
    letters and digits are not, and of the rest the spaces are. *)
Definition isSeparator (r : Z) : bool :=
  if r <=? 0x7F then
    if (0x30 <=? r) && (r <=? 0x39) then false
    else if (0x61 <=? r) && (r <=? 0x7A) then false
    else if (0x41 <=? r) && (r <=? 0x5A) then false
    else if r =? 0x5F then false
    else true
  else if Is_Letter r || Is_Digit r then false
  else IsSpace r.

(** [strings.Title(s)]: [Map] with a closure that remembers the rune
    before, a blank at first, and gives a rune its title case when the
    rune before is a separator. *)
Fixpoint title_runes (fuel : nat) (prev : Z) (s : string) : string :=
  match fuel with
  | O => EmptyString
  | S fuel' =>
      match s with
      | EmptyString => EmptyString
      | String _ _ =>
          let '(c, w) := DecodeRuneInString s in
          let r := if isSeparator prev then unicode_ToTitle c else c in
          (if r <? 0 then EmptyString else EncodeRune r)
            +:+ title_runes fuel' c (str_drop w s)
      end
  end.

Definition Title (s : string) : string := title_runes (String.length s) 0x20 s.

(** [ensureUsePrefix]. *)
Definition ensureUsePrefix (hookName : string) : string :=
  if negb (HasPrefix hookName "use") then "use" +:+ Title hookName else hookName.

(** [toUpperCamelCase]. *)
Definition toUpperCamelCase (s : string) : string := Title s.

(** ** Notions the properties are stated with *)

(** The byte [c] occurs in [s]. *)
Fixpoint has_byte (c : ascii) (s : string) : bool :=
  match s with
  | EmptyString => false
  | String a s' => Ascii.eqb a c || has_byte c s'
  end.

(** A key the primary file can hold: not empty, no line feed, no leading
    comment marker, no equals sign. *)
Definition valid_key (key : string) : bool :=
  negb (String.eqb key EmptyString) && negb (has_byte LF key) &&
  negb (HasPrefix key "#") && negb (has_byte "="%char key).

(** A value the primary file can hold: no line feed. *)
Definition valid_value (value : string) : bool := negb (has_byte LF value).

(** The line fits the buffer of the scanner. *)
Definition fits_scanner (line : string) : Prop :=
  (strlen line < MaxScanTokenSize)%N.

(** A line that the scanner delivers as it was written: no line feed in
    it, short enough for the buffer, no carriage return at its end. *)
Definition plain_line (line : string) : Prop :=
  has_byte LF line = false /\ fits_scanner line /\ str_last line <> Some CR.

(** The line declares [key] with [value], as [LoadEnvFile] reads it: it is
    not blank, does not begin with the comment marker, and splits at its
    first equals sign into two parts that trim to [key] and [value]. *)
Definition line_entry (line key value : string) : Prop :=
  line <> EmptyString /\ HasPrefix line "#" = false /\
  exists before after,
    line = before +:+ "=" +:+ after /\ has_byte "="%char before = false /\
    key = TrimSpace before /\ value = TrimSpace after.

(** No line of [lines] declares [key]. *)
Definition undeclared (key : string) (lines : list string) : Prop :=
  Forall (fun line => forall value, ~ line_entry line key value) lines.

(** [value] is what the last line of [lines] that declares [key] gives it. *)
Definition last_entry (lines : list string) (key value : string) : Prop :=
  exists before line after,
    lines = before ++ line :: after /\ line_entry line key value /\
    undeclared key after.

(** The entry [LoadEnvFile] takes from a line, if it takes one. *)
Definition entry_of_line (line : string) : option (string * string) :=
  if HasPrefix line "#" || String.eqb line EmptyString then None
  else match cut_at "="%char line with
       | Some (before, after) => Some (TrimSpace before, TrimSpace after)
       | None => None
       end.

(** A declaration line of the mirror. *)
Definition declaration (line : string) : Prop :=
  exists name, has_byte LF name = false /\
    line = "  export const " +:+ name +:+ ": string;".

(** The lines of a well-formed wrapper block: the opening line, declaration
    lines, the closing brace. *)
Definition well_formed (content : list string) : Prop :=
  exists body, content = envModuleHeader :: body ++ ["}"] /\ Forall declaration body.

(** A declaration file is well formed when the lines the program reads
    from it are those of a well-formed block and the file is these lines
    joined by line feeds, with or without a line feed after the last. *)
Definition well_formed_file (text : string) : Prop :=
  well_formed (scanLines text) /\
  (text = Join (scanLines text) nl \/ text = Join (scanLines text) nl +:+ nl).

(** An entry that survives being written and read back: key and value are
    valid, neither carries white space at its ends, and the line fits the
    buffer of the scanner. *)
Definition storable (key value : string) : Prop :=
  valid_key key = true /\ valid_value value = true /\
  TrimSpace key = key /\ TrimSpace value = value /\
  fits_scanner (key +:+ "=" +:+ value).

(** What an upsert or a remove makes of the body of a well-formed block:
    the first line that contains [export const] and the key is replaced or
    deleted; when there is none, an upsert of a key that is not empty adds
    its declaration at the end. *)
Definition edited_body (body : list string) (key : string) (isRemove : bool)
  : list string :=
  match find_line body (exportConst key) with
  | Some j => if isRemove then delete j body else <[j := declarationLine key]> body
  | None =>
      if isRemove || String.eqb key EmptyString then body
      else body ++ [declarationLine key]
  end.

(** The first line of a text: what stands before its first line feed. *)
Definition first_line (text : string) : string :=
  match cut_at LF text with
  | Some (line, _) => line
  | None => text
  end.

(** The key under which a command files what the user typed or chose:
    in an Expo project the key with its prefix. *)
Definition command_key (projectType key : string) : string :=
  if String.eqb projectType "expo" then EnsureExpoPrefix key else key.

(** The store a command loads from the primary file of the project. *)
Definition loaded_store (projectPath : string) (fs : FS) : gmap string string :=
  Variables (LoadEnvFile (filepath_Join projectPath ".env") fs).1.

(** The mirror, when there is one, begins with a line that fits the buffer
    of the scanner. *)
Definition mirror_readable (projectPath : string) (fs : FS) : Prop :=
  forall text, fs !! filepath_Join projectPath "env.d.ts" = Some text ->
               fits_scanner (first_line text).

(** The configuration with the flag set to [flag]. *)
Definition with_flag (cfg : ProjectConfig) (flag : bool) : ProjectConfig :=
  {| ProjectType := ProjectType cfg; CreatedAt := CreatedAt cfg;
     EnvInitialized := flag |}.

(** The pattern [modifyBabelJSConfig] applies to a file: the one for the
    [plugins] array when the file holds the word [plugins], else the one
    for [module.exports]. *)
Definition pattern_in_force (content : string) : list string :=
  if Contains content "plugins" then ["plugins:"; "["] else ["module.exports"; "="; "{"].

(** The ways in which [modifyBabelConfig] returns an error, with the text
    of the error: neither file is there; or there is no [babel.config.js]
    and [encoding/json] cannot read the [.babelrc], or cannot write the
    map with the plugin added. *)
Definition babel_failure (ext : External) (projectPath : string) (fs : FS)
    (reason : string) : Prop :=
  fs !! filepath_Join projectPath "babel.config.js" = None /\
  ((fs !! filepath_Join projectPath ".babelrc" = None /\
    reason = "babel config file not found in project root") \/
   exists content,
     fs !! filepath_Join projectPath ".babelrc" = Some content /\
     ((exists msg,
          json_Unmarshal ext content = Err msg /\
          reason = "failed to parse JSON in " +:+ filepath_Join projectPath ".babelrc"
                     +:+ ": " +:+ msg) \/
      (exists m msg,
          json_Unmarshal ext content = Ok (Some m) /\
          existsb names_dotenv (babelrc_plugins (Some m)) = false /\
          json_MarshalIndent ext
            (<["plugins" := JArray (babelrc_plugins (Some m) ++ [dotenvPlugin])]> m)
          = Err msg /\
          reason = "failed to serialize updated JSON for "
                     +:+ filepath_Join projectPath ".babelrc" +:+ ": " +:+ msg))).

(** The pattern matches somewhere in [s]. *)
Definition matches_somewhere (lits : list string) (s : string) : Prop :=
  exists i n, match_seq lits (str_drop i s) = Some (S n).

(** A byte that is an ASCII letter, a digit or the underscore. *)
Definition word_byte (c : ascii) : bool :=
  let r := byte_val c in
  ((0x30 <=? r) && (r <=? 0x39)) || ((0x61 <=? r) && (r <=? 0x7A)) ||
  ((0x41 <=? r) && (r <=? 0x5A)) || (r =? 0x5F).

(** A string of such bytes. *)
Fixpoint word (s : string) : bool :=
  match s with
  | EmptyString => true
  | String c s' => word_byte c && word s'
  end.

(** The upper-case letter of an ASCII lower-case letter; any other byte as
    it is. *)
Definition capital (c : ascii) : ascii :=
  let r := byte_val c in
  if (0x61 <=? r) && (r <=? 0x7A) then byte_of (r - 0x20) else c.

(** ** Inputs for the examples *)

(** A mirror that declares [API_URL], in the form the program writes. *)
Definition example_mirror : string :=
  Join [envModuleHeader; "  export const API_URL: string;"; "}"] nl.

Definition example_files : FS := {[ "/app/env.d.ts" := example_mirror ]}.

(** The two files as [env init] leaves them in a bare project. *)
Definition fresh_files : FS :=
  {[ "/app/.env" := EmptyString; "/app/env.d.ts" := envModuleHeader +:+ nl +:+ "}" ]}.

(** The two files of a bare project with one entry. *)
Definition example_project : FS :=
  {[ "/app/.env" := "API_URL=http://x" +:+ nl; "/app/env.d.ts" := example_mirror ]}.

(** The primary file of an Expo project with an entry written by hand. *)
Definition expo_files : FS := {[ "/app/.env" := "FOO=1" +:+ nl ]}.

(** Stand-ins for the two functions of [encoding/json]: the examples have
    no [.babelrc] and never consult them. *)
Definition no_json_Unmarshal (content : string) : result (option (gmap string json)) :=
  Err "not consulted".

Definition no_json_MarshalIndent (m : gmap string json) : result string :=
  Err "not consulted".

(** The world outside with the given outcome of [npm install]. *)
Definition example_external (npm : option string) : External :=
  {| npm_install := npm; json_Unmarshal := no_json_Unmarshal;
     json_MarshalIndent := no_json_MarshalIndent |}.

(** A Babel configuration as the template of React Native ships it. *)
Definition example_babel : string :=
  "module.exports = {" +:+ nl +:+
  "  presets: ['module:metro-react-native-babel-preset']," +:+ nl +:+
  "};" +:+ nl.

(** A bare project before [env init], and one that has a mirror already. *)
Definition template_files : FS :=
  {[ "/app/package.json" := "{}" +:+ nl; "/app/babel.config.js" := example_babel ]}.

Definition template_files_with_mirror : FS :=
  {[ "/app/package.json" := "{}" +:+ nl; "/app/babel.config.js" := example_babel;
     "/app/env.d.ts" := example_mirror ]}.

Definition example_config (projectType : string) (initialized : bool) : ProjectConfig :=
  {| ProjectType := projectType; CreatedAt := "2024-01-01T00:00:00Z";
     EnvInitialized := initialized |}.

(** * Properties *)

(** ** The library functions on small inputs *)

Example TrimSpace_blanks : TrimSpace "  a b  " = "a b".
Proof. reflexivity. Qed.

(** A tab and a no-break space (U+00A0, two bytes) before, an en quad
    (U+2000, three bytes) and a carriage return after. *)
Example TrimSpace_unicode :
  TrimSpace (String "009" (String "194" (String "160"
               ("x" +:+ String "226" (String "128" (String "128" (String CR "")))))))
  = "x".
Proof. vm_compute. reflexivity. Qed.

(** A lone continuation byte is no white space. *)
Example TrimSpace_invalid_byte : TrimSpace (String "160" "x") = String "160" "x".
Proof. vm_compute. reflexivity. Qed.

Example ToUpper_ascii : ToUpper "api_url-9" = "API_URL-9".
Proof. reflexivity. Qed.

Example SplitN2_first_separator : SplitN2 "a=b=c" "=" = ["a"; "b=c"].
Proof. reflexivity. Qed.

Example SplitN2_no_separator : SplitN2 "abc" "=" = ["abc"].
Proof. reflexivity. Qed.

(** Line ends of both kinds, an empty line, and a last line without line
    feed. *)
Example scanLines_lines :
  scanLines ("a=1" +:+ String CR nl +:+ nl +:+ "b") = ["a=1"; ""; "b"].
Proof. reflexivity. Qed.

Example scanLines_initialEnvDTS : scanLines initialEnvDTS = [envModuleHeader; "}"].
Proof. reflexivity. Qed.

(** ** Strings *)

Lemma str_app_cons (c : ascii) (a b : string) : String c a +:+ b = String c (a +:+ b).
Proof. reflexivity. Qed.

Lemma str_app_nil_l (b : string) : EmptyString +:+ b = b.
Proof. reflexivity. Qed.

(** Appends are not unfolded by [simpl]; this does it. *)
Ltac sapp := rewrite ?str_app_cons, ?str_app_nil_l.

Lemma append_nil_r (s : string) : s +:+ EmptyString = s.
Proof. induction s as [|c s IH]; sapp; [reflexivity | now rewrite IH]. Qed.

Lemma append_assoc (a b c : string) : (a +:+ b) +:+ c = a +:+ b +:+ c.
Proof. induction a as [|x a IH]; sapp; [reflexivity | now rewrite IH]. Qed.

Lemma length_append (a b : string) :
  String.length (a +:+ b) = (String.length a + String.length b)%nat.
Proof. induction a as [|x a IH]; sapp; simpl; [reflexivity | now rewrite IH]. Qed.

Lemma append_snoc (a : string) (c : ascii) (b : string) :
  (a +:+ String c EmptyString) +:+ b = a +:+ String c b.
Proof. now rewrite append_assoc. Qed.

Lemma has_byte_append (c : ascii) (a b : string) :
  has_byte c (a +:+ b) = has_byte c a || has_byte c b.
Proof.
  induction a as [|x a IH]; sapp; simpl; [reflexivity|].
  now rewrite IH, orb_assoc.
Qed.

Lemma str_last_append (a b : string) :
  b <> EmptyString -> str_last (a +:+ b) = str_last b.
Proof.
  intros Hb. induction a as [|x a IH]; sapp; [reflexivity|].
  simpl. rewrite IH. destruct a; sapp; [|reflexivity].
  destruct b; [contradiction | reflexivity].
Qed.

Lemma str_last_snoc (s : string) (c : ascii) :
  str_last (s +:+ String c EmptyString) = Some c.
Proof. now rewrite str_last_append. Qed.

Lemma str_take_length (n : nat) (s : string) :
  (String.length (str_take n s) <= String.length s)%nat /\
  (String.length (str_take n s) <= n)%nat.
Proof.
  revert s; induction n as [|n IH]; intros [|c s]; simpl; try lia.
  specialize (IH s). lia.
Qed.

Lemma str_drop_length (n : nat) (s : string) :
  String.length (str_drop n s) = (String.length s - n)%nat.
Proof.
  revert s; induction n as [|n IH]; intros [|c s]; simpl; try lia. apply IH.
Qed.

Lemma str_drop_same_length (n : nat) (s : string) :
  String.length (str_drop n s) = String.length s -> str_drop n s = s.
Proof.
  rewrite str_drop_length. destruct n; [reflexivity|].
  destruct s; simpl; [reflexivity | lia].
Qed.

Lemma HasPrefix_append (p s : string) : HasPrefix (p +:+ s) p = true.
Proof.
  induction p as [|c p IH]; sapp; simpl; [now destruct s|].
  now rewrite Ascii.eqb_refl, IH.
Qed.

Lemma Contains_prefix (s p : string) : HasPrefix s p = true -> Contains s p = true.
Proof. intros H. destruct s; simpl in *; now rewrite H. Qed.

Lemma Contains_append_l (a s sub : string) :
  Contains s sub = true -> Contains (a +:+ s) sub = true.
Proof.
  intros H. induction a as [|c a IH]; sapp; simpl; [exact H|].
  rewrite IH. apply orb_true_r.
Qed.


Lemma str_drop_drop (n m : nat) (s : string) :
  str_drop n (str_drop m s) = str_drop (m + n) s.
Proof.
  revert s; induction m as [|m IH]; intros s; simpl; [reflexivity|].
  destruct s; [now destruct n | apply IH].
Qed.

Lemma str_take_snoc (s : string) (c : ascii) :
  str_take (String.length (s +:+ String c EmptyString) - 1) (s +:+ String c EmptyString) = s.
Proof.
  rewrite length_append; simpl.
  replace (String.length s + 1 - 1)%nat with (String.length s) by lia.
  induction s as [|x s IH]; sapp; simpl; [reflexivity | now rewrite IH].
Qed.

(** ** White-space trimming *)

Lemma trim_left_is_drop (fuel : nat) (s : string) :
  exists n, trim_left fuel s = str_drop n s.
Proof.
  revert s; induction fuel as [|fuel IH]; intros s; simpl.
  - now exists 0%nat.
  - destruct s as [|c s]; [now exists 0%nat|].
    destruct (DecodeRuneInString (String c s)) as [r w].
    destruct (IsSpace r); [|now exists 0%nat].
    destruct (IH (str_drop w (String c s))) as [n Hn].
    exists (w + n)%nat. now rewrite Hn, str_drop_drop.
Qed.

Lemma trim_right_length (fuel : nat) (s : string) :
  (String.length (trim_right fuel s) <= String.length s)%nat.
Proof.
  revert s; induction fuel as [|fuel IH]; intros s; simpl; [lia|].
  destruct s as [|c s]; [simpl; lia|].
  destruct (DecodeLastRuneInString (String c s)) as [r w].
  destruct (IsSpace r); [|lia].
  etransitivity; [apply IH|]. apply str_take_length.
Qed.

Lemma DecodeLastRune_ascii (s : string) (c : ascii) :
  (byte_val c <? RuneSelf) = true ->
  DecodeLastRuneInString (s +:+ String c EmptyString) = (byte_val c, 1%nat).
Proof.
  intros Hc. unfold DecodeLastRuneInString. now rewrite str_last_snoc, Hc.
Qed.

Lemma trim_right_snoc_space (fuel : nat) (t : string) (c : ascii) :
  (byte_val c <? RuneSelf) = true -> IsSpace (byte_val c) = true ->
  trim_right (S fuel) (t +:+ String c EmptyString) = trim_right fuel t.
Proof.
  intros Hc Hsp. simpl.
  destruct (t +:+ String c EmptyString) as [|x u] eqn:E; [destruct t; discriminate|].
  rewrite <- E, DecodeLastRune_ascii, Hsp by exact Hc.
  now rewrite str_take_snoc.
Qed.

(** A string that [TrimSpace] leaves as it is does not end in a carriage
    return. *)
Lemma TrimSpace_fixed_no_CR (s : string) :
  TrimSpace s = s -> str_last s <> Some CR.
Proof.
  unfold TrimSpace. intros Hfix Hlast.
  destruct (trim_left_is_drop (String.length s) s) as [n Hn].
  pose proof (trim_right_length (String.length (trim_left (String.length s) s))
                (trim_left (String.length s) s)) as Hlen.
  rewrite Hfix in Hlen.
  assert (Hleft : trim_left (String.length s) s = s).
  { rewrite Hn. apply str_drop_same_length.
    rewrite Hn in Hlen. rewrite str_drop_length in *. lia. }
  rewrite Hleft in Hfix.
  assert (Hs : exists t, s = t +:+ String CR EmptyString).
  { clear -Hlast. induction s as [|x s IH]; [discriminate|].
    destruct s as [|y s].
    - exists EmptyString. simpl in Hlast. now inversion Hlast.
    - destruct IH as [t Ht]; [exact Hlast|]. exists (String x t). sapp. now rewrite <- Ht. }
  destruct Hs as [t ->].
  rewrite length_append in Hfix. simpl in Hfix.
  replace (String.length t + 1)%nat with (S (String.length t)) in Hfix by lia.
  rewrite trim_right_snoc_space in Hfix by reflexivity.
  pose proof (trim_right_length (String.length t) t) as H1.
  rewrite Hfix, length_append in H1. simpl in H1. lia.
Qed.

(** ** The scanner *)

Lemma dropCR_id (s : string) : str_last s <> Some CR -> dropCR s = s.
Proof.
  intros H. unfold dropCR. destruct (str_last s) as [c|]; [|reflexivity].
  destruct (Ascii.eqb_spec c CR) as [->|]; [contradiction | reflexivity].
Qed.

Lemma scan_from_cons (c : ascii) (rest cur : string) :
  scan_from (String c rest) cur =
  if Ascii.eqb c LF then dropCR cur :: scan_from rest EmptyString
  else if (MaxScanTokenSize <=? strlen cur + 1)%N then []
  else scan_from rest (cur +:+ String c EmptyString).
Proof. reflexivity. Qed.

(** A line that fits the buffer is delivered when its line feed is met. *)
Lemma scan_from_line (l rest cur : string) :
  has_byte LF l = false -> fits_scanner (cur +:+ l) ->
  scan_from (l +:+ String LF rest) cur = dropCR (cur +:+ l) :: scan_from rest EmptyString.
Proof.
  revert cur; induction l as [|c l IH]; intros cur Hlf Hfit; sapp.
  - rewrite scan_from_cons. change (Ascii.eqb LF LF) with true. cbv iota.
    now rewrite append_nil_r.
  - simpl in Hlf. apply orb_false_iff in Hlf as [Hc Hl].
    rewrite scan_from_cons, Hc.
    assert (Hroom : (MaxScanTokenSize <=? strlen cur + 1)%N = false).
    { apply N.leb_gt. unfold fits_scanner, strlen in *.
      rewrite length_append in Hfit. simpl in Hfit. lia. }
    rewrite Hroom. rewrite IH; [now rewrite append_snoc | exact Hl |].
    now rewrite append_snoc.
Qed.

(** The last line, with no line feed after it, is delivered when it is not
    empty. *)
Lemma scan_from_end (l cur : string) :
  has_byte LF l = false -> fits_scanner (cur +:+ l) -> cur +:+ l <> EmptyString ->
  scan_from l cur = [dropCR (cur +:+ l)].
Proof.
  revert cur; induction l as [|c l IH]; intros cur Hlf Hfit Hne.
  - rewrite append_nil_r in *. destruct cur; [contradiction | reflexivity].
  - simpl in Hlf. apply orb_false_iff in Hlf as [Hc Hl].
    rewrite scan_from_cons, Hc.
    assert (Hroom : (MaxScanTokenSize <=? strlen cur + 1)%N = false).
    { apply N.leb_gt. unfold fits_scanner, strlen in *.
      rewrite length_append in Hfit. simpl in Hfit. lia. }
    rewrite Hroom. rewrite IH.
    + now rewrite append_snoc.
    + exact Hl.
    + now rewrite append_snoc.
    + rewrite append_snoc. destruct cur; discriminate.
Qed.


(** ** The primary file: what is saved is what is loaded *)

Lemma cut_at_first (sep : ascii) (before after : string) :
  has_byte sep before = false ->
  cut_at sep (before +:+ String sep after) = Some (before, after).
Proof.
  induction before as [|c b IH]; intros H; sapp; simpl.
  - now rewrite Ascii.eqb_refl.
  - simpl in H. apply orb_false_iff in H as [Hc Hb].
    now rewrite Hc, IH.
Qed.

Lemma HasPrefix_hash_append (key rest : string) :
  key <> EmptyString -> HasPrefix (key +:+ rest) "#" = HasPrefix key "#".
Proof.
  destruct key as [|c key]; [contradiction|]. intros _. sapp. simpl.
  now destruct (key +:+ rest), key.
Qed.

Lemma load_line_storable (vars : gmap string string) (key value : string) :
  storable key value ->
  load_line vars (key +:+ "=" +:+ value) = <[key := value]> vars.
Proof.
  intros (Hk & _ & Htk & Htv & _). unfold valid_key in Hk.
  repeat (apply andb_true_iff in Hk as [Hk ?]).
  apply negb_true_iff in Hk. apply String.eqb_neq in Hk.
  unfold load_line.
  rewrite HasPrefix_hash_append by exact Hk.
  destruct (HasPrefix key "#"); [discriminate|].
  assert (Hne : ((key +:+ "=" +:+ value) =? EmptyString)%string = false).
  { apply String.eqb_neq. destruct key; [contradiction | discriminate]. }
  rewrite Hne. simpl. unfold SplitN2.
  change (key +:+ "=" +:+ value) with (key +:+ String "="%char value).
  rewrite cut_at_first by now apply negb_true_iff.
  now rewrite Htk, Htv.
Qed.

Lemma entry_line_scans (key value : string) :
  storable key value ->
  has_byte LF (key +:+ "=" +:+ value) = false /\
  dropCR (key +:+ "=" +:+ value) = key +:+ "=" +:+ value.
Proof.
  intros (Hk & Hv & _ & Htv & _). unfold valid_key in Hk.
  repeat (apply andb_true_iff in Hk as [Hk ?]).
  split.
  - rewrite !has_byte_append.
    repeat match goal with H : negb _ = true |- _ => apply negb_true_iff in H end.
    unfold valid_value in Hv. apply negb_true_iff in Hv.
    now repeat match goal with H : has_byte LF _ = false |- _ => rewrite H end.
  - apply dropCR_id. rewrite <- append_assoc.
    destruct value as [|c v].
    + rewrite append_nil_r, str_last_snoc. discriminate.
    + rewrite str_last_append by discriminate. now apply TrimSpace_fixed_no_CR.
Qed.

Lemma scan_write_entries (kvs : list (string * string)) :
  Forall (fun kv => storable kv.1 kv.2) kvs ->
  scanLines (write_entries kvs) = map (fun kv => kv.1 +:+ "=" +:+ kv.2) kvs.
Proof.
  unfold scanLines. induction 1 as [|[k v] kvs Hkv _ IH]; [reflexivity|].
  simpl. destruct (entry_line_scans k v Hkv) as [Hlf Hcr].
  replace (k +:+ "=" +:+ v +:+ nl +:+ write_entries kvs)
    with ((k +:+ "=" +:+ v) +:+ String LF (write_entries kvs))
    by now rewrite !append_assoc.
  rewrite scan_from_line; [|exact Hlf | rewrite str_app_nil_l; apply Hkv].
  rewrite str_app_nil_l. now rewrite Hcr, IH.
Qed.

Lemma fold_load_entries (kvs : list (string * string)) (vars : gmap string string) :
  Forall (fun kv => storable kv.1 kv.2) kvs ->
  fold_left load_line (map (fun kv => kv.1 +:+ "=" +:+ kv.2) kvs) vars =
  fold_left (fun m kv => <[kv.1 := kv.2]> m) kvs vars.
Proof.
  intros H; revert vars; induction H as [|[k v] kvs Hkv _ IH]; intros vars;
    [reflexivity|].
  simpl. now rewrite load_line_storable, IH.
Qed.

Lemma fold_insert_fresh (kvs : list (string * string)) (vars : gmap string string)
    (k : string) :
  k ∉ kvs.*1 ->
  fold_left (fun m kv => <[kv.1 := kv.2]> m) kvs vars !! k = vars !! k.
Proof.
  revert vars; induction kvs as [|[k' v'] kvs IH]; intros vars Hk; [reflexivity|].
  simpl in *. apply not_elem_of_cons in Hk as [Hne Hk].
  rewrite IH by exact Hk. now rewrite lookup_insert_ne.
Qed.

Lemma fold_insert_member (kvs : list (string * string)) (vars : gmap string string)
    (k v : string) :
  NoDup kvs.*1 -> (k, v) ∈ kvs ->
  fold_left (fun m kv => <[kv.1 := kv.2]> m) kvs vars !! k = Some v.
Proof.
  revert vars; induction kvs as [|[k' v'] kvs IH]; intros vars Hnd Hin.
  - now apply elem_of_nil in Hin.
  - simpl in *. apply NoDup_cons in Hnd as [Hfresh Hnd].
    apply elem_of_cons in Hin as [Heq|Hin].
    + inversion Heq; subst. rewrite fold_insert_fresh by exact Hfresh.
      apply lookup_insert_eq.
    + now apply IH.
Qed.

(** C1, amended: for every store whose entries map valid keys to valid
    values, neither with white space at its ends and each [KEY=value] line
    shorter than the 65536 bytes of the scanner, saving the store with
    [SaveEnvFile] (in whatever order the map is walked) and loading the
    same path with [LoadEnvFile] yields a store with exactly the entries
    saved: every key is present with the same value, under the same
    spelling. *)
Theorem C1_save_then_load (order : MapOrder) (e : DotenvFile) (fs : FS) :
  valid_order order ->
  (forall k v, Variables e !! k = Some v -> storable k v) ->
  forall k, Variables (LoadEnvFile (Path e) (SaveEnvFile order e fs)).1 !! k
            = Variables e !! k.
Proof.
  intros Hord Hst k. unfold LoadEnvFile, SaveEnvFile.
  rewrite lookup_insert_eq. simpl. rewrite lookup_insert_eq. simpl.
  assert (Hmem : forall k v, (k, v) ∈ order (Variables e) <-> Variables e !! k = Some v).
  { intros k' v'. rewrite (Hord (Variables e)). apply elem_of_map_to_list. }
  assert (Hall : Forall (fun kv => storable kv.1 kv.2) (order (Variables e))).
  { apply Forall_forall. intros [k' v'] Hin. apply Hst. now apply Hmem. }
  rewrite scan_write_entries, fold_load_entries by exact Hall.
  destruct (Variables e !! k) as [v|] eqn:Hk.
  - apply fold_insert_member; [|now apply Hmem].
    rewrite (Hord (Variables e)). apply NoDup_fst_map_to_list.
  - rewrite fold_insert_fresh; [apply lookup_empty|].
    intros Hin. apply list_elem_of_fmap in Hin as ([k' v'] & -> & Hin).
    apply Hmem in Hin. simpl in *. congruence.
Qed.


(** ** The primary file: how it is read *)

Lemma cut_at_Some (sep : ascii) (s before after : string) :
  cut_at sep s = Some (before, after) <->
  s = before +:+ String sep after /\ has_byte sep before = false.
Proof.
  split.
  - revert before; induction s as [|c s IH]; intros before H; simpl in H; [discriminate|].
    destruct (Ascii.eqb_spec c sep) as [->|Hne].
    + inversion H; subst. now sapp.
    + destruct (cut_at sep s) as [[b a]|]; [|discriminate].
      inversion H; subst. destruct (IH b eq_refl) as [-> Hb]. sapp. split; [reflexivity|].
      simpl. rewrite Hb. apply Ascii.eqb_neq in Hne. now rewrite Hne.
  - intros [-> H]. now apply cut_at_first.
Qed.

Lemma cut_at_None (sep : ascii) (s : string) :
  cut_at sep s = None <-> has_byte sep s = false.
Proof.
  induction s as [|c s IH]; simpl; [tauto|].
  destruct (Ascii.eqb c sep); simpl.
  - split; discriminate.
  - destruct (cut_at sep s) as [[b a]|]; rewrite <- IH; split; congruence.
Qed.

Lemma load_line_entry (vars : gmap string string) (line : string) :
  load_line vars line =
  match entry_of_line line with
  | Some (key, value) => <[key := value]> vars
  | None => vars
  end.
Proof.
  unfold load_line, entry_of_line, SplitN2.
  destruct (HasPrefix line "#" || (line =? EmptyString)%string); [reflexivity|].
  now destruct (cut_at "="%char line) as [[b a]|].
Qed.

Lemma entry_of_line_spec (line key value : string) :
  entry_of_line line = Some (key, value) <-> line_entry line key value.
Proof.
  unfold entry_of_line, line_entry. split.
  - destruct (HasPrefix line "#"); [discriminate|].
    destruct (String.eqb_spec line EmptyString) as [|Hne]; [discriminate|]. simpl.
    destruct (cut_at "="%char line) as [[b a]|] eqn:Hcut; [|discriminate].
    intros H; inversion H; subst. apply cut_at_Some in Hcut as [-> Hb].
    repeat split; [exact Hne|]. now exists b, a.
  - intros (Hne & Hhash & b & a & -> & Hb & -> & ->).
    rewrite Hhash. apply String.eqb_neq in Hne. rewrite Hne. simpl.
    change (b +:+ "=" +:+ a) with (b +:+ String "="%char a).
    now rewrite cut_at_first.
Qed.

Lemma line_entry_functional (line key v1 v2 : string) :
  line_entry line key v1 -> line_entry line key v2 -> v1 = v2.
Proof.
  intros H1 H2. apply entry_of_line_spec in H1, H2. congruence.
Qed.

Lemma load_line_lookup (vars : gmap string string) (line key value : string) :
  load_line vars line !! key = Some value <->
  line_entry line key value \/
  ((forall v, ~ line_entry line key v) /\ vars !! key = Some value).
Proof.
  rewrite load_line_entry.
  destruct (entry_of_line line) as [[k v]|] eqn:He.
  - destruct (decide (k = key)) as [->|Hne].
    + rewrite lookup_insert_eq. apply entry_of_line_spec in He. split.
      * intros H; inversion H; subst. now left.
      * intros [H|[H _]]; [|now destruct (H v)].
        f_equal. eapply line_entry_functional; eassumption.
    + rewrite lookup_insert_ne by exact Hne. split.
      * intros H. right. split; [|exact H].
        intros v' Hv'. apply entry_of_line_spec in Hv'. congruence.
      * intros [H|[_ H]]; [|exact H].
        apply entry_of_line_spec in H. congruence.
  - split.
    + intros H. right. split; [|exact H].
      intros v' Hv'. apply entry_of_line_spec in Hv'. congruence.
    + intros [H|[_ H]]; [|exact H].
      apply entry_of_line_spec in H. congruence.
Qed.

Lemma last_entry_cons (line : string) (lines : list string) (key value : string) :
  last_entry (line :: lines) key value <->
  last_entry lines key value \/ (line_entry line key value /\ undeclared key lines).
Proof.
  unfold last_entry. split.
  - intros (pre & l & post & Heq & Hl & Hpost).
    destruct pre as [|x pre]; simpl in Heq; inversion Heq; subst.
    + now right.
    + left. now exists pre, l, post.
  - intros [(pre & l & post & -> & Hl & Hpost)|[Hl Hpost]].
    + now exists (line :: pre), l, post.
    + now exists [], line, lines.
Qed.

Lemma last_entry_declared (lines : list string) (key value : string) :
  last_entry lines key value -> ~ undeclared key lines.
Proof.
  intros (pre & l & post & -> & Hl & _) Hnone.
  apply Forall_app in Hnone as [_ Hnone]. apply Forall_cons in Hnone as [Hnone _].
  now apply (Hnone value).
Qed.

Lemma fold_load_lookup (lines : list string) (vars : gmap string string)
    (key value : string) :
  fold_left load_line lines vars !! key = Some value <->
  last_entry lines key value \/ (vars !! key = Some value /\ undeclared key lines).
Proof.
  revert vars; induction lines as [|line lines IH]; intros vars; simpl.
  - split.
    + intros H. right. split; [exact H | constructor].
    + intros [(pre & l & post & Heq & _)|[H _]]; [now destruct pre | exact H].
  - rewrite IH, load_line_lookup, last_entry_cons. unfold undeclared.
    rewrite Forall_cons. tauto.
Qed.

(** C5: [LoadEnvFile] leaves the store as it is on an empty line, on a line
    that begins with the comment marker, and on a line with no equals
    sign; every other line is split at its first equals sign, both parts
    are trimmed, and the pair is stored; in the store that comes out, a
    key holds the value given by the last line that declares it; the
    lines are those the scanner delivers from the file. *)
Theorem C5_load_reads_lines :
  (forall vars line,
      line = EmptyString \/ HasPrefix line "#" = true \/ has_byte "="%char line = false ->
      load_line vars line = vars) /\
  (forall vars before after,
      before +:+ "=" +:+ after <> EmptyString ->
      HasPrefix (before +:+ "=" +:+ after) "#" = false ->
      has_byte "="%char before = false ->
      load_line vars (before +:+ "=" +:+ after)
      = <[TrimSpace before := TrimSpace after]> vars) /\
  (forall path (fs : FS) key value,
      Variables (LoadEnvFile path fs).1 !! key = Some value <->
      last_entry (scanLines (default EmptyString (fs !! path))) key value).
Proof.
  split; [|split].
  - intros vars line H. rewrite load_line_entry.
    destruct (entry_of_line line) as [[k v]|] eqn:He; [|reflexivity].
    apply entry_of_line_spec in He as (Hne & Hhash & b & a & -> & Hb & _).
    destruct H as [H|[H|H]]; [contradiction | congruence |].
    rewrite has_byte_append in H. apply orb_false_iff in H as [_ H]. discriminate.
  - intros vars before after Hne Hhash Hb. rewrite load_line_entry.
    assert (He : entry_of_line (before +:+ "=" +:+ after)
                 = Some (TrimSpace before, TrimSpace after)).
    { apply entry_of_line_spec. repeat split; [exact Hne | exact Hhash|].
      now exists before, after. }
    now rewrite He.
  - intros path fs key value. unfold LoadEnvFile. simpl.
    assert (Hc : default EmptyString
                   (match fs !! path with
                    | Some _ => fs
                    | None => <[path := EmptyString]> fs
                    end !! path) = default EmptyString (fs !! path)).
    { destruct (fs !! path) eqn:Hp; [now rewrite Hp | now rewrite lookup_insert_eq]. }
    rewrite Hc, fold_load_lookup, lookup_empty. split; [|now left].
    intros [H|[H _]]; [exact H | discriminate].
Qed.


(** ** The mirror: searching the lines *)

Lemma HasPrefix_append_needle (s p k : string) :
  HasPrefix s (p +:+ k) = true -> HasPrefix s p = true.
Proof.
  revert s; induction p as [|c p IH]; intros s; sapp; [now destruct s|].
  destruct s as [|x s]; simpl; [discriminate|].
  intros H. apply andb_true_iff in H as [Hc H]. rewrite Hc. simpl. now apply IH.
Qed.

Lemma Contains_unfold (s sub : string) :
  Contains s sub =
  HasPrefix s sub || match s with
                     | EmptyString => false
                     | String _ s' => Contains s' sub
                     end.
Proof. now destruct s. Qed.

Lemma Contains_shorter_needle (s p k : string) :
  Contains s (p +:+ k) = true -> Contains s p = true.
Proof.
  induction s as [|x s IH];
    rewrite (Contains_unfold _ p), (Contains_unfold _ (p +:+ k)); intros H; apply orb_true_iff in H as [H|H]; try discriminate.
  - apply HasPrefix_append_needle in H. now rewrite H.
  - apply HasPrefix_append_needle in H. now rewrite H.
  - rewrite (IH H). apply orb_true_r.
Qed.

Lemma Contains_append_needle (s p k : string) :
  Contains s p = false -> Contains s (p +:+ k) = false.
Proof.
  intros H. destruct (Contains s (p +:+ k)) eqn:E; [|reflexivity].
  apply Contains_shorter_needle in E. congruence.
Qed.

Lemma header_never_matches (key : string) :
  Contains envModuleHeader (exportConst key) = false.
Proof. apply Contains_append_needle. reflexivity. Qed.

Lemma brace_never_matches (key : string) :
  Contains "}" (exportConst key) = false.
Proof. apply Contains_append_needle. reflexivity. Qed.

Lemma find_line_None (content : list string) (needle : string) :
  find_line content needle = None <->
  forall line, line ∈ content -> Contains line needle = false.
Proof.
  induction content as [|x content IH]; simpl.
  - split; [|reflexivity]. intros _ line H. now apply elem_of_nil in H.
  - destruct (Contains x needle) eqn:Hx.
    + split; [discriminate|]. intros H. specialize (H x (list_elem_of_here _ _)). congruence.
    + destruct (find_line content needle) as [i|]; simpl.
      * split; [discriminate|]. intros H.
        assert (Some i = None) by (apply IH; intros line Hl; apply H;
                                   now apply list_elem_of_further).
        discriminate.
      * split; [|reflexivity]. intros _ line Hl.
        apply elem_of_cons in Hl as [->|Hl]; [exact Hx | now apply IH].
Qed.

Lemma find_line_Some (content : list string) (needle : string) (i : nat) :
  find_line content needle = Some i <->
  (exists line, content !! i = Some line /\ Contains line needle = true) /\
  (forall j line, (j < i)%nat -> content !! j = Some line -> Contains line needle = false).
Proof.
  revert i; induction content as [|x content IH]; intros i; simpl.
  - split; [discriminate|]. intros [(line & H & _) _]. discriminate.
  - destruct (Contains x needle) eqn:Hx.
    + split.
      * intros H; inversion H; subst. split; [now exists x|]. intros j line Hj. lia.
      * intros [_ H]. destruct i as [|i]; [reflexivity|].
        specialize (H 0%nat x ltac:(lia) eq_refl). congruence.
    + destruct i as [|i].
      * split.
        -- destruct (find_line content needle); discriminate.
        -- intros [(line & H & Hl) _]. simpl in H. congruence.
      * specialize (IH i). split.
        -- intros H. destruct (find_line content needle) as [j|] eqn:E; [|discriminate].
           simpl in H. inversion H; subst.
           destruct (proj1 IH eq_refl) as [Hex Hbefore]. split; [exact Hex|].
           intros [|j] line Hj Hl; simpl in Hl; [congruence|].
           apply (Hbefore j); [lia | exact Hl].
        -- intros [Hex Hbefore]. rewrite (proj2 IH); [reflexivity|].
           split; [exact Hex|]. intros j line Hj Hl.
           apply (Hbefore (S j)); [lia | exact Hl].
Qed.

Lemma find_line_lt (content : list string) (needle : string) (i : nat) :
  find_line content needle = Some i -> (i < length content)%nat.
Proof.
  intros H. apply find_line_Some in H as [(line & H & _) _].
  eapply lookup_lt_Some, H.
Qed.

Lemma find_line_snoc (content : list string) (x needle : string) :
  Contains x needle = false ->
  find_line (content ++ [x]) needle = find_line content needle.
Proof.
  intros Hx. induction content as [|y content IH]; simpl.
  - now rewrite Hx.
  - destruct (Contains y needle); [reflexivity | now rewrite IH].
Qed.

Lemma find_line_cons (x : string) (content : list string) (needle : string) :
  find_line (x :: content) needle
  = if Contains x needle then Some O else S <$> find_line content needle.
Proof. reflexivity. Qed.

(** In a well-formed block the search can only stop in the body. *)
Lemma find_line_block (body : list string) (key : string) :
  find_line (envModuleHeader :: body ++ ["}"]) (exportConst key)
  = S <$> find_line body (exportConst key).
Proof.
  rewrite find_line_cons, header_never_matches.
  now rewrite find_line_snoc by apply brace_never_matches.
Qed.

(** ** The mirror: reading back what was written *)

Lemma str_last_Some (s : string) (c : ascii) :
  str_last s = Some c -> exists t, s = t +:+ String c EmptyString.
Proof.
  induction s as [|x s IH]; [discriminate|]. intros H.
  destruct s as [|y s].
  - exists EmptyString. simpl in H. now inversion H.
  - destruct IH as [t Ht]; [exact H|]. exists (String x t). sapp. now rewrite <- Ht.
Qed.

Lemma dropCR_prefix (s : string) : exists tail, s = dropCR s +:+ tail.
Proof.
  unfold dropCR. destruct (str_last s) as [c|] eqn:E.
  - destruct (Ascii.eqb_spec c CR) as [->|].
    + apply str_last_Some in E as [t ->]. rewrite str_take_snoc. now eexists.
    + exists EmptyString. now rewrite append_nil_r.
  - exists EmptyString. now rewrite append_nil_r.
Qed.

Lemma dropCR_length (s : string) : (String.length (dropCR s) <= String.length s)%nat.
Proof.
  destruct (dropCR_prefix s) as [tail H]. rewrite H at 2. rewrite length_append. lia.
Qed.

Lemma scan_from_first (data cur line : string) (rest : list string) :
  scan_from data cur = line :: rest ->
  exists raw tail, cur +:+ data = raw +:+ tail /\ dropCR raw = line.
Proof.
  revert cur; induction data as [|c data IH]; intros cur H.
  - simpl in H. destruct cur as [|x cur]; [discriminate|]. inversion H; subst.
    exists (String x cur), EmptyString. now rewrite !append_nil_r.
  - rewrite scan_from_cons in H. destruct (Ascii.eqb c LF).
    + inversion H; subst. now exists cur, (String c data).
    + destruct (MaxScanTokenSize <=? strlen cur + 1)%N; [discriminate|].
      apply IH in H as (raw & tail & Heq & Hl). exists raw, tail.
      now rewrite <- Heq, append_snoc.
Qed.

(** A file from which the program reads a well-formed block contains the
    opening line, so [EnsureCorrectEnvDTSStructure] leaves it alone. *)
Lemma well_formed_file_header (text : string) :
  well_formed_file text -> Contains text envModuleHeader = true.
Proof.
  intros [(body & H & _) _]. unfold scanLines in H.
  apply scan_from_first in H as (raw & tail & Heq & Hl).
  rewrite str_app_nil_l in Heq. subst text.
  destruct (dropCR_prefix raw) as [t Ht]. rewrite Ht, Hl, append_assoc.
  apply Contains_prefix, HasPrefix_append.
Qed.

Lemma Ensure_keeps (envPath text : string) (fs : FS) :
  fs !! filepath_Join envPath "env.d.ts" = Some text ->
  Contains text envModuleHeader = true ->
  EnsureCorrectEnvDTSStructure envPath fs = fs.
Proof.
  intros Hf Hc. unfold EnsureCorrectEnvDTSStructure. rewrite Hf. simpl.
  rewrite Hf. simpl. now rewrite Hc.
Qed.

Lemma Ensure_resets (envPath : string) (fs : FS) :
  (fs !! filepath_Join envPath "env.d.ts" = None \/
   exists text, fs !! filepath_Join envPath "env.d.ts" = Some text /\
                Contains text envModuleHeader = false) ->
  EnsureCorrectEnvDTSStructure envPath fs
  = <[filepath_Join envPath "env.d.ts" := initialEnvDTS]> fs.
Proof.
  unfold EnsureCorrectEnvDTSStructure. intros [Hf|(text & Hf & Hc)]; rewrite Hf.
  - rewrite lookup_insert_eq. simpl. reflexivity.
  - simpl. rewrite Hf. simpl. now rewrite Hc.
Qed.


(** ** The mirror: upsert and remove *)

Lemma UpdateEnvDTS_existing (envPath key value : string) (isRemove : bool)
    (fs : FS) (text : string) :
  fs !! filepath_Join envPath "env.d.ts" = Some text ->
  Contains text envModuleHeader = true ->
  UpdateEnvDTS envPath key value isRemove fs =
  match update_lines (scanLines text) key isRemove with
  | Some content' => Some (<[filepath_Join envPath "env.d.ts" := Join content' nl]> fs)
  | None => None
  end.
Proof.
  intros Hf Hc. unfold UpdateEnvDTS.
  rewrite (Ensure_keeps envPath text fs Hf Hc), Hf. reflexivity.
Qed.

(** X25: the upsert, in the terms of the test the code makes.  In a
    well-formed declaration file and for a key that is not empty, when
    some line contains the text [export const] followed by the key as it
    was typed, the upsert writes the declaration of the upper-cased key at
    the place of the first such line and leaves every other line where and
    as it was; when no line contains that text, it writes one new
    declaration line between the body and the closing brace. *)
Theorem upsert_in_place_or_before_brace
    (envPath key value : string) (fs : FS) (text : string) :
  fs !! filepath_Join envPath "env.d.ts" = Some text ->
  well_formed_file text ->
  key <> EmptyString ->
  (forall i line,
      scanLines text !! i = Some line ->
      Contains line (exportConst key) = true ->
      (forall j earlier, (j < i)%nat -> scanLines text !! j = Some earlier ->
                         Contains earlier (exportConst key) = false) ->
      exists content',
        UpdateEnvDTS envPath key value false fs
        = Some (<[filepath_Join envPath "env.d.ts" := Join content' nl]> fs) /\
        length content' = length (scanLines text) /\
        content' !! i = Some (declarationLine key) /\
        forall j, j <> i -> content' !! j = scanLines text !! j) /\
  ((forall line, line ∈ scanLines text -> Contains line (exportConst key) = false) ->
   exists body,
     scanLines text = envModuleHeader :: body ++ ["}"] /\
     UpdateEnvDTS envPath key value false fs
     = Some (<[filepath_Join envPath "env.d.ts" :=
                 Join (envModuleHeader :: body ++ [declarationLine key; "}"]) nl]> fs)).
Proof.
  intros Hf Hwf Hkey.
  rewrite (UpdateEnvDTS_existing _ _ _ _ _ _ Hf (well_formed_file_header _ Hwf)).
  unfold update_lines. split.
  - intros i line Hi Hline Hfirst.
    assert (Hfind : find_line (scanLines text) (exportConst key) = Some i).
    { apply find_line_Some. split; [now exists line | exact Hfirst]. }
    rewrite Hfind. exists (<[i := declarationLine key]> (scanLines text)).
    split; [reflexivity|]. split; [apply length_insert|]. split.
    + apply list_lookup_insert_eq. eapply lookup_lt_Some, Hi.
    + intros j Hj. now apply list_lookup_insert_ne.
  - intros Hnone. apply find_line_None in Hnone. rewrite Hnone.
    apply String.eqb_neq in Hkey. rewrite Hkey.
    destruct Hwf as [(body & Hbody & _) _]. exists body. split; [exact Hbody|].
    rewrite Hbody. simpl length.
    replace (S (length (body ++ ["}"])) - 1)%nat with (length (envModuleHeader :: body))
      by (rewrite length_app; simpl; lia).
    change (envModuleHeader :: body ++ ["}"]) with ((envModuleHeader :: body) ++ ["}"]).
    now rewrite take_app_length.
Qed.

(** ** The mirror: the wrapper block is kept *)

Lemma fits_scanner_empty : fits_scanner EmptyString.
Proof. reflexivity. Qed.

Lemma scan_from_fits (data cur : string) :
  fits_scanner cur -> Forall fits_scanner (scan_from data cur).
Proof.
  assert (Hdrop : forall s, fits_scanner s -> fits_scanner (dropCR s)).
  { intros s Hs. pose proof (dropCR_length s). unfold fits_scanner, strlen in *. lia. }
  revert cur; induction data as [|c data IH]; intros cur Hcur.
  - simpl. destruct cur; constructor; [now apply Hdrop | constructor].
  - rewrite scan_from_cons. destruct (Ascii.eqb c LF).
    + constructor; [now apply Hdrop | apply IH, fits_scanner_empty].
    + destruct (MaxScanTokenSize <=? strlen cur + 1)%N eqn:E; [constructor|].
      apply IH. apply N.leb_gt in E. unfold fits_scanner, strlen in *.
      rewrite length_append. simpl. lia.
Qed.

Lemma Join_cons2 (x y : string) (rest : list string) (sep : string) :
  Join (x :: y :: rest) sep = x +:+ sep +:+ Join (y :: rest) sep.
Proof. reflexivity. Qed.

(** Lines joined by line feeds are read back as they were, when the last of
    them is not empty. *)
Lemma scan_Join (lines : list string) :
  Forall plain_line lines -> last lines <> Some EmptyString -> lines <> [] ->
  scanLines (Join lines nl) = lines.
Proof.
  unfold scanLines. induction lines as [|x lines IH]; intros Hall Hlast Hne;
    [contradiction|].
  apply Forall_cons in Hall as [(Hlf & Hfit & Hcr) Hall].
  destruct lines as [|y lines].
  - simpl Join. rewrite scan_from_end; rewrite ?str_app_nil_l; auto.
    + now rewrite dropCR_id.
    + intros ->. now apply Hlast.
  - rewrite Join_cons2. change (nl +:+ Join (y :: lines) nl)
      with (String LF (Join (y :: lines) nl)).
    rewrite scan_from_line; rewrite ?str_app_nil_l; auto.
    rewrite dropCR_id by exact Hcr. f_equal. apply IH; auto; discriminate.
Qed.

Lemma declaration_plain (line : string) :
  declaration line -> fits_scanner line -> plain_line line.
Proof.
  intros (name & Hname & ->) Hfit. repeat split; [|exact Hfit|].
  - rewrite !has_byte_append, Hname. reflexivity.
  - rewrite <- append_assoc, str_last_append; discriminate.
Qed.

(** A well-formed block whose lines fit the scanner is read back, line for
    line, from the file in which [UpdateEnvDTS] writes it. *)
Lemma block_rescan (body : list string) :
  Forall declaration body -> Forall fits_scanner body ->
  scanLines (Join (envModuleHeader :: body ++ ["}"]) nl)
  = envModuleHeader :: body ++ ["}"].
Proof.
  intros Hdecl Hfit. apply scan_Join.
  - constructor; [repeat split; discriminate|].
    apply Forall_app. split.
    + apply Forall_forall. intros line Hin.
      apply declaration_plain; eapply Forall_forall; eassumption.
    + constructor; [repeat split; discriminate | constructor].
  - change (envModuleHeader :: body ++ ["}"]) with ((envModuleHeader :: body) ++ ["}"]).
    rewrite last_snoc. discriminate.
  - discriminate.
Qed.

Lemma block_written_well_formed (body : list string) :
  Forall declaration body -> Forall fits_scanner body ->
  well_formed_file (Join (envModuleHeader :: body ++ ["}"]) nl).
Proof.
  intros Hdecl Hfit. unfold well_formed_file. rewrite block_rescan by assumption.
  split; [now exists body | now left].
Qed.

(** X26: a remove that finds nothing changes nothing.  On the store,
    [RemoveKey] with a key the store does not hold returns the store it
    was given (it has no error to return).  On the mirror, when no line
    contains the text [export const] followed by the key as it was typed,
    [UpdateEnvDTS] returns without error and writes back the very lines it
    read once the structure was checked; for a well-formed file these are
    the lines of the file, which therefore keeps its lines, and its bytes
    too but for a line feed after the last line. *)
Theorem remove_without_match_changes_nothing :
  (forall e key, Variables e !! key = None -> RemoveKey e key = e) /\
  (forall envPath key value (fs : FS),
      let checked := EnsureCorrectEnvDTSStructure envPath fs in
      let content :=
        scanLines (default EmptyString (checked !! filepath_Join envPath "env.d.ts")) in
      (forall line, line ∈ content -> Contains line (exportConst key) = false) ->
      UpdateEnvDTS envPath key value true fs
      = Some (<[filepath_Join envPath "env.d.ts" := Join content nl]> checked)) /\
  (forall envPath key value (fs : FS) text,
      fs !! filepath_Join envPath "env.d.ts" = Some text ->
      well_formed_file text ->
      (forall line, line ∈ scanLines text -> Contains line (exportConst key) = false) ->
      exists text',
        UpdateEnvDTS envPath key value true fs
        = Some (<[filepath_Join envPath "env.d.ts" := text']> fs) /\
        scanLines text' = scanLines text /\
        (text' = text \/ text' +:+ nl = text)).
Proof.
  assert (Hgeneral : forall envPath key value (fs : FS),
      let checked := EnsureCorrectEnvDTSStructure envPath fs in
      let content :=
        scanLines (default EmptyString (checked !! filepath_Join envPath "env.d.ts")) in
      (forall line, line ∈ content -> Contains line (exportConst key) = false) ->
      UpdateEnvDTS envPath key value true fs
      = Some (<[filepath_Join envPath "env.d.ts" := Join content nl]> checked)).
  { intros envPath key value fs checked content Hnone.
    unfold UpdateEnvDTS, update_lines. fold checked. fold content.
    apply find_line_None in Hnone. now rewrite Hnone. }
  split; [|split].
  - intros [path vars] key H. unfold RemoveKey. simpl in *. f_equal.
    now apply delete_id.
  - exact Hgeneral.
  - intros envPath key value fs text Hf Hwf Hnone.
    pose proof (well_formed_file_header _ Hwf) as Hc.
    exists (Join (scanLines text) nl). split; [|split].
    + rewrite Hgeneral; rewrite (Ensure_keeps envPath text fs Hf Hc), Hf;
        [reflexivity | exact Hnone].
    + pose proof (scan_from_fits text EmptyString fits_scanner_empty) as Hfits.
      fold (scanLines text) in Hfits.
      destruct Hwf as [(body & Hbody & Hdecl) _]. rewrite Hbody in *.
      apply Forall_cons in Hfits as [_ Hfits].
      apply Forall_app in Hfits as [Hfits _].
      now apply block_rescan.
    + destruct Hwf as [_ [H|H]]; [left | right]; now symmetry.
Qed.

Lemma declarationLine_declaration (key : string) :
  has_byte LF (ToUpper key) = false -> declaration (declarationLine key).
Proof. intros H. now exists (ToUpper key). Qed.

(** On a file that is absent or lacks the opening line, an upsert writes
    the block anew, with the one declaration. *)
Lemma upsert_rebuilds (envPath key value : string) (fs : FS) :
  key <> EmptyString ->
  (fs !! filepath_Join envPath "env.d.ts" = None \/
   exists text, fs !! filepath_Join envPath "env.d.ts" = Some text /\
                Contains text envModuleHeader = false) ->
  UpdateEnvDTS envPath key value false fs
  = Some (<[filepath_Join envPath "env.d.ts" :=
              Join [envModuleHeader; declarationLine key; "}"] nl]> fs).
Proof.
  intros Hkey Hfile.
  unfold UpdateEnvDTS. rewrite (Ensure_resets envPath fs Hfile).
  rewrite lookup_insert_eq. simpl default. rewrite scanLines_initialEnvDTS.
  unfold update_lines.
  change [envModuleHeader; "}"] with (envModuleHeader :: [] ++ ["}"]).
  rewrite find_line_block. simpl.
  apply String.eqb_neq in Hkey. rewrite Hkey.
  now rewrite insert_insert_eq.
Qed.

(** An upsert with the empty key into a file that is absent or lacks the
    opening line leaves the block with no declaration. *)
Lemma UpdateEnvDTS_empty_key_rebuilds (envPath value : string) (fs : FS) :
  (fs !! filepath_Join envPath "env.d.ts" = None \/
   exists text, fs !! filepath_Join envPath "env.d.ts" = Some text /\
                Contains text envModuleHeader = false) ->
  UpdateEnvDTS envPath EmptyString value false fs
  = Some (<[filepath_Join envPath "env.d.ts" := Join [envModuleHeader; "}"] nl]> fs).
Proof.
  intros Hfile.
  unfold UpdateEnvDTS. rewrite (Ensure_resets envPath fs Hfile).
  rewrite lookup_insert_eq. simpl default. rewrite scanLines_initialEnvDTS.
  unfold update_lines.
  change [envModuleHeader; "}"] with (envModuleHeader :: [] ++ ["}"]).
  rewrite find_line_block. simpl.
  now rewrite insert_insert_eq.
Qed.

(** A remove on a file that is absent or lacks the opening line leaves
    the block with no declaration too. *)
Lemma remove_rebuilds (envPath key value : string) (fs : FS) :
  (fs !! filepath_Join envPath "env.d.ts" = None \/
   exists text, fs !! filepath_Join envPath "env.d.ts" = Some text /\
                Contains text envModuleHeader = false) ->
  UpdateEnvDTS envPath key value true fs
  = Some (<[filepath_Join envPath "env.d.ts" := Join [envModuleHeader; "}"] nl]> fs).
Proof.
  intros Hfile.
  unfold UpdateEnvDTS. rewrite (Ensure_resets envPath fs Hfile).
  rewrite lookup_insert_eq. simpl default. rewrite scanLines_initialEnvDTS.
  unfold update_lines.
  change [envModuleHeader; "}"] with (envModuleHeader :: [] ++ ["}"]).
  rewrite find_line_block. simpl.
  now rewrite insert_insert_eq.
Qed.

(** X27: the wrapper block after an operation, from a file that is
    absent, lacks the opening line, or is well formed.  When the file is
    absent or does not contain the opening line, an upsert of a key that is
    not empty leaves the file as exactly the opening line, the declaration
    of the key and the closing brace (a well-formed file when the
    upper-cased key holds no line feed and its declaration fits the
    scanner), and a remove, or an upsert of the empty key, leaves it as the
    opening line and the closing brace; and an upsert or a remove on a
    well-formed file returns without error and leaves a well-formed file,
    provided for an upsert that the upper-cased key holds no line feed and
    its declaration fits the scanner. *)
Theorem wrapper_block_kept :
  (forall envPath key value (fs : FS),
      key <> EmptyString ->
      (fs !! filepath_Join envPath "env.d.ts" = None \/
       exists text, fs !! filepath_Join envPath "env.d.ts" = Some text /\
                    Contains text envModuleHeader = false) ->
      UpdateEnvDTS envPath key value false fs
      = Some (<[filepath_Join envPath "env.d.ts" :=
                  Join [envModuleHeader; declarationLine key; "}"] nl]> fs) /\
      (has_byte LF (ToUpper key) = false -> fits_scanner (declarationLine key) ->
       well_formed_file (Join [envModuleHeader; declarationLine key; "}"] nl))) /\
  (forall envPath key value isRemove (fs : FS),
      isRemove = true \/ key = EmptyString ->
      (fs !! filepath_Join envPath "env.d.ts" = None \/
       exists text, fs !! filepath_Join envPath "env.d.ts" = Some text /\
                    Contains text envModuleHeader = false) ->
      UpdateEnvDTS envPath key value isRemove fs
      = Some (<[filepath_Join envPath "env.d.ts" :=
                  Join [envModuleHeader; "}"] nl]> fs) /\
      well_formed_file (Join [envModuleHeader; "}"] nl)) /\
  (forall envPath key value isRemove (fs : FS) text,
      fs !! filepath_Join envPath "env.d.ts" = Some text ->
      well_formed_file text ->
      (isRemove = false ->
       has_byte LF (ToUpper key) = false /\ fits_scanner (declarationLine key)) ->
      exists text',
        UpdateEnvDTS envPath key value isRemove fs
        = Some (<[filepath_Join envPath "env.d.ts" := text']> fs) /\
        well_formed_file text').
Proof.
  split; [|split].
  - intros envPath key value fs Hkey Hfile. split.
    + now apply upsert_rebuilds.
    + intros Hlf Hfit.
      apply (block_written_well_formed [declarationLine key]).
      * constructor; [now apply declarationLine_declaration | constructor].
      * constructor; [exact Hfit | constructor].
  - intros envPath key value isRemove fs Hop Hfile. split.
    + destruct isRemove; [now apply remove_rebuilds|].
      destruct Hop as [Hop| ->]; [discriminate|].
      now apply UpdateEnvDTS_empty_key_rebuilds.
    + apply (block_written_well_formed []); constructor.
  - intros envPath key value isRemove fs text Hf Hwf Hkey.
    rewrite (UpdateEnvDTS_existing _ _ _ _ _ _ Hf (well_formed_file_header _ Hwf)).
    pose proof (scan_from_fits text EmptyString fits_scanner_empty) as Hfits.
    fold (scanLines text) in Hfits.
    destruct Hwf as [(body & Hbody & Hdecl) _]. rewrite Hbody in *.
    apply Forall_cons in Hfits as [_ Hfits].
    apply Forall_app in Hfits as [Hfits _].
    assert (Hsame : well_formed_file (Join (envModuleHeader :: body ++ ["}"]) nl))
      by now apply block_written_well_formed.
    unfold update_lines. rewrite find_line_block.
    destruct (find_line body (exportConst key)) as [j|] eqn:Ej; simpl.
    + apply find_line_lt in Ej.
      destruct isRemove.
      * exists (Join (envModuleHeader :: (take j body ++ drop (S j) body) ++ ["}"]) nl).
        split.
        -- rewrite take_app_le, drop_app_le by lia. now rewrite <- app_assoc.
        -- apply block_written_well_formed; apply Forall_app; split;
             auto using Forall_take, Forall_drop.
      * destruct (Hkey eq_refl) as [Hlf Hfit].
        exists (Join (envModuleHeader :: <[j := declarationLine key]> body ++ ["}"]) nl).
        split.
        -- now rewrite insert_app_l by exact Ej.
        -- apply block_written_well_formed; apply Forall_insert; auto.
           now apply declarationLine_declaration.
    + destruct isRemove; [now eexists|].
      destruct (String.eqb key EmptyString); [now eexists|].
      destruct (Hkey eq_refl) as [Hlf Hfit].
      exists (Join (envModuleHeader :: (body ++ [declarationLine key]) ++ ["}"]) nl).
      split.
      * replace (length (body ++ ["}"]) - 0)%nat
          with (length (envModuleHeader :: body)) by (rewrite length_app; simpl; lia).
        change (envModuleHeader :: body ++ ["}"]) with ((envModuleHeader :: body) ++ ["}"]).
        rewrite take_app_length. simpl. now rewrite <- app_assoc.
      * apply block_written_well_formed; apply Forall_app; split;
          auto using declarationLine_declaration.
Qed.


(** ** Upper-casing and the Expo prefix *)

Lemma byte_val_nonneg (c : ascii) : 0 <= byte_val c.
Proof. unfold byte_val. lia. Qed.

Lemma unicode_ToUpper_ascii_nonneg (r : Z) :
  0 <= r -> (r <? RuneSelf) = true -> (unicode_ToUpper r <? 0) = false.
Proof.
  intros H0 H. apply Z.ltb_lt in H. unfold RuneSelf in H. unfold unicode_ToUpper.
  destruct (r <=? 0x7F) eqn:E; [|apply Z.leb_gt in E; lia].
  destruct ((0x61 <=? r) && (r <=? 0x7A)) eqn:E2; apply Z.ltb_ge; [|lia].
  apply andb_true_iff in E2 as [E2 _]. apply Z.leb_le in E2. lia.
Qed.

(** An ASCII byte is a rune of its own: [Map] turns it into the encoding
    of its image and goes on with the rest. *)
Lemma map_runes_ascii (fuel : nat) (c : ascii) (s : string) :
  (byte_val c <? RuneSelf) = true ->
  map_runes (S fuel) unicode_ToUpper (String c s)
  = EncodeRune (unicode_ToUpper (byte_val c)) +:+ map_runes fuel unicode_ToUpper s.
Proof.
  intros H. cbn [map_runes]. unfold DecodeRuneInString. rewrite H.
  rewrite unicode_ToUpper_ascii_nonneg by (exact H || apply byte_val_nonneg).
  reflexivity.
Qed.

Lemma ToUpper_keeps_expo_prefix (s : string) :
  ToUpper ("EXPO_PUBLIC_" +:+ s)
  = "EXPO_PUBLIC_" +:+ map_runes (String.length s) unicode_ToUpper s.
Proof.
  unfold ToUpper, Map. rewrite length_append.
  change (String.length "EXPO_PUBLIC_") with 12%nat. cbn [Nat.add]. sapp.
  do 12 (rewrite map_runes_ascii by reflexivity). reflexivity.
Qed.

Lemma HasPrefix_split (s p : string) :
  HasPrefix s p = true -> exists t, s = p +:+ t.
Proof.
  revert s; induction p as [|c p IH]; intros s H; [now exists s|].
  destruct s as [|x s]; simpl in H; [discriminate|].
  apply andb_true_iff in H as [Hc H]. apply Ascii.eqb_eq in Hc as ->.
  destruct (IH s H) as [t ->]. now exists t.
Qed.

Lemma EnsureExpoPrefix_shape (key : string) :
  exists t, EnsureExpoPrefix key = "EXPO_PUBLIC_" +:+ t.
Proof.
  unfold EnsureExpoPrefix. destruct (HasPrefix key "EXPO_PUBLIC_") eqn:E; simpl.
  - now apply HasPrefix_split.
  - now exists key.
Qed.

(** ** What the commands write *)

Lemma write_entries_app (l1 l2 : list (string * string)) :
  write_entries (l1 ++ l2) = write_entries l1 +:+ write_entries l2.
Proof.
  induction l1 as [|[k v] l1 IH]; simpl; [reflexivity|].
  now rewrite IH, !append_assoc.
Qed.

Lemma LoadEnvFile_files (path : string) (fs : FS) (text : string) :
  <[path := text]> (LoadEnvFile path fs).2 = <[path := text]> fs.
Proof.
  unfold LoadEnvFile. simpl. destruct (fs !! path); [reflexivity|].
  apply insert_insert_eq.
Qed.

Lemma LoadEnvFile_other (path other : string) (fs : FS) :
  other <> path -> (LoadEnvFile path fs).2 !! other = fs !! other.
Proof.
  intros Hne. unfold LoadEnvFile. simpl. destruct (fs !! path); [reflexivity|].
  now apply lookup_insert_ne.
Qed.

Lemma LoadEnvFile_Path (path : string) (fs : FS) : Path (LoadEnvFile path fs).1 = path.
Proof. reflexivity. Qed.

(** The entry just added is one of the entries [SaveEnvFile] writes. *)
Lemma saved_after_add (order : MapOrder) (e : DotenvFile) (key value : string) :
  valid_order order ->
  exists kvs1 kvs2,
    order (Variables (AddOrUpdateKey e key value))
    = kvs1 ++ (ToUpper key, value) :: kvs2.
Proof.
  intros Hord. apply list_elem_of_split. rewrite (Hord _).
  apply elem_of_map_to_list. unfold AddOrUpdateKey. simpl. apply lookup_insert_eq.
Qed.

Lemma paths_differ (dir : string) :
  filepath_Join dir "env.d.ts" <> filepath_Join dir ".env".
Proof.
  unfold filepath_Join. intros H. apply (inj (String.app dir)) in H. discriminate.
Qed.


(** C10: [EnsureExpoPrefix] is idempotent, its result always begins with
    [EXPO_PUBLIC_], and the key under which [env add] stores a value in an
    initialized Expo project begins with it too: the command ends with its
    message of success and the primary file holds the line of that key and
    the value. *)
Theorem C10_expo_prefix :
  (forall key, EnsureExpoPrefix (EnsureExpoPrefix key) = EnsureExpoPrefix key) /\
  (forall key, HasPrefix (EnsureExpoPrefix key) "EXPO_PUBLIC_" = true) /\
  (forall key value (order : MapOrder) projectPath w cfg,
      config w = Ok cfg -> EnvInitialized cfg = true -> ProjectType cfg = "expo" ->
      valid_order order ->
      exists stored kvs1 kvs2,
        stored = ToUpper (EnsureExpoPrefix key) /\
        HasPrefix stored "EXPO_PUBLIC_" = true /\
        envAddCmd (Ok (key, value)) order projectPath w
        = Some (["Environment variable added successfully."],
                {| files := <[filepath_Join projectPath ".env" :=
                                write_entries (kvs1 ++ (stored, value) :: kvs2)]> (files w);
                   config := config w |})).
Proof.
  assert (Hprefix : forall key, HasPrefix (EnsureExpoPrefix key) "EXPO_PUBLIC_" = true).
  { intros key. destruct (EnsureExpoPrefix_shape key) as [t ->]. apply HasPrefix_append. }
  split; [|split].
  - intros key. unfold EnsureExpoPrefix at 1. now rewrite Hprefix.
  - exact Hprefix.
  - intros key value order projectPath w cfg Hcfg Hinit Hexpo Hord.
    unfold envAddCmd, CheckEnvInitialized, LoadConfig. rewrite Hcfg, Hinit, Hexpo.
    change (String.eqb "expo" "expo") with true. cbv iota.
    pose proof (LoadEnvFile_Path (filepath_Join projectPath ".env") (files w)) as Hpath.
    pose proof (LoadEnvFile_files (filepath_Join projectPath ".env") (files w)) as Hfiles.
    destruct (LoadEnvFile (filepath_Join projectPath ".env") (files w)) as [envFile fs1].
    simpl in Hpath, Hfiles.
    destruct (saved_after_add order envFile (EnsureExpoPrefix key) value Hord)
      as (kvs1 & kvs2 & Hsaved).
    exists (ToUpper (EnsureExpoPrefix key)), kvs1, kvs2.
    split; [reflexivity|]. split.
    + destruct (EnsureExpoPrefix_shape key) as [t ->].
      rewrite ToUpper_keeps_expo_prefix. apply HasPrefix_append.
    + change (String.eqb "expo" "bare") with false. cbv iota.
      unfold SaveEnvFile. rewrite Hsaved.
      change (Path (AddOrUpdateKey envFile (EnsureExpoPrefix key) value))
        with (Path envFile).
      now rewrite Hpath, Hfiles.
Qed.

(** C8: in a project whose configuration says the environment is not
    initialized, [env add], [env update] and [env remove] each print the one
    message that the environment is not initialized and return at once:
    nothing is asked of the user, no file is created or changed, and the
    check is made once. *)
Theorem C8_uninitialized_is_refused (projectPath : string) (w : World)
    (cfg : ProjectConfig) :
  config w = Ok cfg ->
  EnvInitialized cfg = false ->
  (forall prompt order,
      envAddCmd prompt order projectPath w = Some ([notInitialized], w)) /\
  (forall select newValue listOrder order,
      envUpdateCmd select newValue listOrder order projectPath w
      = Some ([notInitialized], w)) /\
  (forall select listOrder order,
      envRemoveCmd select listOrder order projectPath w
      = Some ([notInitialized], w)).
Proof.
  intros Hcfg Hinit. repeat split; intros;
    unfold envAddCmd, envUpdateCmd, envRemoveCmd, CheckEnvInitialized, LoadConfig;
    now rewrite Hcfg, Hinit.
Qed.


Lemma ToUpper_api_url : ToUpper "api_url" = "API_URL".
Proof. reflexivity. Qed.



Lemma declarationLine_matches (key : string) :
  ToUpper key = key -> Contains (declarationLine key) (exportConst key) = true.
Proof.
  intros Hup. unfold declarationLine, exportConst. rewrite Hup.
  change ("  export const " +:+ key +:+ ": string;")
    with ("  " +:+ ("export const " +:+ key) +:+ ": string;").
  apply Contains_append_l, Contains_prefix, HasPrefix_append.
Qed.

(** For a key that is already in upper case the search does find the line
    an upsert wrote: a second upsert of the key changes no line. *)
Lemma upsert_again_upper_case (content content' : list string) (key : string) :
  ToUpper key = key -> key <> EmptyString ->
  update_lines content key false = Some content' ->
  update_lines content' key false = Some content'.
Proof.
  intros Hup Hkey. pose proof (declarationLine_matches key Hup) as Hmatch.
  unfold update_lines at 1.
  destruct (find_line content (exportConst key)) as [i|] eqn:E.
  - intros H; inversion H; subst; clear H.
    pose proof (find_line_lt _ _ _ E) as Hlt.
    apply find_line_Some in E as [_ Hbefore].
    assert (Hfind : find_line (<[i := declarationLine key]> content) (exportConst key)
                    = Some i).
    { apply find_line_Some. split.
      - exists (declarationLine key). split; [|exact Hmatch].
        now apply list_lookup_insert_eq.
      - intros j line Hj Hl. rewrite list_lookup_insert_ne in Hl by lia.
        now apply (Hbefore j). }
    unfold update_lines. rewrite Hfind. f_equal. apply list_insert_insert_eq.
  - apply String.eqb_neq in Hkey. rewrite Hkey.
    destruct content as [|x content]; [discriminate|].
    remember (take (length (x :: content) - 1) (x :: content)) as kept eqn:Hkept.
    intros H. injection H as <-.
    assert (Hnone : find_line kept (exportConst key) = None).
    { apply find_line_None. intros line Hin. rewrite Hkept in Hin.
      apply elem_of_take in Hin as (j & Hj & _).
      eapply find_line_None; [exact E|]. eapply list_elem_of_lookup_2, Hj. }
    assert (Hfind : find_line (kept ++ [declarationLine key; "}"]) (exportConst key)
                    = Some (length kept)).
    { clear -Hnone Hmatch. induction kept as [|y kept IH].
      - simpl app. rewrite find_line_cons, Hmatch. reflexivity.
      - rewrite <- app_comm_cons, find_line_cons. rewrite find_line_cons in Hnone.
        destruct (Contains y (exportConst key)); [discriminate|].
        destruct (find_line kept (exportConst key)); [discriminate|].
        now rewrite IH. }
    unfold update_lines. rewrite Hfind. f_equal.
    rewrite insert_app_r_alt by lia. now rewrite Nat.sub_diag.
Qed.

(** C2, on the input where the code departs from the claim: two upserts of
    the lower-case key [api_url] into a fresh mirror.  The store ends with
    the second value under [API_URL], and the mirror with two declaration
    lines for [API_URL]: the search looks for the key as typed, the line
    written spells it in upper case, so the second upsert does not find
    the line of the first. *)
Theorem C2_lower_case_key_is_declared_twice :
  Variables (AddOrUpdateKey
               (AddOrUpdateKey {| Path := "/app/.env"; Variables := ∅ |} "api_url" "1")
               "api_url" "2") !! "API_URL" = Some "2" /\
  (UpdateEnvDTS "/app" "api_url" "1" false ∅
     ≫= UpdateEnvDTS "/app" "api_url" "2" false)
  = Some {[ "/app/env.d.ts" :=
              Join [envModuleHeader;
                    "  export const API_URL: string;";
                    "  export const API_URL: string;";
                    "}"] nl ]}.
Proof. split; vm_compute; reflexivity. Qed.

(** C4, on the input where the code departs from the claim: after
    [AddOrUpdateKey] and [RemoveKey] with the same lower-case key
    [api_url], the store still holds the value under [API_URL]:
    [AddOrUpdateKey] upper-cases the key, [RemoveKey] deletes the key as
    given. *)
Theorem C4_remove_is_case_sensitive (e : DotenvFile) (value : string) :
  Variables (RemoveKey (AddOrUpdateKey e "api_url" value) "api_url") !! ToUpper "api_url"
  = Some value.
Proof.
  unfold RemoveKey, AddOrUpdateKey. simpl Variables. rewrite ToUpper_api_url.
  rewrite lookup_delete_ne by discriminate. apply lookup_insert_eq.
Qed.

Lemma example_mirror_well_formed : well_formed_file example_mirror.
Proof.
  split; [|left; vm_compute; reflexivity].
  exists ["  export const API_URL: string;"]. split; [vm_compute; reflexivity|].
  constructor; [|constructor]. exists "API_URL". split; reflexivity.
Qed.

(** C6, on inputs where the code departs from the claim: the well-formed
    mirror that declares [API_URL] and nothing else.  No line of it
    declares [API], yet the upsert of [API] adds no line: it overwrites the
    declaration of [API_URL], which is gone afterwards, because the text
    searched for, [export const API], is the beginning of that
    declaration.  And the declaration of [API_URL] is not replaced in place
    by the upsert of [api_url]: the text searched for spells the key as it
    was typed, the line spells it in upper case, and a second declaration
    of [API_URL] is added. *)
Theorem C6_upsert_overwrites_another_key :
  well_formed_file example_mirror /\
  scanLines example_mirror
  = [envModuleHeader; "  export const API_URL: string;"; "}"] /\
  UpdateEnvDTS "/app" "API" "1" false example_files
  = Some {[ "/app/env.d.ts" :=
              Join [envModuleHeader; "  export const API: string;"; "}"] nl ]} /\
  UpdateEnvDTS "/app" "api_url" "1" false example_files
  = Some {[ "/app/env.d.ts" :=
              Join [envModuleHeader;
                    "  export const API_URL: string;";
                    "  export const API_URL: string;";
                    "}"] nl ]}.
Proof.
  split; [exact example_mirror_well_formed|].
  repeat split; vm_compute; reflexivity.
Qed.

(** C7, on an input where the code departs from the claim: the same
    mirror, which declares [API_URL] and nothing else, and the key [API],
    which no line declares.  The remove of [API] is not a no-op: it deletes
    the declaration of [API_URL], because the text searched for,
    [export const API], is the beginning of that declaration.  [env remove]
    does so in a bare project whose primary file holds [API] and [API_URL]:
    when [API] is chosen, the primary file keeps [API_URL] and the mirror
    loses the declaration of [API_URL]. *)
Theorem C7_remove_deletes_another_key :
  scanLines example_mirror
  = [envModuleHeader; "  export const API_URL: string;"; "}"] /\
  UpdateEnvDTS "/app" "API" "" true example_files
  = Some {[ "/app/env.d.ts" := Join [envModuleHeader; "}"] nl ]} /\
  envRemoveCmd (fun keys => Ok "API") map_to_list map_to_list "/app"
    {| files := {[ "/app/.env" := "API=1" +:+ nl +:+ "API_URL=http://x" +:+ nl;
                   "/app/env.d.ts" := example_mirror ]};
       config := Ok (example_config "bare" true) |}
  = Some (["Environment variable removed successfully."],
          {| files := {[ "/app/.env" := "API_URL=http://x" +:+ nl;
                         "/app/env.d.ts" := Join [envModuleHeader; "}"] nl ]};
             config := Ok (example_config "bare" true) |}).
Proof. repeat split; vm_compute; reflexivity. Qed.



(** * Further properties of the code *)

(** ** The store *)

(** X1: whatever order the map is walked in, [ListKeys] returns every key
    of the store exactly once and nothing else. *)
Theorem ListKeys_every_key_once (order : MapOrder) (e : DotenvFile) :
  valid_order order ->
  NoDup (ListKeys order e) /\
  (forall key, key ∈ ListKeys order e <-> is_Some (Variables e !! key)) /\
  length (ListKeys order e) = size (Variables e).
Proof.
  intros Hord. unfold ListKeys. split; [|split].
  - rewrite (Hord _). apply NoDup_fst_map_to_list.
  - intros key. rewrite (Hord _), list_elem_of_fmap. split.
    + intros ([k v] & -> & Hin). apply elem_of_map_to_list in Hin. now exists v.
    + intros [v Hv]. exists (key, v). split; [reflexivity|].
      now apply elem_of_map_to_list.
  - rewrite length_fmap, (Hord _). apply length_map_to_list.
Qed.

(** X2: [LoadEnvFile] changes no file that exists.  A missing file is
    created empty and gives the empty store; loading a second time gives
    the same store and changes nothing more. *)
Theorem LoadEnvFile_only_creates (path : string) (fs : FS) :
  (forall other, other <> path -> (LoadEnvFile path fs).2 !! other = fs !! other) /\
  (forall text, fs !! path = Some text -> (LoadEnvFile path fs).2 = fs) /\
  (fs !! path = None ->
   Variables (LoadEnvFile path fs).1 = ∅ /\
   (LoadEnvFile path fs).2 = <[path := EmptyString]> fs) /\
  LoadEnvFile path (LoadEnvFile path fs).2 = LoadEnvFile path fs.
Proof.
  split; [|split; [|split]].
  - intros other Hne. now apply LoadEnvFile_other.
  - intros text Hf. unfold LoadEnvFile. simpl. now rewrite Hf.
  - intros Hf. unfold LoadEnvFile. simpl. rewrite Hf, lookup_insert_eq. now split.
  - unfold LoadEnvFile. simpl. destruct (fs !! path) as [text|] eqn:Hf.
    + rewrite ?Hf. reflexivity.
    + rewrite ?lookup_insert_eq. reflexivity.
Qed.

(** X3: [AddOrUpdateKey] overwrites: adding a key twice is adding it once
    with the second value, and no other key is touched.  [RemoveKey] with
    the upper-cased key undoes it: the key is gone, and a store that did
    not hold the key is back as it was. *)
Theorem AddOrUpdateKey_then_RemoveKey (e : DotenvFile) (key v1 v2 : string) :
  AddOrUpdateKey (AddOrUpdateKey e key v1) key v2 = AddOrUpdateKey e key v2 /\
  (forall other, other <> ToUpper key ->
                 Variables (AddOrUpdateKey e key v1) !! other = Variables e !! other) /\
  Variables (RemoveKey (AddOrUpdateKey e key v1) (ToUpper key)) !! ToUpper key = None /\
  (Variables e !! ToUpper key = None ->
   RemoveKey (AddOrUpdateKey e key v1) (ToUpper key) = e).
Proof.
  destruct e as [path vars]. unfold AddOrUpdateKey, RemoveKey. simpl.
  split; [|split; [|split]].
  - now rewrite insert_insert_eq.
  - intros other Hne. now apply lookup_insert_ne.
  - apply lookup_delete_eq.
  - intros Hnone. rewrite delete_insert_eq. now rewrite delete_id.
Qed.

(** ** The mirror *)

(** X4: after [EnsureCorrectEnvDTSStructure] the declaration file exists
    and contains the opening line; a file that already did is left alone,
    no other file is touched, and a second check changes nothing. *)
Theorem Ensure_establishes_opening_line (envPath : string) (fs : FS) :
  (exists text,
      EnsureCorrectEnvDTSStructure envPath fs !! filepath_Join envPath "env.d.ts"
      = Some text /\ Contains text envModuleHeader = true) /\
  (forall text, fs !! filepath_Join envPath "env.d.ts" = Some text ->
                Contains text envModuleHeader = true ->
                EnsureCorrectEnvDTSStructure envPath fs = fs) /\
  (forall other, other <> filepath_Join envPath "env.d.ts" ->
                 EnsureCorrectEnvDTSStructure envPath fs !! other = fs !! other) /\
  EnsureCorrectEnvDTSStructure envPath (EnsureCorrectEnvDTSStructure envPath fs)
  = EnsureCorrectEnvDTSStructure envPath fs.
Proof.
  assert (Hinit : Contains initialEnvDTS envModuleHeader = true) by reflexivity.
  assert (Hcases :
    (exists text, fs !! filepath_Join envPath "env.d.ts" = Some text /\
                  Contains text envModuleHeader = true /\
                  EnsureCorrectEnvDTSStructure envPath fs = fs) \/
    EnsureCorrectEnvDTSStructure envPath fs
    = <[filepath_Join envPath "env.d.ts" := initialEnvDTS]> fs).
  { destruct (fs !! filepath_Join envPath "env.d.ts") as [text|] eqn:Hf.
    - destruct (Contains text envModuleHeader) eqn:Hc.
      + left. exists text. repeat split; [exact Hc|]. now apply (Ensure_keeps _ text).
      + right. apply Ensure_resets. right. now exists text.
    - right. apply Ensure_resets. now left. }
  split; [|split; [|split]].
  - destruct Hcases as [(text & Hf & Hc & ->)| ->].
    + now exists text.
    + exists initialEnvDTS. now rewrite lookup_insert_eq.
  - intros text Hf Hc. now apply (Ensure_keeps _ text).
  - intros other Hne. destruct Hcases as [(text & Hf & Hc & ->)| ->];
      [reflexivity | now apply lookup_insert_ne].
  - destruct Hcases as [(text & Hf & Hc & ->)| ->].
    + now apply (Ensure_keeps _ text).
    + apply (Ensure_keeps _ initialEnvDTS); [apply lookup_insert_eq | exact Hinit].
Qed.

(** In a well-formed block an upsert or a remove edits the body and keeps
    the opening line and the closing brace. *)
Lemma update_lines_block (body : list string) (key : string) (isRemove : bool) :
  update_lines (envModuleHeader :: body ++ ["}"]) key isRemove
  = Some (envModuleHeader :: edited_body body key isRemove ++ ["}"]).
Proof.
  unfold update_lines, edited_body. rewrite find_line_block.
  destruct (find_line body (exportConst key)) as [j|] eqn:Ej; simpl.
  - apply find_line_lt in Ej. destruct isRemove.
    + rewrite delete_take_drop, take_app_le, drop_app_le by lia.
      now rewrite <- app_assoc.
    + now rewrite insert_app_l by exact Ej.
  - destruct isRemove; [reflexivity|]. simpl.
    destruct (String.eqb key EmptyString); [reflexivity|].
    replace (length (body ++ ["}"]) - 0)%nat
      with (length (envModuleHeader :: body)) by (rewrite length_app; simpl; lia).
    change (envModuleHeader :: body ++ ["}"]) with ((envModuleHeader :: body) ++ ["}"]).
    rewrite take_app_length. simpl. now rewrite <- app_assoc.
Qed.

Lemma edited_body_Forall (P : string -> Prop) (body : list string) (key : string)
    (isRemove : bool) :
  Forall P body -> (isRemove = false -> P (declarationLine key)) ->
  Forall P (edited_body body key isRemove).
Proof.
  intros Hbody Hdecl. unfold edited_body.
  destruct (find_line body (exportConst key)) as [j|].
  - destruct isRemove.
    + rewrite delete_take_drop. apply Forall_app. split;
        auto using Forall_take, Forall_drop.
    + apply Forall_insert; auto.
  - destruct isRemove; [exact Hbody|]. simpl.
    destruct (String.eqb key EmptyString); [exact Hbody|].
    apply Forall_app. split; [exact Hbody|]. constructor; auto.
Qed.

(** What [UpdateEnvDTS] does to a well-formed file, and that the lines it
    writes are read back as they are. *)
Lemma UpdateEnvDTS_block (envPath key value : string) (isRemove : bool) (fs : FS)
    (text : string) (body : list string) :
  fs !! filepath_Join envPath "env.d.ts" = Some text ->
  well_formed_file text ->
  scanLines text = envModuleHeader :: body ++ ["}"] ->
  (isRemove = false ->
   has_byte LF (ToUpper key) = false /\ fits_scanner (declarationLine key)) ->
  UpdateEnvDTS envPath key value isRemove fs
  = Some (<[filepath_Join envPath "env.d.ts" :=
              Join (envModuleHeader :: edited_body body key isRemove ++ ["}"]) nl]> fs) /\
  scanLines (Join (envModuleHeader :: edited_body body key isRemove ++ ["}"]) nl)
  = envModuleHeader :: edited_body body key isRemove ++ ["}"] /\
  Contains (Join (envModuleHeader :: edited_body body key isRemove ++ ["}"]) nl)
    envModuleHeader = true.
Proof.
  intros Hf Hwf Hbody Hkey.
  rewrite (UpdateEnvDTS_existing _ _ _ _ _ _ Hf (well_formed_file_header _ Hwf)).
  pose proof (scan_from_fits text EmptyString fits_scanner_empty) as Hfits.
  fold (scanLines text) in Hfits.
  destruct Hwf as [(body' & Hbody' & Hdecl) _].
  rewrite Hbody in *.
  injection Hbody' as Heq. apply app_inj_tail in Heq as [<- _].
  apply Forall_cons in Hfits as [_ Hfits].
  apply Forall_app in Hfits as [Hfits _].
  assert (Hd : Forall declaration (edited_body body key isRemove)).
  { apply edited_body_Forall; [exact Hdecl|]. intros H.
    apply declarationLine_declaration. now apply Hkey. }
  assert (Hs : Forall fits_scanner (edited_body body key isRemove)).
  { apply edited_body_Forall; [exact Hfits|]. intros H. now apply Hkey. }
  rewrite update_lines_block. split; [reflexivity|]. split.
  - now apply block_rescan.
  - apply well_formed_file_header. now apply block_written_well_formed.
Qed.

Lemma find_line_app_fresh (l l' : list string) (needle : string) :
  find_line l needle = None ->
  find_line (l ++ l') needle = (fun j => length l + j)%nat <$> find_line l' needle.
Proof.
  induction l as [|x l IH]; intros H; simpl app.
  - simpl. now destruct (find_line l' needle).
  - rewrite find_line_cons in *. destruct (Contains x needle); [discriminate|].
    destruct (find_line l needle) as [i|] eqn:E; [discriminate|].
    rewrite IH by reflexivity. now destruct (find_line l' needle).
Qed.

(** X5: the remove deletes one line, the first that contains [export const]
    and the key: the mirror is written back one line shorter, the lines
    before that one where they were, the lines after it moved up by one. *)
Theorem UpdateEnvDTS_remove_first_match (envPath key value : string) (fs : FS)
    (text line : string) (i : nat) :
  fs !! filepath_Join envPath "env.d.ts" = Some text ->
  Contains text envModuleHeader = true ->
  scanLines text !! i = Some line ->
  Contains line (exportConst key) = true ->
  (forall j earlier, (j < i)%nat -> scanLines text !! j = Some earlier ->
                     Contains earlier (exportConst key) = false) ->
  exists content',
    UpdateEnvDTS envPath key value true fs
    = Some (<[filepath_Join envPath "env.d.ts" := Join content' nl]> fs) /\
    S (length content') = length (scanLines text) /\
    (forall j, (j < i)%nat -> content' !! j = scanLines text !! j) /\
    (forall j, (i <= j)%nat -> content' !! j = scanLines text !! S j).
Proof.
  intros Hf Hc Hi Hline Hfirst.
  assert (Hfind : find_line (scanLines text) (exportConst key) = Some i).
  { apply find_line_Some. split; [now exists line | exact Hfirst]. }
  exists (delete i (scanLines text)).
  rewrite (UpdateEnvDTS_existing _ _ _ _ _ _ Hf Hc). unfold update_lines.
  rewrite Hfind, <- delete_take_drop. split; [reflexivity|].
  pose proof (lookup_lt_Some _ _ _ Hi) as Hlt. split; [|split].
  - rewrite length_delete by (now exists line). lia.
  - intros j Hj. now apply list_lookup_delete_lt.
  - intros j Hj. now apply list_lookup_delete_ge.
Qed.

(** X6: in a well-formed file, declaring a new key that is already in upper
    case and removing it again gives back the lines the file had. *)
Theorem UpdateEnvDTS_upsert_then_remove (envPath key v1 v2 : string) (fs : FS)
    (text : string) :
  fs !! filepath_Join envPath "env.d.ts" = Some text ->
  well_formed_file text ->
  ToUpper key = key -> key <> EmptyString ->
  has_byte LF key = false -> fits_scanner (declarationLine key) ->
  (forall line, line ∈ scanLines text -> Contains line (exportConst key) = false) ->
  exists fs1,
    UpdateEnvDTS envPath key v1 false fs = Some fs1 /\
    UpdateEnvDTS envPath key v2 true fs1
    = Some (<[filepath_Join envPath "env.d.ts" := Join (scanLines text) nl]> fs).
Proof.
  intros Hf Hwf Hup Hkey Hlf Hfit Hfresh.
  destruct (proj1 Hwf) as (body & Hbody & Hdecl).
  assert (Hcond : false = false ->
                  has_byte LF (ToUpper key) = false /\ fits_scanner (declarationLine key))
    by (intros _; now rewrite Hup).
  destruct (UpdateEnvDTS_block envPath key v1 false fs text body Hf Hwf Hbody Hcond)
    as (Hrun & Hscan & Hhead).
  apply find_line_None in Hfresh. rewrite Hbody, find_line_block in Hfresh.
  assert (Hnone : find_line body (exportConst key) = None)
    by (destruct (find_line body (exportConst key)); [discriminate | reflexivity]).
  assert (Hedit : edited_body body key false = body ++ [declarationLine key]).
  { unfold edited_body. rewrite Hnone. simpl.
    apply String.eqb_neq in Hkey. now rewrite Hkey. }
  rewrite Hedit in *. eexists. split; [exact Hrun|].
  rewrite (UpdateEnvDTS_existing envPath key v2 true _ _ (lookup_insert_eq _ _ _) Hhead).
  rewrite Hscan, update_lines_block. unfold edited_body.
  rewrite (find_line_app_fresh _ _ _ Hnone), find_line_cons.
  rewrite (declarationLine_matches key Hup). simpl.
  rewrite Nat.add_0_r, delete_middle, app_nil_r, insert_insert_eq.
  now rewrite Hbody.
Qed.

(** X7: in a well-formed file an upsert of a key that is already in upper
    case is idempotent: a second upsert, with whatever value, leaves every
    file as the first one left it. *)
Theorem UpdateEnvDTS_upsert_twice (envPath key v1 v2 : string) (fs : FS)
    (text : string) :
  fs !! filepath_Join envPath "env.d.ts" = Some text ->
  well_formed_file text ->
  ToUpper key = key -> key <> EmptyString ->
  has_byte LF key = false -> fits_scanner (declarationLine key) ->
  exists fs1,
    UpdateEnvDTS envPath key v1 false fs = Some fs1 /\
    UpdateEnvDTS envPath key v2 false fs1 = Some fs1.
Proof.
  intros Hf Hwf Hup Hkey Hlf Hfit.
  destruct (proj1 Hwf) as (body & Hbody & Hdecl).
  assert (Hcond : false = false ->
                  has_byte LF (ToUpper key) = false /\ fits_scanner (declarationLine key))
    by (intros _; now rewrite Hup).
  destruct (UpdateEnvDTS_block envPath key v1 false fs text body Hf Hwf Hbody Hcond)
    as (Hrun & Hscan & Hhead).
  eexists. split; [exact Hrun|].
  rewrite (UpdateEnvDTS_existing envPath key v2 false _ _ (lookup_insert_eq _ _ _) Hhead).
  rewrite Hscan.
  rewrite (upsert_again_upper_case (envModuleHeader :: body ++ ["}"]) _ key Hup Hkey
             (update_lines_block body key false)).
  now rewrite insert_insert_eq.
Qed.

Lemma update_lines_returns (content : list string) (key : string) (isRemove : bool) :
  isRemove = true \/ content <> [] -> is_Some (update_lines content key isRemove).
Proof.
  intros H. unfold update_lines. destruct isRemove.
  - destruct (find_line content (exportConst key)); eauto.
  - destruct (find_line content (exportConst key)); [eauto|].
    destruct (String.eqb key EmptyString); [eauto|].
    destruct content; [|eauto]. now destruct H.
Qed.

Lemma scanLines_nonempty (text : string) :
  text <> EmptyString -> fits_scanner (first_line text) -> scanLines text <> [].
Proof.
  intros Hne Hfit. unfold first_line in Hfit. unfold scanLines.
  destruct (cut_at LF text) as [[l rest]|] eqn:Hcut.
  - apply cut_at_Some in Hcut as [-> Hl].
    rewrite scan_from_line; [discriminate | exact Hl | now rewrite str_app_nil_l].
  - apply cut_at_None in Hcut.
    rewrite scan_from_end; [discriminate | exact Hcut | now rewrite str_app_nil_l |].
    now rewrite str_app_nil_l.
Qed.

Lemma UpdateEnvDTS_written (envPath key value : string) (isRemove : bool) (fs : FS) :
  isRemove = true \/
  scanLines (default EmptyString
               (EnsureCorrectEnvDTSStructure envPath fs !! filepath_Join envPath "env.d.ts"))
  <> [] ->
  is_Some (UpdateEnvDTS envPath key value isRemove fs).
Proof.
  intros H. unfold UpdateEnvDTS.
  destruct (update_lines_returns _ key isRemove H) as [c ->]. eauto.
Qed.

Lemma UpdateEnvDTS_reset_returns (envPath key value : string) (fs : FS) :
  (fs !! filepath_Join envPath "env.d.ts" = None \/
   exists text, fs !! filepath_Join envPath "env.d.ts" = Some text /\
                Contains text envModuleHeader = false) ->
  is_Some (UpdateEnvDTS envPath key value false fs).
Proof.
  intros Hfile. apply UpdateEnvDTS_written. right.
  rewrite (Ensure_resets envPath fs Hfile), lookup_insert_eq. discriminate.
Qed.

Lemma UpdateEnvDTS_first_line_returns (envPath key value text : string) (fs : FS) :
  fs !! filepath_Join envPath "env.d.ts" = Some text ->
  fits_scanner (first_line text) ->
  is_Some (UpdateEnvDTS envPath key value false fs).
Proof.
  intros Hf Hfit. destruct (Contains text envModuleHeader) eqn:Hc.
  - apply UpdateEnvDTS_written. right.
    rewrite (Ensure_keeps envPath text fs Hf Hc), Hf. simpl.
    apply scanLines_nonempty; [|exact Hfit]. intros ->. discriminate.
  - apply UpdateEnvDTS_reset_returns. right. now exists text.
Qed.

Lemma UpdateEnvDTS_readable_returns (envPath key value : string) (isRemove : bool)
    (fs : FS) :
  mirror_readable envPath fs -> is_Some (UpdateEnvDTS envPath key value isRemove fs).
Proof.
  intros Hm. destruct isRemove; [apply UpdateEnvDTS_written; now left|].
  destruct (fs !! filepath_Join envPath "env.d.ts") as [text|] eqn:Hf.
  - eapply UpdateEnvDTS_first_line_returns; [exact Hf | now apply Hm].
  - apply UpdateEnvDTS_reset_returns. now left.
Qed.

(** X8: [UpdateEnvDTS] returns, without a panic of the runtime, for every
    remove, for every file that is absent or lacks the opening line, and
    for every file whose first line fits the buffer of the scanner. *)
Theorem UpdateEnvDTS_returns (envPath key value : string) (fs : FS) :
  is_Some (UpdateEnvDTS envPath key value true fs) /\
  ((fs !! filepath_Join envPath "env.d.ts" = None \/
    exists text, fs !! filepath_Join envPath "env.d.ts" = Some text /\
                 Contains text envModuleHeader = false) ->
   is_Some (UpdateEnvDTS envPath key value false fs)) /\
  (forall text, fs !! filepath_Join envPath "env.d.ts" = Some text ->
                fits_scanner (first_line text) ->
                is_Some (UpdateEnvDTS envPath key value false fs)).
Proof.
  split; [|split].
  - apply UpdateEnvDTS_written. now left.
  - apply UpdateEnvDTS_reset_returns.
  - intros text. apply UpdateEnvDTS_first_line_returns.
Qed.

Lemma Ensure_other (envPath other : string) (fs : FS) :
  other <> filepath_Join envPath "env.d.ts" ->
  EnsureCorrectEnvDTSStructure envPath fs !! other = fs !! other.
Proof.
  intros Hne. unfold EnsureCorrectEnvDTSStructure.
  destruct (fs !! filepath_Join envPath "env.d.ts");
    destruct (negb _); now rewrite ?lookup_insert_ne by congruence.
Qed.

Lemma UpdateEnvDTS_other (envPath key value other : string) (isRemove : bool)
    (fs fs' : FS) :
  UpdateEnvDTS envPath key value isRemove fs = Some fs' ->
  other <> filepath_Join envPath "env.d.ts" ->
  fs' !! other = fs !! other.
Proof.
  unfold UpdateEnvDTS. intros H Hne.
  destruct (update_lines _ key isRemove); [|discriminate].
  injection H as <-. rewrite lookup_insert_ne by congruence.
  now apply Ensure_other.
Qed.

(** X9: a call of [UpdateEnvDTS] that returns has written the mirror and
    nothing else: the mirror is there afterwards, every other file is as it
    was. *)
Theorem UpdateEnvDTS_touches_only_the_mirror (envPath key value : string)
    (isRemove : bool) (fs fs' : FS) :
  UpdateEnvDTS envPath key value isRemove fs = Some fs' ->
  is_Some (fs' !! filepath_Join envPath "env.d.ts") /\
  (forall other, other <> filepath_Join envPath "env.d.ts" ->
                 fs' !! other = fs !! other).
Proof.
  intros H. split.
  - unfold UpdateEnvDTS in H.
    destruct (update_lines _ key isRemove) as [content|]; [|discriminate].
    injection H as <-. rewrite lookup_insert_eq. eauto.
  - intros other. now apply (UpdateEnvDTS_other _ _ _ _ _ _ _ H).
Qed.

(** X10: the search is for a piece of text, not for a key: the declaration
    of a longer key that begins with [key] is found too.  In a well-formed
    file in which that is the first such line, a remove of [key] deletes
    the declaration of the longer key and an upsert of [key] overwrites
    it. *)
Theorem UpdateEnvDTS_hits_longer_key (envPath key suffix value : string)
    (isRemove : bool) (fs : FS) (text : string) (before after : list string) :
  fs !! filepath_Join envPath "env.d.ts" = Some text ->
  well_formed_file text ->
  scanLines text
  = envModuleHeader :: (before ++ declarationLine (key +:+ suffix) :: after) ++ ["}"] ->
  ToUpper (key +:+ suffix) = key +:+ suffix ->
  (forall line, line ∈ before -> Contains line (exportConst key) = false) ->
  (isRemove = false ->
   has_byte LF (ToUpper key) = false /\ fits_scanner (declarationLine key)) ->
  UpdateEnvDTS envPath key value isRemove fs
  = Some (<[filepath_Join envPath "env.d.ts" :=
              Join (envModuleHeader ::
                    (before ++ (if isRemove then [] else [declarationLine key]) ++ after)
                    ++ ["}"]) nl]> fs).
Proof.
  intros Hf Hwf Hbody Hup Hbefore Hkey.
  destruct (UpdateEnvDTS_block envPath key value isRemove fs text _ Hf Hwf Hbody Hkey)
    as (-> & _).
  assert (Hmatch : Contains (declarationLine (key +:+ suffix)) (exportConst key) = true).
  { unfold declarationLine, exportConst. rewrite Hup.
    change ("  export const " +:+ (key +:+ suffix) +:+ ": string;")
      with ("  " +:+ ("export const " +:+ (key +:+ suffix) +:+ ": string;")).
    rewrite (append_assoc key suffix), <- (append_assoc "export const " key).
    apply Contains_append_l, Contains_prefix, HasPrefix_append. }
  apply find_line_None in Hbefore. unfold edited_body.
  rewrite (find_line_app_fresh _ _ _ Hbefore), find_line_cons, Hmatch. simpl.
  rewrite Nat.add_0_r. destruct isRemove.
  - now rewrite delete_middle.
  - rewrite insert_app_r_alt by lia. now rewrite Nat.sub_diag.
Qed.

(** ** The store as the next command finds it *)

(** A store whose entries are all storable is read back as it was saved. *)
Lemma saved_is_loaded (order : MapOrder) (path : string) (vars : gmap string string)
    (fs : FS) :
  valid_order order ->
  (forall k v, vars !! k = Some v -> storable k v) ->
  Variables (LoadEnvFile path (<[path := write_entries (order vars)]> fs)).1 = vars.
Proof.
  intros Hord Hst. apply map_eq. intros k. unfold LoadEnvFile.
  rewrite lookup_insert_eq. simpl. rewrite lookup_insert_eq. simpl.
  assert (Hmem : forall k v, (k, v) ∈ order vars <-> vars !! k = Some v).
  { intros k' v'. rewrite (Hord vars). apply elem_of_map_to_list. }
  assert (Hall : Forall (fun kv => storable kv.1 kv.2) (order vars)).
  { apply Forall_forall. intros [k' v'] Hin. apply Hst. now apply Hmem. }
  rewrite scan_write_entries, fold_load_entries by exact Hall.
  destruct (vars !! k) as [v|] eqn:Hk.
  - apply fold_insert_member; [|now apply Hmem].
    rewrite (Hord vars). apply NoDup_fst_map_to_list.
  - rewrite fold_insert_fresh; [apply lookup_empty|].
    intros Hin. apply list_elem_of_fmap in Hin as ([k' v'] & -> & Hin).
    apply Hmem in Hin. simpl in *. congruence.
Qed.

Lemma mirror_readable_loaded (projectPath : string) (fs : FS) :
  mirror_readable projectPath fs ->
  mirror_readable projectPath (LoadEnvFile (filepath_Join projectPath ".env") fs).2.
Proof.
  intros H text. rewrite LoadEnvFile_other by apply paths_differ. apply H.
Qed.

(** What the three commands do once the key is settled: the mirror is
    brought up to date in a bare project, then the store is saved. *)
Lemma mirror_then_save (order : MapOrder) (projectPath projectType key value : string)
    (isRemove : bool) (vars : gmap string string) (fs : FS) :
  valid_order order ->
  (projectType = "bare" -> mirror_readable projectPath fs) ->
  (forall k v, vars !! k = Some v -> storable k v) ->
  exists fs2,
    (if String.eqb projectType "bare"
     then UpdateEnvDTS projectPath key value isRemove
            (LoadEnvFile (filepath_Join projectPath ".env") fs).2
     else Some (LoadEnvFile (filepath_Join projectPath ".env") fs).2) = Some fs2 /\
    loaded_store projectPath
      (<[filepath_Join projectPath ".env" := write_entries (order vars)]> fs2) = vars /\
    (forall other, other <> filepath_Join projectPath ".env" ->
                   other <> filepath_Join projectPath "env.d.ts" ->
                   (<[filepath_Join projectPath ".env" := write_entries (order vars)]> fs2)
                     !! other = fs !! other).
Proof.
  intros Hord Hmirror Hst.
  assert (Hfs2 : exists fs2,
             (if String.eqb projectType "bare"
              then UpdateEnvDTS projectPath key value isRemove
                     (LoadEnvFile (filepath_Join projectPath ".env") fs).2
              else Some (LoadEnvFile (filepath_Join projectPath ".env") fs).2) = Some fs2 /\
             forall other, other <> filepath_Join projectPath "env.d.ts" ->
                           fs2 !! other
                           = (LoadEnvFile (filepath_Join projectPath ".env") fs).2 !! other).
  { destruct (String.eqb_spec projectType "bare") as [Hb|_]; [|eauto].
    destruct (UpdateEnvDTS_readable_returns projectPath key value isRemove _
                (mirror_readable_loaded _ _ (Hmirror Hb))) as [fs2 Hfs2].
    exists fs2. split; [exact Hfs2|]. intros other.
    now apply (UpdateEnvDTS_other _ _ _ _ _ _ _ Hfs2). }
  destruct Hfs2 as (fs2 & Hrun & Hother). exists fs2. split; [exact Hrun|]. split.
  - unfold loaded_store. now apply saved_is_loaded.
  - intros other Henv Hdts. rewrite lookup_insert_ne by congruence.
    rewrite Hother by exact Hdts. now apply LoadEnvFile_other.
Qed.

(** X11: [env add] in an initialized project, of whichever variant, with
    a mirror that can be read: the command ends with its message of
    success, and the store the next command loads is the store this one
    loaded with the value under the upper-cased key (with the prefix, in an
    Expo project), provided the entries of that store are storable.  No
    file but the primary file and the mirror is changed, and the
    configuration is kept. *)
Theorem envAddCmd_is_read_back (order : MapOrder) (projectPath : string) (w : World)
    (cfg : ProjectConfig) (key value : string) :
  config w = Ok cfg -> EnvInitialized cfg = true ->
  valid_order order ->
  (ProjectType cfg = "bare" -> mirror_readable projectPath (files w)) ->
  (forall k v,
      <[ToUpper (command_key (ProjectType cfg) key) := value]>
        (loaded_store projectPath (files w)) !! k = Some v -> storable k v) ->
  exists w',
    envAddCmd (Ok (key, value)) order projectPath w
    = Some (["Environment variable added successfully."], w') /\
    config w' = config w /\
    loaded_store projectPath (files w')
    = <[ToUpper (command_key (ProjectType cfg) key) := value]>
        (loaded_store projectPath (files w)) /\
    (forall other, other <> filepath_Join projectPath ".env" ->
                   other <> filepath_Join projectPath "env.d.ts" ->
                   files w' !! other = files w !! other).
Proof.
  intros Hcfg Hinit Hord Hmirror Hst.
  destruct (mirror_then_save order projectPath (ProjectType cfg)
              (command_key (ProjectType cfg) key) value false _ (files w)
              Hord Hmirror Hst) as (fs2 & Hrun & Hload & Hother).
  unfold envAddCmd, CheckEnvInitialized, LoadConfig. rewrite Hcfg, Hinit.
  fold (command_key (ProjectType cfg) key).
  unfold loaded_store in *.
  destruct (LoadEnvFile (filepath_Join projectPath ".env") (files w))
    as [envFile fs1] eqn:El.
  assert (Hpath : Path envFile = filepath_Join projectPath ".env")
    by (now rewrite <- (LoadEnvFile_Path (filepath_Join projectPath ".env") (files w)), El).
  cbn [fst snd] in Hrun, Hload, Hother, Hst.
  unfold SaveEnvFile, AddOrUpdateKey. cbn [Path Variables]. rewrite Hpath.
  destruct (String.eqb (ProjectType cfg) "bare").
  - rewrite Hrun. eexists. split; [reflexivity|]. cbn [files config]. auto 6.
  - injection Hrun as <-. eexists. split; [reflexivity|]. cbn [files config]. auto 6.
Qed.

Lemma ListKeys_nil (order : MapOrder) (e : DotenvFile) :
  valid_order order -> ListKeys order e = [] <-> Variables e = ∅.
Proof.
  intros Hord. unfold ListKeys. split; intros H.
  - apply fmap_nil_inv in H. apply map_to_list_empty_iff.
    apply Permutation_nil. now rewrite <- (Hord _), H.
  - rewrite H. pose proof (Hord ∅) as Hp. rewrite map_to_list_empty in Hp.
    symmetry in Hp. apply Permutation_nil in Hp. now rewrite Hp.
Qed.

(** X12: [env update] in an initialized project whose store is not empty:
    the command ends with its message of success and the store the next
    command loads holds the new value under the upper-cased key (with the
    prefix, in an Expo project); when that is not the spelling of the key
    that was chosen, the entry chosen keeps its old value. *)
Theorem envUpdateCmd_is_read_back (select : list string -> result string)
    (listOrder order : MapOrder) (projectPath : string) (w : World)
    (cfg : ProjectConfig) (key value : string) :
  config w = Ok cfg -> EnvInitialized cfg = true ->
  valid_order listOrder -> valid_order order ->
  loaded_store projectPath (files w) <> ∅ ->
  select (ListKeys listOrder (LoadEnvFile (filepath_Join projectPath ".env") (files w)).1)
  = Ok key ->
  (ProjectType cfg = "bare" -> mirror_readable projectPath (files w)) ->
  (forall k v,
      <[ToUpper (command_key (ProjectType cfg) key) := value]>
        (loaded_store projectPath (files w)) !! k = Some v -> storable k v) ->
  exists w',
    envUpdateCmd select (Ok value) listOrder order projectPath w
    = Some (["Environment variable updated successfully."], w') /\
    config w' = config w /\
    loaded_store projectPath (files w')
    = <[ToUpper (command_key (ProjectType cfg) key) := value]>
        (loaded_store projectPath (files w)) /\
    (ToUpper (command_key (ProjectType cfg) key) <> key ->
     loaded_store projectPath (files w') !! key
     = loaded_store projectPath (files w) !! key) /\
    (forall other, other <> filepath_Join projectPath ".env" ->
                   other <> filepath_Join projectPath "env.d.ts" ->
                   files w' !! other = files w !! other).
Proof.
  intros Hcfg Hinit Hlist Hord Hne Hsel Hmirror Hst.
  destruct (mirror_then_save order projectPath (ProjectType cfg)
              (command_key (ProjectType cfg) key) value false _ (files w)
              Hord Hmirror Hst) as (fs2 & Hrun & Hload & Hother).
  unfold envUpdateCmd, CheckEnvInitialized, LoadConfig. rewrite Hcfg, Hinit.
  unfold loaded_store in *.
  destruct (LoadEnvFile (filepath_Join projectPath ".env") (files w))
    as [envFile fs1] eqn:El.
  assert (Hpath : Path envFile = filepath_Join projectPath ".env")
    by (now rewrite <- (LoadEnvFile_Path (filepath_Join projectPath ".env") (files w)), El).
  cbn [fst snd] in Hrun, Hload, Hother, Hst, Hne, Hsel.
  destruct (ListKeys listOrder envFile) as [|k0 ks] eqn:Ek.
  { apply (ListKeys_nil listOrder envFile Hlist) in Ek. contradiction. }
  rewrite Hsel. fold (command_key (ProjectType cfg) key).
  unfold SaveEnvFile, AddOrUpdateKey. cbn [Path Variables]. rewrite Hpath.
  assert (Hkeep : forall fs', Variables
                    (LoadEnvFile (filepath_Join projectPath ".env") fs').1
                  = <[ToUpper (command_key (ProjectType cfg) key) := value]>
                      (Variables envFile) ->
                  ToUpper (command_key (ProjectType cfg) key) <> key ->
                  Variables (LoadEnvFile (filepath_Join projectPath ".env") fs').1 !! key
                  = Variables envFile !! key).
  { intros fs' -> Hk. now apply lookup_insert_ne. }
  destruct (String.eqb (ProjectType cfg) "bare").
  - rewrite Hrun. eexists. split; [reflexivity|]. cbn [files config]. auto 6.
  - injection Hrun as <-. eexists. split; [reflexivity|]. cbn [files config]. auto 6.
Qed.

Lemma EnsureExpoPrefix_fixed (key : string) :
  EnsureExpoPrefix key = key <-> HasPrefix key "EXPO_PUBLIC_" = true.
Proof.
  unfold EnsureExpoPrefix. destruct (HasPrefix key "EXPO_PUBLIC_") eqn:E; simpl.
  - tauto.
  - split; [|discriminate]. intros H. apply (f_equal String.length) in H.
    rewrite length_append in H. simpl in H. lia.
Qed.

(** X13: [env remove] in an initialized project whose store is not empty:
    the command ends with its message of success and the store the next
    command loads is the store this one loaded without the key that was
    chosen, spelled with the prefix in an Expo project; so in an Expo
    project a key that was chosen and does not begin with the prefix is
    still there, with its value. *)
Theorem envRemoveCmd_is_read_back (select : list string -> result string)
    (listOrder order : MapOrder) (projectPath : string) (w : World)
    (cfg : ProjectConfig) (key : string) :
  config w = Ok cfg -> EnvInitialized cfg = true ->
  valid_order listOrder -> valid_order order ->
  loaded_store projectPath (files w) <> ∅ ->
  select (ListKeys listOrder (LoadEnvFile (filepath_Join projectPath ".env") (files w)).1)
  = Ok key ->
  (ProjectType cfg = "bare" -> mirror_readable projectPath (files w)) ->
  (forall k v,
      delete (command_key (ProjectType cfg) key)
        (loaded_store projectPath (files w)) !! k = Some v -> storable k v) ->
  exists w',
    envRemoveCmd select listOrder order projectPath w
    = Some (["Environment variable removed successfully."], w') /\
    config w' = config w /\
    loaded_store projectPath (files w')
    = delete (command_key (ProjectType cfg) key) (loaded_store projectPath (files w)) /\
    (ProjectType cfg = "expo" -> HasPrefix key "EXPO_PUBLIC_" = false ->
     loaded_store projectPath (files w') !! key
     = loaded_store projectPath (files w) !! key) /\
    (forall other, other <> filepath_Join projectPath ".env" ->
                   other <> filepath_Join projectPath "env.d.ts" ->
                   files w' !! other = files w !! other).
Proof.
  intros Hcfg Hinit Hlist Hord Hne Hsel Hmirror Hst.
  destruct (mirror_then_save order projectPath (ProjectType cfg)
              (command_key (ProjectType cfg) key) EmptyString true _ (files w)
              Hord Hmirror Hst) as (fs2 & Hrun & Hload & Hother).
  unfold envRemoveCmd, CheckEnvInitialized, LoadConfig. rewrite Hcfg, Hinit.
  unfold loaded_store in *.
  destruct (LoadEnvFile (filepath_Join projectPath ".env") (files w))
    as [envFile fs1] eqn:El.
  assert (Hpath : Path envFile = filepath_Join projectPath ".env")
    by (now rewrite <- (LoadEnvFile_Path (filepath_Join projectPath ".env") (files w)), El).
  cbn [fst snd] in Hrun, Hload, Hother, Hst, Hne, Hsel.
  destruct (ListKeys listOrder envFile) as [|k0 ks] eqn:Ek.
  { apply (ListKeys_nil listOrder envFile Hlist) in Ek. contradiction. }
  rewrite Hsel. fold (command_key (ProjectType cfg) key).
  unfold SaveEnvFile, RemoveKey. cbn [Path Variables]. rewrite Hpath.
  assert (Hkeep : forall fs', Variables
                    (LoadEnvFile (filepath_Join projectPath ".env") fs').1
                  = delete (command_key (ProjectType cfg) key) (Variables envFile) ->
                  ProjectType cfg = "expo" -> HasPrefix key "EXPO_PUBLIC_" = false ->
                  Variables (LoadEnvFile (filepath_Join projectPath ".env") fs').1 !! key
                  = Variables envFile !! key).
  { intros fs' -> Hexpo Hpre. apply lookup_delete_ne.
    unfold command_key. rewrite Hexpo. simpl. intros H.
    apply EnsureExpoPrefix_fixed in H. congruence. }
  destruct (String.eqb (ProjectType cfg) "bare").
  - rewrite Hrun. eexists. split; [reflexivity|]. cbn [files config]. auto 6.
  - injection Hrun as <-. eexists. split; [reflexivity|]. cbn [files config]. auto 6.
Qed.

(** X14: with a store that is empty, [env update] and [env remove] say so
    and stop; all they have done is what loading does: the primary file is
    there afterwards, empty if it was not there before. *)
Theorem update_and_remove_need_an_entry (select : list string -> result string)
    (newValue : result string) (listOrder order : MapOrder) (projectPath : string)
    (w : World) (cfg : ProjectConfig) :
  config w = Ok cfg -> EnvInitialized cfg = true ->
  valid_order listOrder ->
  loaded_store projectPath (files w) = ∅ ->
  envUpdateCmd select newValue listOrder order projectPath w
  = Some (["No environment variables found to update."],
          {| files := (LoadEnvFile (filepath_Join projectPath ".env") (files w)).2;
             config := config w |}) /\
  envRemoveCmd select listOrder order projectPath w
  = Some (["No environment variables found to remove."],
          {| files := (LoadEnvFile (filepath_Join projectPath ".env") (files w)).2;
             config := config w |}) /\
  (LoadEnvFile (filepath_Join projectPath ".env") (files w)).2
  = <[filepath_Join projectPath ".env" :=
        default EmptyString (files w !! filepath_Join projectPath ".env")]> (files w).
Proof.
  intros Hcfg Hinit Hlist Hempty.
  unfold envUpdateCmd, envRemoveCmd, CheckEnvInitialized, LoadConfig.
  rewrite Hcfg, Hinit. unfold loaded_store in Hempty.
  apply (ListKeys_nil listOrder _ Hlist) in Hempty.
  split; [|split].
  - destruct (LoadEnvFile (filepath_Join projectPath ".env") (files w))
      as [envFile fs1]. simpl in *. now rewrite Hempty.
  - destruct (LoadEnvFile (filepath_Join projectPath ".env") (files w))
      as [envFile fs1]. simpl in *. now rewrite Hempty.
  - unfold LoadEnvFile. simpl.
    destruct (files w !! filepath_Join projectPath ".env") as [text|] eqn:E;
      [|reflexivity].
    simpl. symmetry. now apply insert_id.
Qed.


(** ** The Babel configuration *)

Lemma HasPrefix_append_r (a b p : string) :
  HasPrefix a p = true -> HasPrefix (a +:+ b) p = true.
Proof.
  intros H. apply HasPrefix_split in H as [t ->].
  rewrite append_assoc. apply HasPrefix_append.
Qed.

Lemma Contains_append_r (a b sub : string) :
  Contains a sub = true -> Contains (a +:+ b) sub = true.
Proof.
  induction a as [|c a IH]; rewrite (Contains_unfold _ sub); intros H;
    apply orb_true_iff in H as [H|H]; try discriminate.
  - apply Contains_prefix. now apply (HasPrefix_append_r EmptyString).
  - apply Contains_prefix. now apply HasPrefix_append_r.
  - sapp. rewrite Contains_unfold, (IH H). apply orb_true_r.
Qed.

(** What [ReplaceAllString] returns is the source, or holds the
    insertion. *)
Lemma replace_all_same_or_inserted (fuel : nat) (lits : list string)
    (insertion s : string) :
  replace_all fuel lits insertion s = s \/
  exists before after, replace_all fuel lits insertion s = before +:+ insertion +:+ after.
Proof.
  revert s; induction fuel as [|fuel IH]; intros s; [now left|].
  destruct s as [|c s]; [now left|]. cbn [replace_all].
  destruct (match_seq lits (String c s)) as [[|n]|].
  - destruct (IH s) as [->|(before & after & ->)]; [now left|].
    right. exists (String c before), after. now sapp.
  - right. eauto.
  - destruct (IH s) as [->|(before & after & ->)]; [now left|].
    right. exists (String c before), after. now sapp.
Qed.

Lemma replace_all_no_match (fuel : nat) (lits : list string) (insertion s : string) :
  ~ matches_somewhere lits s -> replace_all fuel lits insertion s = s.
Proof.
  revert s; induction fuel as [|fuel IH]; intros s Hno; [reflexivity|].
  destruct s as [|c s]; [reflexivity|]. cbn [replace_all].
  assert (Hrest : ~ matches_somewhere lits s).
  { intros (i & n & H). apply Hno. now exists (S i), n. }
  destruct (match_seq lits (String c s)) as [[|n]|] eqn:E.
  - now rewrite IH.
  - exfalso. apply Hno. now exists O, n.
  - now rewrite IH.
Qed.

Lemma spaces_le (s : string) : (spaces s <= String.length s)%nat.
Proof. induction s as [|c s IH]; simpl; [lia|]. destruct (regexp_space c); lia. Qed.

(** A match lies within the string. *)
Lemma match_seq_le (lits : list string) (s : string) (m : nat) :
  match_seq lits s = Some m -> (m <= String.length s)%nat.
Proof.
  revert s m; induction lits as [|lit rest IH]; intros s m; cbn [match_seq].
  - intros H. injection H as <-. lia.
  - destruct (HasPrefix s lit) eqn:Hp; [|discriminate].
    apply HasPrefix_split in Hp as [t ->].
    pose proof (str_drop_length (String.length lit) (lit +:+ t)) as Hlen.
    rewrite length_append in *.
    destruct rest as [|lit2 rest]; [intros H; injection H as <-; lia|].
    destruct (match_seq (lit2 :: rest) _) as [m'|] eqn:E; [|discriminate].
    intros H. injection H as <-. apply IH in E.
    rewrite str_drop_length in E.
    pose proof (spaces_le (str_drop (String.length lit) (lit +:+ t))). lia.
Qed.

Lemma replace_all_match (fuel : nat) (lits : list string) (insertion s : string) :
  matches_somewhere lits s -> (String.length s <= fuel)%nat ->
  exists before after, replace_all fuel lits insertion s = before +:+ insertion +:+ after.
Proof.
  assert (Hempty : forall i n, match_seq lits (str_drop i EmptyString) <> Some (S n)).
  { intros i n H. apply match_seq_le in H. rewrite str_drop_length in H.
    simpl in H. lia. }
  revert s; induction fuel as [|fuel IH]; intros s (i & n & H) Hfuel.
  - destruct s; [|simpl in Hfuel; lia]. now apply Hempty in H.
  - destruct s as [|c s]; [now apply Hempty in H|].
    cbn [replace_all]. simpl in Hfuel.
    destruct (match_seq lits (String c s)) as [[|m]|] eqn:E; [| eauto |].
    + destruct i as [|i]; [simpl in H; congruence|].
      destruct (IH s) as (before & after & ->); [now exists i, n | lia |].
      exists (String c before), after. now sapp.
    + destruct i as [|i]; [simpl in H; congruence|].
      destruct (IH s) as (before & after & ->); [now exists i, n | lia |].
      exists (String c before), after. now sapp.
Qed.

(** More fuel than the length of the string changes nothing. *)
Lemma replace_all_fuel (fuel : nat) (lits : list string) (insertion s : string) :
  (String.length s <= fuel)%nat ->
  replace_all fuel lits insertion s = ReplaceAllString lits insertion s.
Proof.
  unfold ReplaceAllString.
  assert (H : forall f1 f2 s, (String.length s <= f1)%nat -> (String.length s <= f2)%nat ->
                replace_all f1 lits insertion s = replace_all f2 lits insertion s).
  { clear. induction f1 as [|f1 IH]; intros f2 s H1 H2.
    - destruct s; [|simpl in H1; lia]. now destruct f2.
    - destruct s as [|c s]; [now destruct f2|].
      destruct f2 as [|f2]; [simpl in H2; lia|].
      cbn [replace_all]. simpl in H1, H2.
      destruct (match_seq lits (String c s)) as [[|m]|].
      + now rewrite (IH f2) by lia.
      + now rewrite (IH f2) by (rewrite str_drop_length; simpl; lia).
      + now rewrite (IH f2) by lia. }
  intros Hfuel. now apply H.
Qed.

Lemma written_names_the_plugin (insertion before after : string) :
  Contains insertion "react-native-dotenv" = true ->
  Contains (before +:+ insertion +:+ after) "react-native-dotenv" = true.
Proof. intros H. now apply Contains_append_l, Contains_append_r. Qed.

(** X21: [modifyBabelJSConfig] is idempotent: a second run leaves every
    file as the first run left it.  It never touches another file, and a
    file that names [react-native-dotenv] already is not written at all. *)
Theorem modifyBabelJSConfig_idempotent (filePath : string) (fs : FS) :
  (modifyBabelJSConfig filePath (modifyBabelJSConfig filePath fs).2).2
  = (modifyBabelJSConfig filePath fs).2 /\
  (forall other, other <> filePath ->
                 (modifyBabelJSConfig filePath fs).2 !! other = fs !! other) /\
  (forall content, fs !! filePath = Some content ->
                   Contains content "react-native-dotenv" = true ->
                   modifyBabelJSConfig filePath fs
                   = (["react-native-dotenv plugin already present in " +:+ filePath],
                      None, fs)).
Proof.
  assert (Hagain : forall lits insertion content,
             Contains insertion "react-native-dotenv" = true ->
             Contains content "react-native-dotenv" = false ->
             Contains (ReplaceAllString lits insertion content) "react-native-dotenv" = false ->
             ReplaceAllString lits insertion content = content).
  { intros lits insertion content Hins Hc Hnew. unfold ReplaceAllString in *.
    destruct (replace_all_same_or_inserted (String.length content) lits insertion content)
      as [H|(before & after & H)]; [exact H|].
    rewrite H, written_names_the_plugin in Hnew by exact Hins. discriminate. }
  split; [|split].
  - unfold modifyBabelJSConfig at 2 3.
    destruct (fs !! filePath) as [content|] eqn:Hf; cbn [snd].
    + destruct (Contains content "react-native-dotenv") eqn:Hc; cbn [snd].
      * unfold modifyBabelJSConfig. now rewrite Hf, Hc.
      * destruct (Contains content "plugins") eqn:Hp; cbn [negb snd];
          unfold modifyBabelJSConfig; rewrite lookup_insert_eq;
          match goal with
          | |- context [Contains (ReplaceAllString ?l ?i content) "react-native-dotenv"] =>
              destruct (Contains (ReplaceAllString l i content) "react-native-dotenv")
                eqn:Hnew; [reflexivity|];
              rewrite (Hagain l i content eq_refl Hc Hnew), Hp; cbn [negb snd];
              now rewrite (Hagain l i content eq_refl Hc Hnew), insert_insert_eq
          end.
    + unfold modifyBabelJSConfig. now rewrite Hf.
  - intros other Hne. unfold modifyBabelJSConfig.
    destruct (fs !! filePath) as [content|]; [|reflexivity].
    destruct (Contains content "react-native-dotenv"); [reflexivity|].
    destruct (negb (Contains content "plugins")); cbn [snd];
      now rewrite lookup_insert_ne by congruence.
  - intros content Hf Hc. unfold modifyBabelJSConfig. now rewrite Hf, Hc.
Qed.

(** X22: on a file that does not name [react-native-dotenv] yet.  If the
    pattern in force matches somewhere (the one for [module.exports] when
    the file does not hold the word [plugins], the one for the [plugins]
    array when it does), the file names the plugin afterwards.  If it
    matches nowhere, the file is written back as it was and no error is
    returned; with the word [plugins] in the file the message of success is
    printed all the same. *)
Theorem modifyBabelJSConfig_adds_or_misses (filePath content : string) (fs : FS) :
  fs !! filePath = Some content ->
  Contains content "react-native-dotenv" = false ->
  exists out content',
    modifyBabelJSConfig filePath fs = (out, None, <[filePath := content']> fs) /\
    (matches_somewhere (pattern_in_force content) content ->
     Contains content' "module:react-native-dotenv" = true) /\
    (~ matches_somewhere (pattern_in_force content) content -> content' = content) /\
    (Contains content "plugins" = true ->
     out = ["Successfully added react-native-dotenv plugin to " +:+ filePath]).
Proof.
  intros Hf Hc. unfold modifyBabelJSConfig, pattern_in_force. rewrite Hf, Hc.
  assert (Hadd : forall lits insertion,
             Contains insertion "module:react-native-dotenv" = true ->
             matches_somewhere lits content ->
             Contains (ReplaceAllString lits insertion content)
               "module:react-native-dotenv" = true).
  { intros lits insertion Hins Hm. unfold ReplaceAllString.
    destruct (replace_all_match (String.length content) lits insertion content Hm)
      as (before & after & ->); [lia|].
    now apply Contains_append_l, Contains_append_r. }
  destruct (Contains content "plugins"); cbn [negb];
    eexists _, _; (split; [reflexivity|]); repeat split;
    try (intros Hm; now apply Hadd);
    try (intros Hno; now apply replace_all_no_match);
    discriminate.
Qed.


Lemma filepath_Join_inj (dir a b : string) :
  filepath_Join dir a = filepath_Join dir b -> a = b.
Proof.
  unfold filepath_Join. intros H. apply (inj (String.app dir)) in H.
  now injection H.
Qed.

(** What [modifyBabelJSConfig] does to a file that exists depends on the
    content of that file only, and it returns no error. *)
Lemma modifyBabelJSConfig_written (filePath content : string) (fs : FS) :
  fs !! filePath = Some content ->
  exists out content',
    forall fs' : FS, fs' !! filePath = Some content ->
      modifyBabelJSConfig filePath fs' = (out, None, <[filePath := content']> fs').
Proof.
  intros _. unfold modifyBabelJSConfig.
  destruct (Contains content "react-native-dotenv") eqn:Hc.
  - eexists _, content. intros fs' Hf'. rewrite Hf', Hc.
    now rewrite insert_id by exact Hf'.
  - destruct (Contains content "plugins") eqn:Hp;
      eexists _, _; intros fs' Hf'; rewrite Hf', Hc, Hp; reflexivity.
Qed.

(** The Babel step fails when neither file is there, and on a [.babelrc]
    that [encoding/json] cannot read or write; nothing is printed and no
    file is changed then. *)
Lemma modifyBabelConfig_fails (ext : External) (projectPath reason : string)
    (fs fs' : FS) :
  babel_failure ext projectPath fs reason ->
  fs' !! filepath_Join projectPath "babel.config.js"
  = fs !! filepath_Join projectPath "babel.config.js" ->
  fs' !! filepath_Join projectPath ".babelrc"
  = fs !! filepath_Join projectPath ".babelrc" ->
  modifyBabelConfig ext projectPath fs' = Some ([], Some reason, fs').
Proof.
  intros [Hjs Hrc] Ejs Erc. unfold modifyBabelConfig, modifyBabelJSONConfig.
  rewrite Ejs, Hjs, Erc.
  destruct Hrc as [[-> ->]|(content & -> & [(msg & -> & ->)|(m & msg & -> & Hno & Hm & ->)])];
    [reflexivity..|].
  now rewrite Hno, Hm.
Qed.

(** ** [env init] and [env destroy] *)

Lemma with_flag_same (cfg : ProjectConfig) :
  with_flag cfg (EnvInitialized cfg) = cfg.
Proof. now destruct cfg. Qed.

(** X15: [DestroyEnvFiles] in a project whose configuration can be read
    returns without error: the primary file is gone, the mirror is gone in
    a bare project and as it was in any other, no other file is touched,
    the flag is down and the rest of the configuration is kept. *)
Theorem DestroyEnvFiles_deletes_and_unmarks (projectPath projectType : string)
    (w : World) (cfg : ProjectConfig) :
  config w = Ok cfg ->
  exists out w',
    DestroyEnvFiles projectPath projectType w = (out, None, w') /\
    last out = Some "Environment configuration destroyed successfully." /\
    config w' = Ok (with_flag cfg false) /\
    files w' !! filepath_Join projectPath ".env" = None /\
    files w' !! filepath_Join projectPath "env.d.ts"
    = (if String.eqb projectType "bare" then None
       else files w !! filepath_Join projectPath "env.d.ts") /\
    (forall other, other <> filepath_Join projectPath ".env" ->
                   other <> filepath_Join projectPath "env.d.ts" ->
                   files w' !! other = files w !! other).
Proof.
  intros Hcfg. pose proof (paths_differ projectPath) as Hdiff.
  unfold DestroyEnvFiles, DeleteFile, UpdateConfig, LoadConfig.
  destruct (files w !! filepath_Join projectPath ".env") as [env|] eqn:Eenv;
    destruct (String.eqb projectType "bare");
    rewrite ?lookup_delete_ne by congruence;
    try destruct (files w !! filepath_Join projectPath "env.d.ts") as [dts|] eqn:Edts;
    cbn [config files]; rewrite Hcfg;
    eexists _, _; (split; [reflexivity|]); cbn [config files];
    (split; [rewrite !app_assoc; apply last_snoc|]);
    (split; [reflexivity|]);
    repeat split; intros;
    rewrite ?lookup_delete_eq, ?lookup_delete_ne by congruence;
    rewrite ?lookup_delete_eq, ?lookup_delete_ne by congruence; auto.
Qed.

(** X16: what the commands do before anything else.  When the
    configuration cannot be loaded, each of the five commands prints the
    error and leaves the directory as it is; [env init] does the same, with
    its own message, in a project that is initialized already, and
    [env destroy] in a project that is not. *)
Theorem commands_check_the_configuration (ext : External) (projectPath : string)
    (w : World) :
  (forall msg, config w = Err msg ->
     envInitCmd ext projectPath w
     = Some (["Error loading project config: " +:+ msg], w) /\
     envDestroyCmd projectPath w
     = Some (["Error loading project config: " +:+ msg], w) /\
     (forall prompt order,
         envAddCmd prompt order projectPath w
         = Some (["Error checking env initialization: " +:+ msg], w)) /\
     (forall select newValue listOrder order,
         envUpdateCmd select newValue listOrder order projectPath w
         = Some (["Error checking env initialization: " +:+ msg], w)) /\
     (forall select listOrder order,
         envRemoveCmd select listOrder order projectPath w
         = Some (["Error checking env initialization: " +:+ msg], w))) /\
  (forall cfg, config w = Ok cfg -> EnvInitialized cfg = true ->
     envInitCmd ext projectPath w
     = Some (["Environment has already been initialized."], w)) /\
  (forall cfg, config w = Ok cfg -> EnvInitialized cfg = false ->
     envDestroyCmd projectPath w
     = Some (["Environment has not been initialized."], w)).
Proof.
  split; [|split].
  - intros msg Hcfg.
    unfold envInitCmd, envDestroyCmd, envAddCmd, envUpdateCmd, envRemoveCmd,
      CheckEnvInitialized, LoadConfig.
    rewrite Hcfg. repeat split.
  - intros cfg Hcfg Hinit. unfold envInitCmd, CheckEnvInitialized, LoadConfig.
    now rewrite Hcfg, Hinit.
  - intros cfg Hcfg Hinit. unfold envDestroyCmd, LoadConfig.
    now rewrite Hcfg, Hinit.
Qed.

(** [env init] in a project that is not initialized, up to the call of
    [CreateEnvFiles]. *)
Lemma envInitCmd_creates (ext : External) (projectPath : string) (w : World)
    (cfg : ProjectConfig) :
  config w = Ok cfg -> EnvInitialized cfg = false ->
  envInitCmd ext projectPath w
  = match CreateEnvFiles ext projectPath (ProjectType cfg) w with
    | None => None
    | Some (out, Some msg, w') =>
        Some (out ++ ["Error initializing environment configuration: " +:+ msg], w')
    | Some (out, None, w') => Some (out, w')
    end.
Proof.
  intros Hcfg Hinit. unfold envInitCmd, CheckEnvInitialized, LoadConfig.
  now rewrite Hcfg, Hinit.
Qed.

Lemma LoadEnvFile_created (path : string) (fs : FS) :
  (LoadEnvFile path fs).2 = <[path := default EmptyString (fs !! path)]> fs.
Proof.
  unfold LoadEnvFile. simpl. destruct (fs !! path) as [text|] eqn:E; [|reflexivity].
  simpl. symmetry. now apply insert_id.
Qed.

(** [CreateEnvFiles] in a project that is not bare: the primary file is
    created if need be and the flag is raised. *)
Lemma CreateEnvFiles_not_bare (ext : External) (projectPath projectType : string)
    (w : World) (cfg : ProjectConfig) :
  config w = Ok cfg -> String.eqb projectType "bare" = false ->
  CreateEnvFiles ext projectPath projectType w
  = Some (["Project configuration saved to "
             +:+ filepath_Join projectPath ConfigFileName]
          ++ ["Environment successfully initialized."],
          None,
          {| files := (LoadEnvFile (filepath_Join projectPath ".env") (files w)).2;
             config := Ok (with_flag cfg true) |}).
Proof.
  intros Hcfg Hbare.
  unfold CreateEnvFiles, MarkEnvInitialized, UpdateConfig, LoadConfig, LoadEnvFile.
  cbn [fst snd config files]. rewrite Hbare. cbn [config files]. now rewrite Hcfg.
Qed.

(** [CreateEnvFiles] in a bare project with a [babel.config.js], when the
    install succeeds: the primary file is created if need be, the Babel
    configuration is changed, the mirror is checked, the flag is raised. *)
Lemma CreateEnvFiles_bare (ext : External) (projectPath : string)
    (w : World) (cfg : ProjectConfig) (babel : string) :
  config w = Ok cfg -> npm_install ext = None ->
  files w !! filepath_Join projectPath "babel.config.js" = Some babel ->
  exists babel_output babel',
    (modifyBabelJSConfig (filepath_Join projectPath "babel.config.js") (files w)).2
      !! filepath_Join projectPath "babel.config.js" = Some babel' /\
    CreateEnvFiles ext projectPath "bare" w
    = match UpdateEnvDTS projectPath EmptyString EmptyString false
              (<[filepath_Join projectPath "babel.config.js" := babel']>
                 (LoadEnvFile (filepath_Join projectPath ".env") (files w)).2) with
      | None => None
      | Some fs3 =>
          Some (("Installing react-native-dotenv..." :: babel_output)
                ++ ["Project configuration saved to "
                      +:+ filepath_Join projectPath ConfigFileName]
                ++ ["Environment successfully initialized."],
                None, {| files := fs3; config := Ok (with_flag cfg true) |})
      end.
Proof.
  intros Hcfg Hnpm Hjs.
  destruct (modifyBabelJSConfig_written _ babel (files w) Hjs)
    as (babel_output & babel' & Hrun).
  exists babel_output, babel'. split.
  - rewrite (Hrun (files w) Hjs). cbn [snd]. apply lookup_insert_eq.
  - assert (Hjs1 : (LoadEnvFile (filepath_Join projectPath ".env") (files w)).2
                     !! filepath_Join projectPath "babel.config.js" = Some babel).
    { rewrite LoadEnvFile_other; [exact Hjs|].
      intros H. apply filepath_Join_inj in H. discriminate. }
    unfold CreateEnvFiles, modifyBabelConfig.
    change (match files w !! filepath_Join projectPath ".env" with
            | Some _ => files w
            | None => <[filepath_Join projectPath ".env" := EmptyString]> (files w)
            end)
      with (LoadEnvFile (filepath_Join projectPath ".env") (files w)).2.
    change (String.eqb "bare" "bare") with true. cbv iota.
    rewrite Hnpm, Hjs1, (Hrun _ Hjs1).
    destruct (UpdateEnvDTS _ _ _ _ _); [|reflexivity].
    unfold MarkEnvInitialized, UpdateConfig, LoadConfig. cbn [config files].
    now rewrite Hcfg.
Qed.

(** X17: [env init] and then [env destroy] in a project that is neither
    initialized nor of the bare variant.  After the first the flag is up
    and the primary file is there, with the content it had or empty; after
    the second the flag is down again and the primary file is gone, so a
    directory without a primary file is back as it was, and one with a
    primary file has lost it. *)
Theorem envInitCmd_then_envDestroyCmd (ext : External) (projectPath : string)
    (w : World) (cfg : ProjectConfig) :
  config w = Ok cfg -> EnvInitialized cfg = false -> ProjectType cfg <> "bare" ->
  exists out1 w1 out2,
    envInitCmd ext projectPath w = Some (out1, w1) /\
    config w1 = Ok (with_flag cfg true) /\
    files w1
    = <[filepath_Join projectPath ".env" :=
          default EmptyString (files w !! filepath_Join projectPath ".env")]> (files w) /\
    envDestroyCmd projectPath w1
    = Some (out2, {| files := delete (filepath_Join projectPath ".env") (files w);
                     config := config w |}) /\
    (files w !! filepath_Join projectPath ".env" = None ->
     envDestroyCmd projectPath w1 = Some (out2, w)).
Proof.
  intros Hcfg Hinit Hbare. apply String.eqb_neq in Hbare.
  rewrite (envInitCmd_creates ext projectPath w cfg Hcfg Hinit).
  rewrite (CreateEnvFiles_not_bare ext projectPath (ProjectType cfg) w cfg Hcfg Hbare).
  rewrite LoadEnvFile_created.
  assert (Hrun : envDestroyCmd projectPath
                   {| files := <[filepath_Join projectPath ".env" :=
                                   default EmptyString
                                     (files w !! filepath_Join projectPath ".env")]>
                                 (files w);
                      config := Ok (with_flag cfg true) |}
                 = Some ((["Deleted file: " +:+ filepath_Join projectPath ".env"] ++
                          [] ++
                          ["Project configuration saved to "
                             +:+ filepath_Join projectPath ConfigFileName] ++
                          ["Environment configuration destroyed successfully."]),
                         {| files := delete (filepath_Join projectPath ".env") (files w);
                            config := config w |})).
  { unfold envDestroyCmd, DestroyEnvFiles, DeleteFile, UpdateConfig, LoadConfig.
    cbn [config files with_flag EnvInitialized ProjectType CreatedAt negb].
    rewrite Hbare, lookup_insert_eq. cbn [config files].
    rewrite delete_insert_eq, Hcfg. do 3 f_equal.
    rewrite <- Hinit. now destruct cfg. }
  eexists _, _, _. split; [reflexivity|]. cbn [config files].
  split; [reflexivity|]. split; [reflexivity|]. split; [exact Hrun|].
  intros Habsent. rewrite Hrun. do 2 f_equal.
  destruct w as [fs c]. cbn [files config] in *. f_equal. now apply delete_id.
Qed.

(** X18: [env init] in a bare project that is not initialized and has a
    [babel.config.js], when the install succeeds and the mirror is absent
    or lacks the opening line: the command ends with the message of
    success, the flag is up, the primary file is there with the content it
    had or empty, the mirror is the well-formed block with no declaration,
    and the Babel configuration is as [modifyBabelJSConfig] leaves it. *)
Theorem envInitCmd_bare_creates_both_files (ext : External) (projectPath : string)
    (w : World) (cfg : ProjectConfig) (babel : string) :
  config w = Ok cfg -> EnvInitialized cfg = false -> ProjectType cfg = "bare" ->
  npm_install ext = None ->
  files w !! filepath_Join projectPath "babel.config.js" = Some babel ->
  (files w !! filepath_Join projectPath "env.d.ts" = None \/
   exists text, files w !! filepath_Join projectPath "env.d.ts" = Some text /\
                Contains text envModuleHeader = false) ->
  exists out w',
    envInitCmd ext projectPath w = Some (out, w') /\
    last out = Some "Environment successfully initialized." /\
    config w' = Ok (with_flag cfg true) /\
    files w' !! filepath_Join projectPath ".env"
    = Some (default EmptyString (files w !! filepath_Join projectPath ".env")) /\
    files w' !! filepath_Join projectPath "env.d.ts"
    = Some (Join [envModuleHeader; "}"] nl) /\
    well_formed_file (Join [envModuleHeader; "}"] nl) /\
    files w' !! filepath_Join projectPath "babel.config.js"
    = (modifyBabelJSConfig (filepath_Join projectPath "babel.config.js") (files w)).2
        !! filepath_Join projectPath "babel.config.js".
Proof.
  intros Hcfg Hinit Hbare Hnpm Hjs Hmirror.
  assert (Hd1 : filepath_Join projectPath "env.d.ts"
                <> filepath_Join projectPath "babel.config.js")
    by (intros H; apply filepath_Join_inj in H; discriminate).
  assert (Hd2 : filepath_Join projectPath ".env"
                <> filepath_Join projectPath "babel.config.js")
    by (intros H; apply filepath_Join_inj in H; discriminate).
  pose proof (paths_differ projectPath) as Hd3.
  rewrite (envInitCmd_creates ext projectPath w cfg Hcfg Hinit), Hbare.
  destruct (CreateEnvFiles_bare ext projectPath w cfg babel Hcfg Hnpm Hjs)
    as (babel_output & babel' & -> & ->).
  rewrite UpdateEnvDTS_empty_key_rebuilds
    by (rewrite lookup_insert_ne by congruence;
        now rewrite LoadEnvFile_other by exact Hd3).
  eexists _, _. split; [reflexivity|]. cbn [config files].
  split; [rewrite !app_assoc; apply last_snoc|].
  split; [reflexivity|]. split; [|split; [|split]].
  - rewrite !lookup_insert_ne by congruence.
    rewrite LoadEnvFile_created. apply lookup_insert_eq.
  - apply lookup_insert_eq.
  - apply (block_written_well_formed []); constructor.
  - rewrite lookup_insert_ne by congruence. apply lookup_insert_eq.
Qed.

(** X19: nothing is undone when [env init] fails in a bare project.  If
    the install fails, or the change of the Babel configuration after it
    (no Babel file is found, or the [.babelrc] cannot be read or written
    as JSON), the command reports the error and stops: the flag stays down
    and the mirror is as it was, but the primary file has been created. *)
Theorem envInitCmd_failure_is_not_undone (ext : External) (projectPath : string)
    (w : World) (cfg : ProjectConfig) (reason : string) :
  config w = Ok cfg -> EnvInitialized cfg = false -> ProjectType cfg = "bare" ->
  ((exists msg, npm_install ext = Some msg /\
                reason = "failed to install react-native-dotenv: " +:+ msg) \/
   (npm_install ext = None /\ babel_failure ext projectPath (files w) reason)) ->
  exists out,
    envInitCmd ext projectPath w
    = Some (out ++ ["Error initializing environment configuration: " +:+ reason],
            {| files := <[filepath_Join projectPath ".env" :=
                            default EmptyString
                              (files w !! filepath_Join projectPath ".env")]> (files w);
               config := config w |}).
Proof.
  intros Hcfg Hinit Hbare Hfail.
  rewrite (envInitCmd_creates ext projectPath w cfg Hcfg Hinit).
  rewrite <- (LoadEnvFile_created (filepath_Join projectPath ".env") (files w)).
  unfold CreateEnvFiles.
  change (match files w !! filepath_Join projectPath ".env" with
          | Some _ => files w
          | None => <[filepath_Join projectPath ".env" := EmptyString]> (files w)
          end)
    with (LoadEnvFile (filepath_Join projectPath ".env") (files w)).2.
  rewrite Hbare. change (String.eqb "bare" "bare") with true. cbv iota.
  destruct Hfail as [(msg & Hnpm & ->)|[Hnpm Hbabel]].
  - rewrite Hnpm. now eexists.
  - rewrite Hnpm.
    rewrite (modifyBabelConfig_fails ext projectPath reason (files w) _ Hbabel);
      [now eexists | |];
      apply LoadEnvFile_other; intros H; apply filepath_Join_inj in H; discriminate.
Qed.

Lemma declaration_matches_empty_key (line : string) :
  declaration line -> Contains line (exportConst EmptyString) = true.
Proof.
  intros (name & _ & ->).
  change ("  export const " +:+ name +:+ ": string;")
    with ("  " +:+ ("export const " +:+ (name +:+ ": string;"))).
  apply Contains_append_l, Contains_prefix, HasPrefix_append.
Qed.

(** X20: [CreateEnvFiles] has [UpdateEnvDTS] upsert the empty key, and the
    text searched for then is [export const] alone, which every declaration
    contains.  So [env init] in a bare project that is not initialized and
    has a [babel.config.js], when the install succeeds and the mirror is
    well formed and declares keys, overwrites the first declaration with a
    declaration of no name; the other lines are kept. *)
Theorem envInitCmd_overwrites_first_declaration (ext : External)
    (projectPath : string) (w : World) (cfg : ProjectConfig)
    (babel text first : string) (rest : list string) :
  config w = Ok cfg -> EnvInitialized cfg = false -> ProjectType cfg = "bare" ->
  npm_install ext = None ->
  files w !! filepath_Join projectPath "babel.config.js" = Some babel ->
  files w !! filepath_Join projectPath "env.d.ts" = Some text ->
  well_formed_file text ->
  scanLines text = envModuleHeader :: (first :: rest) ++ ["}"] ->
  exists out w',
    envInitCmd ext projectPath w = Some (out, w') /\
    last out = Some "Environment successfully initialized." /\
    config w' = Ok (with_flag cfg true) /\
    files w' !! filepath_Join projectPath "env.d.ts"
    = Some (Join (envModuleHeader :: ("  export const : string;" :: rest) ++ ["}"]) nl).
Proof.
  intros Hcfg Hinit Hbare Hnpm Hjs Hf Hwf Hbody.
  assert (Hd1 : filepath_Join projectPath "env.d.ts"
                <> filepath_Join projectPath "babel.config.js")
    by (intros H; apply filepath_Join_inj in H; discriminate).
  rewrite (envInitCmd_creates ext projectPath w cfg Hcfg Hinit), Hbare.
  destruct (CreateEnvFiles_bare ext projectPath w cfg babel Hcfg Hnpm Hjs)
    as (babel_output & babel' & _ & ->).
  rewrite <- (LoadEnvFile_other (filepath_Join projectPath ".env") _ (files w)
                (paths_differ projectPath)) in Hf.
  rewrite <- (lookup_insert_ne
                (LoadEnvFile (filepath_Join projectPath ".env") (files w)).2
                (filepath_Join projectPath "babel.config.js")
                (filepath_Join projectPath "env.d.ts") babel') in Hf by congruence.
  assert (Hkey : false = false ->
                 has_byte LF (ToUpper EmptyString) = false /\
                 fits_scanner (declarationLine EmptyString))
    by (intros _; split; reflexivity).
  destruct (UpdateEnvDTS_block projectPath EmptyString EmptyString false _ text _
              Hf Hwf Hbody Hkey) as (-> & _).
  assert (Hfirst : declaration first).
  { destruct Hwf as [(body & Hbody' & Hdecl) _]. rewrite Hbody in Hbody'.
    injection Hbody' as Heq.
    change (first :: rest ++ ["}"]) with ((first :: rest) ++ ["}"]) in Heq.
    apply app_inj_tail in Heq as [<- _].
    now apply Forall_cons in Hdecl as [Hd _]. }
  unfold edited_body. rewrite find_line_cons.
  rewrite (declaration_matches_empty_key first Hfirst).
  eexists _, _. split; [reflexivity|]. cbn [config files].
  split; [rewrite !app_assoc; apply last_snoc|].
  split; [reflexivity|]. apply lookup_insert_eq.
Qed.


(** ** The names of hooks *)

Lemma byte_of_byte_val (c : ascii) : byte_of (byte_val c) = c.
Proof. unfold byte_of, byte_val. rewrite N2Z.id. apply ascii_N_embedding. Qed.

Lemma EncodeRune_ascii (r : Z) :
  0 <= r <= 0x7F -> EncodeRune r = String (byte_of r) EmptyString.
Proof.
  intros H. unfold EncodeRune.
  destruct (r <? 0) eqn:E0; [apply Z.ltb_lt in E0; lia|].
  destruct (r <=? 0x7F) eqn:E1; [|apply Z.leb_gt in E1; lia].
  change 0xFF with (Z.ones 8). rewrite Z.land_ones by lia.
  rewrite Z.mod_small by (change (2 ^ 8) with 256; lia). reflexivity.
Qed.

Lemma word_byte_ascii (c : ascii) :
  word_byte c = true ->
  (byte_val c <? RuneSelf) = true /\ isSeparator (byte_val c) = false.
Proof.
  unfold word_byte, isSeparator, RuneSelf. intros H.
  destruct ((0x30 <=? byte_val c) && (byte_val c <=? 0x39)) eqn:E1;
    destruct ((0x61 <=? byte_val c) && (byte_val c <=? 0x7A)) eqn:E2;
    destruct ((0x41 <=? byte_val c) && (byte_val c <=? 0x5A)) eqn:E3;
    destruct (byte_val c =? 0x5F) eqn:E4; try discriminate;
    rewrite ?andb_true_iff, ?Z.leb_le, ?Z.eqb_eq in *;
    (assert (Hle : byte_val c <= 0x7F) by lia);
    (split; [apply Z.ltb_lt; lia|]);
    apply Z.leb_le in Hle; now rewrite Hle.
Qed.

(** Within a word nothing is changed once a byte of the word has been
    read. *)
Lemma title_runes_word (fuel : nat) (prev : Z) (s : string) :
  isSeparator prev = false -> word s = true -> (String.length s <= fuel)%nat ->
  title_runes fuel prev s = s.
Proof.
  revert prev s; induction fuel as [|fuel IH]; intros prev s Hprev Hword Hfuel.
  - destruct s; [reflexivity | simpl in Hfuel; lia].
  - destruct s as [|c s]; [reflexivity|].
    simpl in Hword, Hfuel. apply andb_true_iff in Hword as [Hc Hs].
    destruct (word_byte_ascii c Hc) as [Hascii Hsep].
    cbn [title_runes]. unfold DecodeRuneInString. rewrite Hascii, Hprev.
    pose proof (byte_val_nonneg c) as H0. apply Z.ltb_lt in Hascii.
    unfold RuneSelf in Hascii.
    destruct (byte_val c <? 0) eqn:E; [apply Z.ltb_lt in E; lia|].
    rewrite EncodeRune_ascii, byte_of_byte_val by lia. sapp.
    cbn [str_drop]. now rewrite IH by (auto; lia).
Qed.

Lemma Title_word (c : ascii) (rest : string) :
  word (String c rest) = true -> Title (String c rest) = String (capital c) rest.
Proof.
  intros Hword. simpl in Hword. apply andb_true_iff in Hword as [Hc Hs].
  destruct (word_byte_ascii c Hc) as [Hascii Hsep].
  unfold Title. cbn [String.length title_runes]. unfold DecodeRuneInString.
  rewrite Hascii. change (isSeparator 32) with true. cbv iota.
  pose proof (byte_val_nonneg c) as H0. apply Z.ltb_lt in Hascii.
  unfold RuneSelf in Hascii.
  assert (Hr : 0 <= unicode_ToTitle (byte_val c) <= 0x7F /\
               byte_of (unicode_ToTitle (byte_val c)) = capital c).
  { unfold unicode_ToTitle, capital.
    destruct (byte_val c <=? 0x7F) eqn:E; [|apply Z.leb_gt in E; lia].
    destruct ((0x61 <=? byte_val c) && (byte_val c <=? 0x7A)) eqn:E2.
    - apply andb_true_iff in E2 as [E2 _]. apply Z.leb_le in E2. split; [lia|reflexivity].
    - split; [lia | apply byte_of_byte_val]. }
  destruct Hr as [Hr Hcap].
  destruct (unicode_ToTitle (byte_val c) <? 0) eqn:E; [apply Z.ltb_lt in E; lia|].
  rewrite EncodeRune_ascii, Hcap by exact Hr. sapp. cbn [str_drop].
  now rewrite title_runes_word by (auto; lia).
Qed.

(** X23: the name [ensureUsePrefix] returns always begins with [use], and
    the function is idempotent. *)
Theorem ensureUsePrefix_begins_with_use (hookName : string) :
  HasPrefix (ensureUsePrefix hookName) "use" = true /\
  ensureUsePrefix (ensureUsePrefix hookName) = ensureUsePrefix hookName.
Proof.
  assert (H : HasPrefix (ensureUsePrefix hookName) "use" = true).
  { unfold ensureUsePrefix. destruct (HasPrefix hookName "use") eqn:E; simpl.
    - exact E.
    - apply HasPrefix_append. }
  split; [exact H|]. unfold ensureUsePrefix at 1. now rewrite H.
Qed.

(** X24: for a name made of ASCII letters, digits and underscores,
    [strings.Title] changes the first byte only, to its capital.  So
    [toUpperCamelCase] gives such a name a capital first letter,
    [ensureUsePrefix] turns one that does not begin with [use] into [use]
    and the name with a capital first letter, and the name of the type
    that [createHookFile] and [createTypeFile] derive from the name of the
    hook is the name of the hook with a capital [U]. *)
Theorem hook_names_of_a_word (c : ascii) (rest : string) :
  word (String c rest) = true ->
  toUpperCamelCase (String c rest) = String (capital c) rest /\
  (HasPrefix (String c rest) "use" = false ->
   ensureUsePrefix (String c rest) = "use" +:+ String (capital c) rest) /\
  exists tail,
    ensureUsePrefix (String c rest) = "use" +:+ tail /\
    toUpperCamelCase (ensureUsePrefix (String c rest)) = "Use" +:+ tail.
Proof.
  intros Hword. pose proof (Title_word c rest Hword) as Htitle.
  assert (Hcap : word (String (capital c) rest) = true).
  { rewrite <- Htitle. simpl in Hword. apply andb_true_iff in Hword as [Hc Hs].
    rewrite Htitle. simpl. rewrite Hs, andb_true_r.
    unfold capital, word_byte in *.
    destruct ((0x61 <=? byte_val c) && (byte_val c <=? 0x7A)) eqn:E;
      [|rewrite E; exact Hc].
    apply andb_true_iff in E as [E1 E2]. apply Z.leb_le in E1, E2.
    assert (Hv : byte_val (byte_of (byte_val c - 0x20)) = byte_val c - 0x20).
    { unfold byte_val, byte_of. rewrite N_ascii_embedding.
      - apply Z2N.id. fold (byte_val c). lia.
      - fold (byte_val c). lia. }
    rewrite Hv.
    replace ((0x41 <=? byte_val c - 0x20) && (byte_val c - 0x20 <=? 0x5A)) with true
      by (symmetry; apply andb_true_iff; split; apply Z.leb_le; lia).
    now rewrite orb_true_r. }
  split; [exact Htitle|]. split.
  - intros Hno. unfold ensureUsePrefix. now rewrite Hno, Htitle.
  - unfold ensureUsePrefix, toUpperCamelCase.
    destruct (HasPrefix (String c rest) "use") eqn:Hp; cbn [negb].
    + apply HasPrefix_split in Hp as [tail Heq]. exists tail. split; [exact Heq|].
      rewrite Htitle. revert Heq. sapp. intros Heq. injection Heq as -> ->.
      reflexivity.
    + exists (String (capital c) rest). split; [now rewrite Htitle|].
      rewrite Htitle. sapp.
      apply (Title_word "u" ("se" +:+ String (capital c) rest)).
      sapp. simpl. simpl in Hcap. now rewrite Hcap.
Qed.


End Dotenv.

(** * The properties at concrete inputs *)

(** ** C1 *)

(** C1 fails as first stated: the key [A] and the value made of a blank and
    [x] are valid, yet after saving and loading the key holds [x], the
    blank trimmed away. *)
Lemma C1_leading_blank_is_lost :
  valid_key "A" = true /\ valid_value " x" = true /\
  Variables {| Path := "/app/.env"; Variables := {["A" := " x"]} |} !! "A" = Some " x" /\
  Variables (LoadEnvFile "/app/.env"
               (SaveEnvFile map_to_list
                  {| Path := "/app/.env"; Variables := {["A" := " x"]} |} ∅)).1 !! "A"
  = Some "x".
Proof. repeat split; vm_compute; reflexivity. Qed.

Lemma valid_order_map_to_list : valid_order map_to_list.
Proof. intros m. reflexivity. Qed.

Lemma C1_save_then_load_witness :
  Variables (LoadEnvFile "/app/.env"
               (SaveEnvFile map_to_list
                  {| Path := "/app/.env";
                     Variables := {["API_URL" := "http://x"]} |} ∅)).1 !! "API_URL"
  = Some "http://x".
Proof.
  etransitivity.
  - apply (C1_save_then_load map_to_list
             {| Path := "/app/.env"; Variables := {["API_URL" := "http://x"]} |} ∅).
    + exact valid_order_map_to_list.
    + intros k v H. simpl in H. apply lookup_singleton_Some in H as [<- <-].
      repeat split; vm_compute; reflexivity.
  - vm_compute. reflexivity.
Defined.

Lemma example_files_mirror :
  example_files !! filepath_Join "/app" "env.d.ts" = Some example_mirror.
Proof. vm_compute. reflexivity. Qed.

(** ** C5 *)

(** A comment, a declaration with blanks around its parts, a line with no
    equals sign, and a second declaration of the same key. *)
Lemma C5_load_reads_lines_witness :
  last_entry
    (scanLines (default EmptyString
       (({[ "/app/.env" := "# c" +:+ nl +:+ " A = 1 " +:+ nl +:+ "bad" +:+ nl
                           +:+ "A=2" +:+ nl ]} : FS) !! "/app/.env")))
    "A" "2".
Proof.
  apply (proj1 (proj2 (proj2 C5_load_reads_lines) "/app/.env"
                  {[ "/app/.env" := "# c" +:+ nl +:+ " A = 1 " +:+ nl +:+ "bad" +:+ nl
                                      +:+ "A=2" +:+ nl ]} "A" "2")).
  vm_compute. reflexivity.
Defined.

(** ** X26 *)

Lemma remove_without_match_changes_nothing_witness :
  exists text',
    UpdateEnvDTS ascii_only_table "/app" "OTHER" "" true example_files
    = Some (<[filepath_Join "/app" "env.d.ts" := text']> example_files) /\
    scanLines text' = scanLines example_mirror /\
    (text' = example_mirror \/ text' +:+ nl = example_mirror).
Proof.
  apply (proj2 (proj2 (remove_without_match_changes_nothing ascii_only_table))
           "/app" "OTHER" "" example_files example_mirror example_files_mirror
           example_mirror_well_formed).
  apply find_line_None. vm_compute. reflexivity.
Defined.

(** ** C3 and X27 *)

(** C3, on the input where the code departs from the claim: a declaration
    file that holds the opening line and nothing else.  It contains the
    opening line, so the structure check does not rebuild it; the upsert of
    [A] then completes without error, and the file it leaves is the
    declaration of [A] and a closing brace.  The last line read is taken
    for the closing brace and dropped, and the opening line is gone: after
    an upsert that completed successfully there is no wrapper block. *)
Theorem C3_opening_line_is_lost :
  Contains envModuleHeader envModuleHeader = true /\
  UpdateEnvDTS ascii_only_table "/app" "A" "1" false {[ "/app/env.d.ts" := envModuleHeader ]}
  = Some {[ "/app/env.d.ts" := "  export const A: string;" +:+ nl +:+ "}" ]} /\
  Contains ("  export const A: string;" +:+ nl +:+ "}") envModuleHeader = false.
Proof. repeat split; vm_compute; reflexivity. Qed.

Lemma wrapper_block_kept_witness :
  exists text',
    UpdateEnvDTS ascii_only_table "/app" "API_URL" "" true example_files
    = Some (<[filepath_Join "/app" "env.d.ts" := text']> example_files) /\
    well_formed_file text'.
Proof.
  apply (proj2 (proj2 (wrapper_block_kept ascii_only_table)) "/app" "API_URL" "" true
           example_files example_mirror example_files_mirror
           example_mirror_well_formed).
  discriminate.
Defined.

(** ** X25 *)

Lemma upsert_in_place_or_before_brace_witness :
  exists content',
    UpdateEnvDTS ascii_only_table "/app" "API_URL" "http://y" false example_files
    = Some (<[filepath_Join "/app" "env.d.ts" := Join content' nl]> example_files) /\
    length content' = length (scanLines example_mirror) /\
    content' !! 1%nat = Some (declarationLine ascii_only_table "API_URL") /\
    forall j, j <> 1%nat -> content' !! j = scanLines example_mirror !! j.
Proof.
  assert (Hkey : "API_URL" <> EmptyString) by discriminate.
  apply (proj1 (upsert_in_place_or_before_brace ascii_only_table
                  "/app" "API_URL" "http://y" example_files example_mirror
                  example_files_mirror example_mirror_well_formed Hkey)
           1%nat "  export const API_URL: string;").
  - vm_compute. reflexivity.
  - vm_compute. reflexivity.
  - intros [|[|j]] earlier Hj H; [|lia..].
    vm_compute in H. inversion H; subst. vm_compute. reflexivity.
Defined.

(** ** C8, C9, C10 *)

Lemma C8_uninitialized_is_refused_witness :
  envRemoveCmd ascii_only_table (fun keys => Ok "API_URL") map_to_list map_to_list "/app"
    {| files := fresh_files; config := Ok (example_config "bare" false) |}
  = Some ([notInitialized],
          {| files := fresh_files; config := Ok (example_config "bare" false) |}).
Proof.
  apply (C8_uninitialized_is_refused ascii_only_table "/app"
           {| files := fresh_files; config := Ok (example_config "bare" false) |}
           (example_config "bare" false) eq_refl eq_refl).
Defined.

(** The directory [env init] leaves for a bare project that had neither
    file, when the install succeeds: the two files of [fresh_files] beside
    [package.json], and the Babel configuration with the plugin. *)
Lemma init_bare_project :
  envInitCmd ascii_only_table (example_external None) "/app"
    {| files := template_files; config := Ok (example_config "bare" false) |}
  = Some (["Installing react-native-dotenv...";
           "Project configuration saved to /app/.mirorim-cli-config.json";
           "Environment successfully initialized."],
          {| files :=
               <["/app/babel.config.js" :=
                   ReplaceAllString ["module.exports"; "="; "{"]
                     (nl +:+ "  plugins: [" +:+ pluginConfig +:+ "],") example_babel]>
                 (<["/app/package.json" := "{}" +:+ nl]> fresh_files);
             config := Ok (example_config "bare" true) |}).
Proof. vm_compute. reflexivity. Qed.


Lemma C10_expo_prefix_witness :
  exists stored kvs1 kvs2,
    stored = ToUpper ascii_only_table (EnsureExpoPrefix "api_url") /\
    HasPrefix stored "EXPO_PUBLIC_" = true /\
    envAddCmd ascii_only_table (Ok ("api_url", "http://x")) map_to_list "/app"
      {| files := ∅; config := Ok (example_config "expo" true) |}
    = Some (["Environment variable added successfully."],
            {| files := <[filepath_Join "/app" ".env" :=
                            write_entries (kvs1 ++ (stored, "http://x") :: kvs2)]> ∅;
               config := Ok (example_config "expo" true) |}).
Proof.
  apply (proj2 (proj2 (C10_expo_prefix ascii_only_table)) "api_url" "http://x"
           map_to_list "/app"
           {| files := ∅; config := Ok (example_config "expo" true) |}
           (example_config "expo" true)
           eq_refl eq_refl eq_refl valid_order_map_to_list).
Defined.

(** * The further properties at concrete inputs *)

(** ** The store *)

Lemma ListKeys_every_key_once_witness :
  NoDup (ListKeys map_to_list
           {| Path := "/app/.env"; Variables := {["API_URL" := "http://x"]} |}) /\
  (forall key,
      key ∈ ListKeys map_to_list
              {| Path := "/app/.env"; Variables := {["API_URL" := "http://x"]} |}
      <-> is_Some (Variables
                     {| Path := "/app/.env"; Variables := {["API_URL" := "http://x"]} |}
                   !! key)) /\
  length (ListKeys map_to_list
            {| Path := "/app/.env"; Variables := {["API_URL" := "http://x"]} |})
  = size (Variables {| Path := "/app/.env"; Variables := {["API_URL" := "http://x"]} |}).
Proof.
  exact (ListKeys_every_key_once map_to_list
           {| Path := "/app/.env"; Variables := {["API_URL" := "http://x"]} |}
           valid_order_map_to_list).
Defined.

(** ** The mirror *)

Lemma UpdateEnvDTS_remove_first_match_witness :
  exists content',
    UpdateEnvDTS ascii_only_table "/app" "API_URL" "" true example_files
    = Some (<[filepath_Join "/app" "env.d.ts" := Join content' nl]> example_files) /\
    S (length content') = length (scanLines example_mirror) /\
    (forall j, (j < 1)%nat -> content' !! j = scanLines example_mirror !! j) /\
    (forall j, (1 <= j)%nat -> content' !! j = scanLines example_mirror !! S j).
Proof.
  apply (UpdateEnvDTS_remove_first_match ascii_only_table "/app" "API_URL" ""
           example_files example_mirror "  export const API_URL: string;" 1%nat
           example_files_mirror).
  - vm_compute. reflexivity.
  - vm_compute. reflexivity.
  - vm_compute. reflexivity.
  - intros [|j] earlier Hj H; [|lia].
    vm_compute in H. inversion H; subst. vm_compute. reflexivity.
Defined.

Lemma example_mirror_is_fresh (key : string) :
  find_line (scanLines example_mirror) (exportConst key) = None ->
  forall line, line ∈ scanLines example_mirror -> Contains line (exportConst key) = false.
Proof. apply find_line_None. Qed.

Lemma UpdateEnvDTS_upsert_then_remove_witness :
  exists fs1,
    UpdateEnvDTS ascii_only_table "/app" "TOKEN" "1" false example_files = Some fs1 /\
    UpdateEnvDTS ascii_only_table "/app" "TOKEN" "" true fs1
    = Some (<[filepath_Join "/app" "env.d.ts" := Join (scanLines example_mirror) nl]>
              example_files).
Proof.
  apply (UpdateEnvDTS_upsert_then_remove ascii_only_table "/app" "TOKEN" "1" ""
           example_files example_mirror example_files_mirror
           example_mirror_well_formed).
  - vm_compute. reflexivity.
  - discriminate.
  - vm_compute. reflexivity.
  - vm_compute. reflexivity.
  - apply example_mirror_is_fresh. vm_compute. reflexivity.
Defined.

Lemma UpdateEnvDTS_upsert_twice_witness :
  exists fs1,
    UpdateEnvDTS ascii_only_table "/app" "TOKEN" "1" false example_files = Some fs1 /\
    UpdateEnvDTS ascii_only_table "/app" "TOKEN" "2" false fs1 = Some fs1.
Proof.
  apply (UpdateEnvDTS_upsert_twice ascii_only_table "/app" "TOKEN" "1" "2"
           example_files example_mirror example_files_mirror
           example_mirror_well_formed).
  - vm_compute. reflexivity.
  - discriminate.
  - vm_compute. reflexivity.
  - vm_compute. reflexivity.
Defined.

Lemma remove_from_example_files :
  UpdateEnvDTS ascii_only_table "/app" "API_URL" "" true example_files
  = Some ({[ "/app/env.d.ts" := envModuleHeader +:+ nl +:+ "}" ]} : FS).
Proof. vm_compute. reflexivity. Qed.

Lemma UpdateEnvDTS_touches_only_the_mirror_witness :
  is_Some (({[ "/app/env.d.ts" := envModuleHeader +:+ nl +:+ "}" ]} : FS)
             !! filepath_Join "/app" "env.d.ts") /\
  (forall other, other <> filepath_Join "/app" "env.d.ts" ->
                 ({[ "/app/env.d.ts" := envModuleHeader +:+ nl +:+ "}" ]} : FS) !! other
                 = example_files !! other).
Proof.
  exact (UpdateEnvDTS_touches_only_the_mirror ascii_only_table "/app" "API_URL" "" true
           example_files _ remove_from_example_files).
Defined.

Lemma UpdateEnvDTS_hits_longer_key_witness :
  UpdateEnvDTS ascii_only_table "/app" "API" "" true example_files
  = Some (<[filepath_Join "/app" "env.d.ts" :=
              Join (envModuleHeader :: ([] ++ [] ++ []) ++ ["}"]) nl]> example_files).
Proof.
  apply (UpdateEnvDTS_hits_longer_key ascii_only_table "/app" "API" "_URL" "" true
           example_files example_mirror [] [] example_files_mirror
           example_mirror_well_formed).
  - vm_compute. reflexivity.
  - vm_compute. reflexivity.
  - intros line H. inversion H.
  - discriminate.
Defined.

(** ** The commands *)

Lemma fresh_files_readable : mirror_readable "/app" fresh_files.
Proof.
  intros text H. vm_compute in H. injection H as <-. vm_compute. reflexivity.
Qed.

Lemma example_project_readable : mirror_readable "/app" example_project.
Proof.
  intros text H. vm_compute in H. injection H as <-. vm_compute. reflexivity.
Qed.

Lemma example_project_store :
  loaded_store "/app" example_project = {["API_URL" := "http://x"]}.
Proof. vm_compute. reflexivity. Qed.

Lemma fresh_files_store : loaded_store "/app" fresh_files = ∅.
Proof. vm_compute. reflexivity. Qed.

Lemma storable_singleton (key value : string) (store : gmap string string) :
  store = {[ key := value ]} -> storable key value ->
  forall k v, store !! k = Some v -> storable k v.
Proof. intros -> Hs k v H. now apply lookup_singleton_Some in H as [<- <-]. Qed.

Lemma storable_api_url (value : string) :
  value = "http://x" \/ value = "http://y" -> storable "API_URL" value.
Proof. intros [->| ->]; repeat split; vm_compute; reflexivity. Qed.

Lemma envAddCmd_is_read_back_witness :
  exists w',
    envAddCmd ascii_only_table (Ok ("api_url", "http://x")) map_to_list "/app"
      {| files := fresh_files; config := Ok (example_config "bare" true) |}
    = Some (["Environment variable added successfully."], w') /\
    config w' = Ok (example_config "bare" true) /\
    loaded_store "/app" (files w')
    = <[ToUpper ascii_only_table (command_key "bare" "api_url") := "http://x"]>
        (loaded_store "/app" fresh_files) /\
    (forall other, other <> filepath_Join "/app" ".env" ->
                   other <> filepath_Join "/app" "env.d.ts" ->
                   files w' !! other = fresh_files !! other).
Proof.
  apply (envAddCmd_is_read_back ascii_only_table map_to_list "/app"
           {| files := fresh_files; config := Ok (example_config "bare" true) |}
           (example_config "bare" true) "api_url" "http://x"
           eq_refl eq_refl valid_order_map_to_list (fun _ => fresh_files_readable)).
  cbn [files]. rewrite fresh_files_store.
  apply (storable_singleton "API_URL" "http://x");
    [vm_compute; reflexivity | apply storable_api_url; now left].
Defined.

Lemma example_project_not_empty : loaded_store "/app" example_project <> ∅.
Proof.
  rewrite example_project_store. intros H.
  apply (f_equal (fun m : gmap string string => m !! "API_URL")) in H.
  vm_compute in H. discriminate.
Qed.

Lemma envUpdateCmd_is_read_back_witness :
  exists w',
    envUpdateCmd ascii_only_table (fun keys => Ok "API_URL") (Ok "http://y")
      map_to_list map_to_list "/app"
      {| files := example_project; config := Ok (example_config "bare" true) |}
    = Some (["Environment variable updated successfully."], w') /\
    config w' = Ok (example_config "bare" true) /\
    loaded_store "/app" (files w')
    = <[ToUpper ascii_only_table (command_key "bare" "API_URL") := "http://y"]>
        (loaded_store "/app" example_project) /\
    (ToUpper ascii_only_table (command_key "bare" "API_URL") <> "API_URL" ->
     loaded_store "/app" (files w') !! "API_URL"
     = loaded_store "/app" example_project !! "API_URL") /\
    (forall other, other <> filepath_Join "/app" ".env" ->
                   other <> filepath_Join "/app" "env.d.ts" ->
                   files w' !! other = example_project !! other).
Proof.
  apply (envUpdateCmd_is_read_back ascii_only_table (fun keys => Ok "API_URL")
           map_to_list map_to_list "/app"
           {| files := example_project; config := Ok (example_config "bare" true) |}
           (example_config "bare" true) "API_URL" "http://y"
           eq_refl eq_refl valid_order_map_to_list valid_order_map_to_list
           example_project_not_empty eq_refl (fun _ => example_project_readable)).
  cbn [files]. rewrite example_project_store.
  apply (storable_singleton "API_URL" "http://y");
    [vm_compute; reflexivity | apply storable_api_url; now right].
Defined.

Lemma expo_store : loaded_store "/app" expo_files = {["FOO" := "1"]}.
Proof. vm_compute. reflexivity. Qed.

Lemma expo_store_not_empty : loaded_store "/app" expo_files <> ∅.
Proof.
  rewrite expo_store. intros H.
  apply (f_equal (fun m : gmap string string => m !! "FOO")) in H.
  vm_compute in H. discriminate.
Qed.

(** In an Expo project the key [FOO], written into the primary file by
    hand, is chosen for removal and is still there afterwards. *)
Lemma envRemoveCmd_is_read_back_witness :
  exists w',
    envRemoveCmd ascii_only_table (fun keys => Ok "FOO") map_to_list map_to_list "/app"
      {| files := expo_files; config := Ok (example_config "expo" true) |}
    = Some (["Environment variable removed successfully."], w') /\
    config w' = Ok (example_config "expo" true) /\
    loaded_store "/app" (files w')
    = delete (command_key "expo" "FOO") (loaded_store "/app" expo_files) /\
    (ProjectType (example_config "expo" true) = "expo" ->
     HasPrefix "FOO" "EXPO_PUBLIC_" = false ->
     loaded_store "/app" (files w') !! "FOO" = loaded_store "/app" expo_files !! "FOO") /\
    (forall other, other <> filepath_Join "/app" ".env" ->
                   other <> filepath_Join "/app" "env.d.ts" ->
                   files w' !! other = expo_files !! other).
Proof.
  apply (envRemoveCmd_is_read_back ascii_only_table (fun keys => Ok "FOO")
           map_to_list map_to_list "/app"
           {| files := expo_files; config := Ok (example_config "expo" true) |}
           (example_config "expo" true) "FOO"
           eq_refl eq_refl valid_order_map_to_list valid_order_map_to_list
           expo_store_not_empty eq_refl).
  - discriminate.
  - cbn [files]. rewrite expo_store.
    apply (storable_singleton "FOO" "1"); [vm_compute; reflexivity|].
    repeat split; vm_compute; reflexivity.
Defined.

Lemma update_and_remove_need_an_entry_witness :
  envUpdateCmd ascii_only_table (fun keys => Ok "API_URL") (Ok "http://y")
    map_to_list map_to_list "/app"
    {| files := fresh_files; config := Ok (example_config "bare" true) |}
  = Some (["No environment variables found to update."],
          {| files := (LoadEnvFile (filepath_Join "/app" ".env") fresh_files).2;
             config := Ok (example_config "bare" true) |}) /\
  envRemoveCmd ascii_only_table (fun keys => Ok "API_URL") map_to_list map_to_list "/app"
    {| files := fresh_files; config := Ok (example_config "bare" true) |}
  = Some (["No environment variables found to remove."],
          {| files := (LoadEnvFile (filepath_Join "/app" ".env") fresh_files).2;
             config := Ok (example_config "bare" true) |}) /\
  (LoadEnvFile (filepath_Join "/app" ".env") fresh_files).2
  = <[filepath_Join "/app" ".env" :=
        default EmptyString (fresh_files !! filepath_Join "/app" ".env")]> fresh_files.
Proof.
  exact (update_and_remove_need_an_entry ascii_only_table (fun keys => Ok "API_URL")
           (Ok "http://y") map_to_list map_to_list "/app"
           {| files := fresh_files; config := Ok (example_config "bare" true) |}
           (example_config "bare" true)
           eq_refl eq_refl valid_order_map_to_list fresh_files_store).
Defined.

(** ** [env init] and [env destroy] *)

Lemma DestroyEnvFiles_deletes_and_unmarks_witness :
  exists out w',
    DestroyEnvFiles "/app" "bare"
      {| files := example_project; config := Ok (example_config "bare" true) |}
    = (out, None, w') /\
    last out = Some "Environment configuration destroyed successfully." /\
    config w' = Ok (with_flag (example_config "bare" true) false) /\
    files w' !! filepath_Join "/app" ".env" = None /\
    files w' !! filepath_Join "/app" "env.d.ts"
    = (if String.eqb "bare" "bare" then None
       else example_project !! filepath_Join "/app" "env.d.ts") /\
    (forall other, other <> filepath_Join "/app" ".env" ->
                   other <> filepath_Join "/app" "env.d.ts" ->
                   files w' !! other = example_project !! other).
Proof.
  exact (DestroyEnvFiles_deletes_and_unmarks "/app" "bare"
           {| files := example_project; config := Ok (example_config "bare" true) |}
           (example_config "bare" true) eq_refl).
Defined.

Lemma expo_is_not_bare : ProjectType (example_config "expo" false) <> "bare".
Proof. discriminate. Qed.

Lemma envInitCmd_then_envDestroyCmd_witness :
  exists out1 w1 out2,
    envInitCmd ascii_only_table (example_external None) "/app"
      {| files := ∅; config := Ok (example_config "expo" false) |} = Some (out1, w1) /\
    config w1 = Ok (with_flag (example_config "expo" false) true) /\
    files w1
    = <[filepath_Join "/app" ".env" :=
          default EmptyString ((∅ : FS) !! filepath_Join "/app" ".env")]> ∅ /\
    envDestroyCmd "/app" w1
    = Some (out2, {| files := delete (filepath_Join "/app" ".env") ∅;
                     config := Ok (example_config "expo" false) |}) /\
    ((∅ : FS) !! filepath_Join "/app" ".env" = None ->
     envDestroyCmd "/app" w1
     = Some (out2, {| files := ∅; config := Ok (example_config "expo" false) |})).
Proof.
  exact (envInitCmd_then_envDestroyCmd ascii_only_table (example_external None) "/app"
           {| files := ∅; config := Ok (example_config "expo" false) |}
           (example_config "expo" false) eq_refl eq_refl expo_is_not_bare).
Defined.

Lemma template_files_babel :
  template_files !! filepath_Join "/app" "babel.config.js" = Some example_babel.
Proof. vm_compute. reflexivity. Qed.

Lemma template_files_no_mirror :
  template_files !! filepath_Join "/app" "env.d.ts" = None.
Proof. vm_compute. reflexivity. Qed.

Lemma envInitCmd_bare_creates_both_files_witness :
  exists out w',
    envInitCmd ascii_only_table (example_external None) "/app"
      {| files := template_files; config := Ok (example_config "bare" false) |}
    = Some (out, w') /\
    last out = Some "Environment successfully initialized." /\
    config w' = Ok (with_flag (example_config "bare" false) true) /\
    files w' !! filepath_Join "/app" ".env"
    = Some (default EmptyString (template_files !! filepath_Join "/app" ".env")) /\
    files w' !! filepath_Join "/app" "env.d.ts"
    = Some (Join [envModuleHeader; "}"] nl) /\
    well_formed_file (Join [envModuleHeader; "}"] nl) /\
    files w' !! filepath_Join "/app" "babel.config.js"
    = (modifyBabelJSConfig (filepath_Join "/app" "babel.config.js") template_files).2
        !! filepath_Join "/app" "babel.config.js".
Proof.
  exact (envInitCmd_bare_creates_both_files ascii_only_table (example_external None)
           "/app"
           {| files := template_files; config := Ok (example_config "bare" false) |}
           (example_config "bare" false) example_babel
           eq_refl eq_refl eq_refl eq_refl template_files_babel
           (or_introl template_files_no_mirror)).
Defined.

Lemma envInitCmd_failure_is_not_undone_witness :
  exists out,
    envInitCmd ascii_only_table (example_external (Some "exit status 1")) "/app"
      {| files := template_files; config := Ok (example_config "bare" false) |}
    = Some (out ++ ["Error initializing environment configuration: "
                      +:+ ("failed to install react-native-dotenv: " +:+ "exit status 1")],
            {| files := <[filepath_Join "/app" ".env" :=
                            default EmptyString
                              (template_files !! filepath_Join "/app" ".env")]>
                          template_files;
               config := Ok (example_config "bare" false) |}).
Proof.
  exact (envInitCmd_failure_is_not_undone ascii_only_table
           (example_external (Some "exit status 1")) "/app"
           {| files := template_files; config := Ok (example_config "bare" false) |}
           (example_config "bare" false)
           ("failed to install react-native-dotenv: " +:+ "exit status 1")
           eq_refl eq_refl eq_refl
           (or_introl (ex_intro _ "exit status 1" (conj eq_refl eq_refl)))).
Defined.

Lemma example_mirror_lines :
  scanLines example_mirror
  = envModuleHeader :: ("  export const API_URL: string;" :: []) ++ ["}"].
Proof. vm_compute. reflexivity. Qed.

Lemma template_files_with_mirror_babel :
  template_files_with_mirror !! filepath_Join "/app" "babel.config.js"
  = Some example_babel.
Proof. vm_compute. reflexivity. Qed.

Lemma template_files_with_mirror_mirror :
  template_files_with_mirror !! filepath_Join "/app" "env.d.ts" = Some example_mirror.
Proof. vm_compute. reflexivity. Qed.

Lemma envInitCmd_overwrites_first_declaration_witness :
  exists out w',
    envInitCmd ascii_only_table (example_external None) "/app"
      {| files := template_files_with_mirror;
         config := Ok (example_config "bare" false) |}
    = Some (out, w') /\
    last out = Some "Environment successfully initialized." /\
    config w' = Ok (with_flag (example_config "bare" false) true) /\
    files w' !! filepath_Join "/app" "env.d.ts"
    = Some (Join (envModuleHeader :: ("  export const : string;" :: []) ++ ["}"]) nl).
Proof.
  exact (envInitCmd_overwrites_first_declaration ascii_only_table
           (example_external None) "/app"
           {| files := template_files_with_mirror;
              config := Ok (example_config "bare" false) |}
           (example_config "bare" false) example_babel example_mirror
           "  export const API_URL: string;" []
           eq_refl eq_refl eq_refl eq_refl
           template_files_with_mirror_babel template_files_with_mirror_mirror
           example_mirror_well_formed example_mirror_lines).
Defined.

(** ** The Babel configuration and the names of hooks *)

Lemma example_babel_matches :
  matches_somewhere (pattern_in_force example_babel) example_babel.
Proof. exists 0%nat, 17%nat. vm_compute. reflexivity. Qed.

Lemma example_babel_file :
  ({[ "/app/babel.config.js" := example_babel ]} : FS) !! "/app/babel.config.js"
  = Some example_babel.
Proof. vm_compute. reflexivity. Qed.

Lemma example_babel_has_no_plugin : Contains example_babel "react-native-dotenv" = false.
Proof. vm_compute. reflexivity. Qed.

Lemma modifyBabelJSConfig_adds_or_misses_witness :
  exists out content',
    modifyBabelJSConfig "/app/babel.config.js" {[ "/app/babel.config.js" := example_babel ]}
    = (out, None,
       <[ "/app/babel.config.js" := content' ]>
         ({[ "/app/babel.config.js" := example_babel ]} : FS)) /\
    (matches_somewhere (pattern_in_force example_babel) example_babel ->
     Contains content' "module:react-native-dotenv" = true) /\
    (~ matches_somewhere (pattern_in_force example_babel) example_babel ->
     content' = example_babel) /\
    (Contains example_babel "plugins" = true ->
     out = ["Successfully added react-native-dotenv plugin to " +:+ "/app/babel.config.js"]).
Proof.
  exact (modifyBabelJSConfig_adds_or_misses "/app/babel.config.js" example_babel
           {[ "/app/babel.config.js" := example_babel ]}
           example_babel_file example_babel_has_no_plugin).
Defined.

Lemma hook_names_of_a_word_witness :
  toUpperCamelCase ascii_only_table no_rune no_rune (String "c" "ustomHook")
  = String (capital "c") "ustomHook" /\
  (HasPrefix (String "c" "ustomHook") "use" = false ->
   ensureUsePrefix ascii_only_table no_rune no_rune (String "c" "ustomHook")
   = "use" +:+ String (capital "c") "ustomHook") /\
  exists tail,
    ensureUsePrefix ascii_only_table no_rune no_rune (String "c" "ustomHook")
    = "use" +:+ tail /\
    toUpperCamelCase ascii_only_table no_rune no_rune
      (ensureUsePrefix ascii_only_table no_rune no_rune (String "c" "ustomHook"))
    = "Use" +:+ tail.
Proof.
  exact (hook_names_of_a_word ascii_only_table no_rune no_rune "c" "ustomHook" eq_refl).
Defined.
